(** * coc.nvim extension runtime: installer and extension registry

    A shallow embedding of the parts of [extensions.ts] (the [Extensions]
    class) and [model/installer.ts] (the [Installer] class and
    [registryUrl]) that the lifecycle properties are about, followed by the
    properties themselves.  The management commands of the registry
    ([checkRoot], [toggleExtension], [cleanExtensions],
    [filterGlobalExtensions]), the constructor of the installer and
    [addRootPattern] of the workspace folders come after the lifecycle
    definitions, and their properties after the lifecycle properties.

    Conventions of the embedding.
    - A JavaScript string is a [string]: a sequence of code units, here the
      code units below 256.  The line terminators of the regular-expression
      dialect that can occur are LF (10) and CR (13).
    - JSON documents and the objects built from them are [value]s; an
      object keeps its properties in the enumeration order of the language
      (array-index keys first, in ascending numeric order, then the other
      keys in creation order).
    - The file system is a finite map from absolute paths to nodes.
    - Code that can throw returns a [Result]; [async] functions are run to
      completion where the property is about their result, and are cut at
      their [await] where the property is about interleavings. *)

From Stdlib Require Import ZArith Ascii String List Bool Lia.
From stdpp Require Import base option list strings gmap sorting pretty.

Local Open Scope string_scope.
Local Open Scope list_scope.

(* ===================================================================== *)
(** * Prelude: strings                                                    *)
(* ===================================================================== *)

Module Js.

Definition LF : ascii := "010"%char.
Definition CR : ascii := "013"%char.

(** The characters the pattern [.] does not match. *)
Definition is_line_terminator (c : ascii) : bool :=
  Ascii.eqb c LF || Ascii.eqb c CR.

Fixpoint contains_char (c : ascii) (s : string) : bool :=
  match s with
  | EmptyString => false
  | String d rest => Ascii.eqb c d || contains_char c rest
  end.

Fixpoint has_line_terminator (s : string) : bool :=
  match s with
  | EmptyString => false
  | String d rest => is_line_terminator d || has_line_terminator rest
  end.

Definition starts_with_LF (s : string) : bool :=
  match s with
  | String d _ => Ascii.eqb d LF
  | EmptyString => false
  end.

(** [s.split(/\r?\n/)]: a separator is a LF, together with the CR right
    before it when there is one. *)
Fixpoint split_lines (s : string) : list string :=
  match s with
  | EmptyString => [""]
  | String c rest =>
      if Ascii.eqb c LF then "" :: split_lines rest
      else if Ascii.eqb c CR && starts_with_LF rest then split_lines rest
      else match split_lines rest with
           | l :: ls => String c l :: ls
           | [] => [String c ""]
           end
  end.

(** [s.endsWith(t)]: some suffix of [s] is [t]. *)
Fixpoint endsWith (s t : string) : bool :=
  String.eqb s t ||
  match s with
  | EmptyString => false
  | String _ rest => endsWith rest t
  end.

(** [s.startsWith(t)] *)
Definition startsWith (s t : string) : bool := String.prefix t s.

(** [line.match(re)] for the pattern of [registryUrl]: start of input, a
    lazy group of any characters, an equals sign, a greedy group of any
    characters, end of input.  As the backtracking matcher runs it: the lazy
    group grows one character at a time; at an equals sign the rest of the
    input is tried as the second group, which must reach the end of the
    input without meeting a line terminator; a line terminator cannot join
    the lazy group.  The result is the two groups, or [None] for [null]. *)
Fixpoint match_key_val (line : string) : option (string * string) :=
  match line with
  | EmptyString => None
  | String c rest =>
      if Ascii.eqb c "="%char && negb (has_line_terminator rest)
      then Some (EmptyString, rest)
      else if is_line_terminator c then None
      else match match_key_val rest with
           | Some (key, val) => Some (String c key, val)
           | None => None
           end
  end.

End Js.

(* ===================================================================== *)
(** * Prelude: values, objects and results                                *)
(* ===================================================================== *)

(** What a function that can throw yields. The cases of [error] are the
    [Error]s the modelled code constructs itself, the run-time errors of
    the language, and the failures of the collaborators. *)
Inductive error : Type :=
| TypeError
| RangeError
| SyntaxError
| ErrDisabled (id : string)              (* Extension ${id} is disabled! *)
| ErrNotRegistered (id : string)         (* Extension ${id} not registered! *)
| ErrInvalidAccess (id : string)         (* Invalid access to exports, ... not activated *)
| ErrNotExists (def registry : string)   (* ${def} doesn't exists in ${registry}. *)
| ErrNotCocExtension (def : string)      (* ${def} is not valid coc extension, ... *)
| ErrUnsupportedUrl (url : string)       (* "${url}" is not supported, ... *)
| ErrRequiresCoc (required : string)     (* ... requires coc.nvim ..., please update coc.nvim. *)
| ErrLoadJson (file : string)            (* Error on load ${jsonFile} *)
| ErrNpmExit (code : Z)                  (* ${npm} install exited with ${code} *)
| ErrInvalidVersion                      (* semver: Invalid Version *)
| ErrIO (path : string)                  (* ENOENT, EISDIR, ... of the fs module *)
| ErrFetch (url : string)                (* rejected request *)
| ErrDownload (url : string)             (* rejected download *)
| ErrSpawn                               (* the child process emitted 'error' *)
| ErrExtension (payload : nat).          (* whatever extension code throws *)

Inductive Result (A : Type) : Type :=
| Ok (a : A)
| Throw (e : error).
Arguments Ok {A} a.
Arguments Throw {A} e.

Module Value.

#[warnings="-register-all"] Inductive value : Type :=
| VUndefined
| VNull
| VBool (b : bool)
| VNum (n : Z)
| VStr (s : string)
| VArr (items : list value)
| VObj (props : list (string * value)).

(** ToBoolean *)
Definition truthy (v : value) : bool :=
  match v with
  | VUndefined | VNull => false
  | VBool b => b
  | VNum n => negb (Z.eqb n 0)
  | VStr s => negb (String.eqb s "")
  | VArr _ | VObj _ => true
  end.

Definition digit_of (c : ascii) : option N :=
  let n := N_of_ascii c in
  if (N.leb 48 n && N.leb n 57)%bool then Some (n - 48)%N else None.

Fixpoint digits_value (acc : N) (s : string) : option N :=
  match s with
  | EmptyString => Some acc
  | String c rest =>
      match digit_of c with
      | Some d => digits_value (acc * 10 + d)%N rest
      | None => None
      end
  end.

(** A property key is an array index when it is the canonical decimal
    numeral of an integer from 0 to 2^32 - 2. *)
Definition array_index (k : string) : option N :=
  match k with
  | EmptyString => None
  | String c rest =>
      if (Ascii.eqb c "0"%char && negb (String.eqb rest ""))%bool then None
      else match digits_value 0 k with
           | Some n => if N.leb n 4294967294 then Some n else None
           | None => None
           end
  end.

Section Props.
Context {A : Type}.

Fixpoint obj_get (props : list (string * A)) (k : string) : option A :=
  match props with
  | [] => None
  | (k', v) :: rest => if String.eqb k k' then Some v else obj_get rest k
  end.

Definition obj_has (props : list (string * A)) (k : string) : bool :=
  match obj_get props k with Some _ => true | None => false end.

Fixpoint obj_replace (props : list (string * A)) (k : string) (v : A) : list (string * A) :=
  match props with
  | [] => []
  | (k', v') :: rest =>
      if String.eqb k k' then (k', v) :: rest else (k', v') :: obj_replace rest k v
  end.

(** Where a new array-index key [n] goes: before the first key that is
    not an array index or is a larger one. *)
Fixpoint obj_insert_index (props : list (string * A)) (n : N) (k : string) (v : A)
  : list (string * A) :=
  match props with
  | [] => [(k, v)]
  | (k', v') :: rest =>
      match array_index k' with
      | Some n' => if N.ltb n n' then (k, v) :: props
                   else (k', v') :: obj_insert_index rest n k v
      | None => (k, v) :: props
      end
  end.

(** [o[k] = v] on an ordinary object: an existing property keeps its
    place; a new one is created, an array index among the array indices
    and any other key after all the properties there are.  Assigning to
    ["__proto__"] creates no property of the object: it goes to the setter
    of the prototype, which the model leaves out. *)
Definition obj_set (props : list (string * A)) (k : string) (v : A) : list (string * A) :=
  if String.eqb k "__proto__" then props
  else if obj_has props k then obj_replace props k v
  else match array_index k with
       | Some n => obj_insert_index props n k v
       | None => props ++ [(k, v)]
       end.

(** [delete o[k]] *)
Definition obj_delete (props : list (string * A)) (k : string) : list (string * A) :=
  filter (fun p => negb (String.eqb k (fst p))) props.

(** [Object.keys(o)] *)
Definition obj_keys (props : list (string * A)) : list string := map fst props.
End Props.

(** ToString, as string concatenation, template literals and computed
    property keys apply it. *)
Fixpoint to_string (v : value) : string :=
  match v with
  | VUndefined => "undefined"
  | VNull => "null"
  | VBool true => "true"
  | VBool false => "false"
  | VNum n => pretty.pretty n
  | VStr s => s
  | VArr items =>
      String.concat ","
        (map (fun x => match x with
                       | VUndefined | VNull => ""
                       | _ => to_string x
                       end) items)
  | VObj _ => "[object Object]"
  end.

(** [v[k]] for a string key: own properties only. [undefined] and [null]
    have no properties and reading one throws. *)
Definition get (v : value) (k : string) : Result value :=
  match v with
  | VUndefined | VNull => Throw TypeError
  | VObj props => Ok (default VUndefined (obj_get props k))
  | VArr items =>
      match array_index k with
      | Some n => Ok (default VUndefined (items !! N.to_nat n))
      | None => if String.eqb k "length" then Ok (VNum (Z.of_nat (length items)))
                else Ok VUndefined
      end
  | VStr s =>
      match array_index k with
      | Some n => Ok (match String.get (N.to_nat n) s with
                      | Some c => VStr (String c "")
                      | None => VUndefined
                      end)
      | None => if String.eqb k "length" then Ok (VNum (Z.of_nat (String.length s)))
                else Ok VUndefined
      end
  | VBool _ | VNum _ => Ok VUndefined
  end.

(** [v[key]] for a computed key. *)
Definition get_computed (v key : value) : Result value := get v (to_string key).

End Value.
Export Value.

(* ===================================================================== *)
(** * The file system and the host                                        *)
(* ===================================================================== *)

Module Fs.

Inductive node : Type :=
| File (content : string)
| Dir
| Symlink (target : string).

(** [path.join(a, b)] for segments that are already normalized. *)
Definition path_join (a b : string) : string := a +:+ "/" +:+ b.

(** Resolution of the last component of a path, links followed; [None] is
    ENOENT (or ELOOP once [fuel] links were followed). *)
Fixpoint follow (fuel : nat) (fs : gmap string node) (p : string) : option (string * node) :=
  match fs !! p with
  | Some (Symlink t) =>
      match fuel with
      | O => None
      | S fuel' => follow fuel' fs t
      end
  | Some n => Some (p, n)
  | None => None
  end.

Definition MAXSYMLINKS : nat := 40.

(** [fs.stat]: follows links. *)
Definition stat (fs : gmap string node) (p : string) : option node :=
  snd <$> follow MAXSYMLINKS fs p.

(** [fs.lstat]: the node itself. *)
Definition lstat (fs : gmap string node) (p : string) : option node := fs !! p.

(** [fs.existsSync]: whether [stat] succeeds, so [false] for a link whose
    target is missing. *)
Definition existsSync (fs : gmap string node) (p : string) : bool :=
  match stat fs p with Some _ => true | None => false end.

(** [fs.readFileSync(p, 'utf8')] and [fs.readFile] *)
Definition readFile (fs : gmap string node) (p : string) : Result string :=
  match stat fs p with
  | Some (File c) => Ok c
  | _ => Throw (ErrIO p)
  end.

(** [fs.writeFile(p, c)]: through a link to the file it names. *)
Definition writeFile (fs : gmap string node) (p c : string) : Result (gmap string node) :=
  match fs !! p with
  | Some (Symlink _) =>
      match follow MAXSYMLINKS fs p with
      | Some (q, File _) => Ok (<[q := File c]> fs)
      | _ => Throw (ErrIO p)
      end
  | Some Dir => Throw (ErrIO p)
  | _ => Ok (<[p := File c]> fs)
  end.

(** Whether [q] is [p] or lies below it. *)
Definition within (p q : string) : bool :=
  String.eqb p q || String.prefix (p +:+ "/") q.

(** [fs.removeSync(p)] and [fs.remove(p)]: the node and all below it; a
    link is removed, not followed. *)
Definition remove (fs : gmap string node) (p : string) : gmap string node :=
  filter (fun kv => within p (fst kv) = false) fs.

(** [fs.unlinkSync(p)] *)
Definition unlinkSync (fs : gmap string node) (p : string) : Result (gmap string node) :=
  match fs !! p with
  | Some (File _) | Some (Symlink _) => Ok (delete p fs)
  | _ => Throw (ErrIO p)
  end.

(** The path [q] below [src], moved below [dst]. *)
Definition rebase (src dst q : string) : string :=
  dst +:+ String.substring (String.length src) (String.length q - String.length src) q.

(** [fs.move(src, dst, { overwrite: true })]: what is at [dst] is removed,
    then the tree at [src] is renamed. *)
Definition move (fs : gmap string node) (src dst : string) : Result (gmap string node) :=
  match fs !! src with
  | None => Throw (ErrIO src)
  | Some _ =>
      let cleared := remove fs dst in
      let moved := filter (fun kv => within src (fst kv) = true) cleared in
      let kept := filter (fun kv => within src (fst kv) = false) cleared in
      Ok (map_fold (fun q n acc => <[rebase src dst q := n]> acc) kept moved)
  end.

(** [fs.rmdirSync(p)]: an empty directory only. *)
Definition rmdirSync (fs : gmap string node) (p : string) : Result (gmap string node) :=
  match fs !! p with
  | Some Dir =>
      if decide (filter (fun kv => String.prefix (p +:+ "/") (fst kv) = true) fs = ∅)
      then Ok (delete p fs) else Throw (ErrIO p)
  | _ => Throw (ErrIO p)
  end.

End Fs.
Export Fs.

(* ===================================================================== *)
(** * model/installer.ts                                                  *)
(* ===================================================================== *)

Module Installer.

(** ** The collaborators

    What the installer imports and does not define: the process
    environment, the JSON codecs, the network, semver and the child
    process.  A function of the host stands for each. *)

Inductive npm_outcome : Type :=
| NpmError                                           (* the 'error' event *)
| NpmExit (code : Z) (stdout : list string) (stderr : string)
          (written : list (string * string)).        (* files it left in cwd *)

Record Host : Type := {
  HOME_DIR : string;
  TEST : bool;                                       (* global.__TEST__ *)
  os_tmpdir : string;
  mkdtemp_suffix : nat -> string;                    (* the six characters of the n-th mkdtemp *)
  workspace_version : string;
  JSON_parse : string -> option value;               (* None: SyntaxError *)
  JSON_stringify : value -> string;                  (* JSON.stringify(v, null, 2) *)
  jsonc_parse : string -> value * bool;              (* the value, and whether errors were reported *)
  fetch_buffer : string -> option string;            (* fetch(url, { buffer: true }), decoded *)
  fetch : string -> option (string + value);         (* fetch(url): text, or an already parsed body *)
  semver_gte : string -> string -> option bool;      (* None: Invalid Version *)
  semver_satisfies : string -> string -> bool;
  download : string -> option (list string * list (string * string));
                                                     (* progress percents, and the files of the
                                                        archive by path below its top folder *)
  run_npm : string -> list string -> string -> npm_outcome;
}.

(** ** registryUrl *)

Definition DEFAULT_REGISTRY : string := "https://registry.npmjs.org/".

(** One turn of the loop over the lines of [.npmrc]; [None] is the
    TypeError of destructuring a [null] match. *)
Definition npmrc_line (obj : list (string * string)) (line : string)
  : option (list (string * string)) :=
  if Js.contains_char "="%char line then
    match Js.match_key_val line with
    | Some (key, val) => Some (obj_set obj key val)
    | None => None
    end
  else Some obj.

Fixpoint npmrc_lines (obj : list (string * string)) (lines : list string)
  : option (list (string * string)) :=
  match lines with
  | [] => Some obj
  | line :: rest =>
      match npmrc_line obj line with
      | Some obj' => npmrc_lines obj' rest
      | None => None
      end
  end.

(** [obj[key]] used as a condition, for an object whose values are strings. *)
Definition truthy_entry (obj : list (string * string)) (key : string) : option string :=
  match obj_get obj key with
  | Some v => if String.eqb v "" then None else Some v
  | None => None
  end.

Definition with_trailing_slash (res : string) : string :=
  if Js.endsWith res "/" then res else res +:+ "/".

Definition registryUrl (h : Host) (fs : gmap string node) (scope : string) : string :=
  let res := DEFAULT_REGISTRY in
  let filepath := path_join (HOME_DIR h) ".npmrc" in
  let res :=
    if existsSync fs filepath then
      match readFile fs filepath with
      | Ok content =>
          match npmrc_lines [] (Js.split_lines content) with
          | Some obj =>
              match truthy_entry obj (scope +:+ ":registry") with
              | Some v => v
              | None =>
                  match truthy_entry obj "registry" with
                  | Some v => v
                  | None => res
                  end
              end
          | None => res                               (* catch (e) *)
          end
      | Throw _ => res                                (* catch (e) *)
      end
    else res in
  with_trailing_slash res.

(** ** Small helpers of the module *)

(** [path.basename(p)]: the last segment of [p] that is not empty. *)
Definition basename (p : string) : string :=
  (fix go (last cur : string) (s : string) : string :=
     match s with
     | EmptyString => String.rev (if String.eqb cur "" then last else cur)
     | String c rest =>
         if Ascii.eqb c "/"%char
         then go (if String.eqb cur "" then last else cur) "" rest
         else go last (String c cur) rest
     end) "" "" p.

Definition isNpmCommand (exePath : string) : bool :=
  let name := basename exePath in
  String.eqb name "npm" || String.eqb name "npm.CMD".

Definition isYarn (exePath : string) : bool :=
  let name := basename exePath in
  existsb (String.eqb name) ["yarn"; "yarn.CMD"; "yarnpkg"; "yarnpkg.CMD"].

Definition getInstallArguments (exePath url : string) : list string :=
  let args := ["install"; "--ignore-scripts"; "--no-lockfile"; "--production"] in
  let args := if Js.startsWith url "https://github.com" then ["install"] else args in
  let args := if isNpmCommand exePath then args ++ ["--legacy-peer-deps"; "--no-global"] else args in
  let args := if isYarn exePath then args ++ ["--ignore-engines"] else args in
  args.

(** The own enumerable properties of a value, as [Object.keys] lists them. *)
Definition own_entries (v : value) : list (string * value) :=
  match v with
  | VObj props => props
  | VArr items => imap (fun i x => (pretty.pretty i, x)) items
  | VStr s => imap (fun i c => (pretty.pretty i, VStr (String c ""))) (list_ascii_of_string s)
  | _ => []
  end.

(** Modelled from the spec: [omit] of [util/lodash], whose source is not
    at hand; the manifest's dependencies "excluding the host package,
    common bundlers, and type-declaration packages": a fresh object with
    the other keys. *)
Definition omit (v : value) (properties : list string) : list (string * value) :=
  fold_left (fun o kv => if existsb (String.eqb (fst kv)) properties then o
                         else obj_set o (fst kv) (snd kv))
            (own_entries v) [].

Definition getDependencies (h : Host) (content : string) : list (string * value) :=
  let dependencies :=
    match JSON_parse h content with
    | Some obj =>
        match get obj "dependencies" with
        | Ok d => if truthy d then d else VObj []
        | Throw _ => VObj []
        end
    | None => VObj []
    end in
  omit dependencies ["coc.nvim"; "esbuild"; "webpack"; "@types/node"].

Definition isSymbolicLink (fs : gmap string node) (folder : string) : bool :=
  if existsSync fs folder then
    match lstat fs folder with
    | Some (Symlink _) => true
    | _ => false
    end
  else false.

(** ** The installer object and its effects

    [this.name], [this.url] and [this.version] are what the constructor and
    later assignments left there: any value. *)

Record installer : Type := {
  root : string;
  npm : string;
  def : string;
  name : value;
  url : value;
  version : value;
}.

Record state : Type := {
  fs : gmap string node;
  self : installer;
  messages : list (string * bool);                 (* the 'message' events, latest first *)
  spawned : list (string * list string * string);  (* child processes: command, arguments, cwd *)
  temps : nat;                                     (* number of mkdtemp calls *)
}.

Definition M (A : Type) : Type := state -> Result A * state.

Definition ret {A} (a : A) : M A := fun s => (Ok a, s).
Definition throw {A} (e : error) : M A := fun s => (Throw e, s).
Definition bind {A B} (c : M A) (k : A -> M B) : M B :=
  fun s => match c s with
           | (Ok a, s') => k a s'
           | (Throw e, s') => (Throw e, s')
           end.
Definition gets {A} (f : state -> A) : M A := fun s => (Ok (f s), s).
Definition modify (f : state -> state) : M unit := fun s => (Ok tt, f s).
Definition lift {A} (r : Result A) : M A := fun s => (r, s).

Notation "x <- c ;; k" := (bind c (fun x => k))
  (at level 100, c at next level, right associativity).
Notation "c ;; k" := (bind c (fun _ => k))
  (at level 100, right associativity).

Definition set_fs (f : gmap string node) (s : state) : state :=
  {| fs := f; self := self s; messages := messages s; spawned := spawned s; temps := temps s |}.
Definition set_self (i : installer) (s : state) : state :=
  {| fs := fs s; self := i; messages := messages s; spawned := spawned s; temps := temps s |}.
Definition set_name (v : value) (i : installer) : installer :=
  {| root := root i; npm := npm i; def := def i; name := v; url := url i; version := version i |}.
Definition set_url (v : value) (i : installer) : installer :=
  {| root := root i; npm := npm i; def := def i; name := name i; url := v; version := version i |}.
Definition set_version (v : value) (i : installer) : installer :=
  {| root := root i; npm := npm i; def := def i; name := name i; url := url i; version := v |}.

(** [this.log(msg, isProgress)]: emits 'message'. *)
Definition log (msg : string) (isProgress : bool) : M unit :=
  modify (fun s => {| fs := fs s; self := self s; messages := (msg, isProgress) :: messages s;
                      spawned := spawned s; temps := temps s |}).

(** A file-system call that changes the tree or throws. *)
Definition fs_update (f : gmap string node -> Result (gmap string node)) : M unit :=
  fun s => match f (fs s) with
           | Ok fs' => (Ok tt, set_fs fs' s)
           | Throw e => (Throw e, s)
           end.

(** An argument that must be a string: [path.join], [String.prototype]
    methods and the like throw a TypeError on anything else. *)
Definition as_string (v : value) : M string :=
  match v with
  | VStr s => ret s
  | _ => throw TypeError
  end.

(** ** String methods the installer uses *)

(** [s.replace(pat, rep)] for a string pattern: the first occurrence. *)
Fixpoint replace_first (pat rep s : string) : string :=
  if String.prefix pat s then rep +:+ String.substring (String.length pat) (String.length s) s
  else match s with
       | EmptyString => EmptyString
       | String c rest => String c (replace_first pat rep rest)
       end.

(** [s.replace(re, '')] where [re] is a slash at the end of the input. *)
Fixpoint strip_trailing_slash (s : string) : string :=
  match s with
  | EmptyString => EmptyString
  | String c rest =>
      if Ascii.eqb c "/"%char && String.eqb rest "" then EmptyString
      else String c (strip_trailing_slash rest)
  end.

(** [s.replace(re, '>=')] where [re] is a caret at the start of the input. *)
Definition replace_caret (s : string) : string :=
  match s with
  | String c rest => if Ascii.eqb c "^"%char then ">=" +:+ rest else s
  | EmptyString => s
  end.

(** [idx = s.indexOf(c)], [s.substring(0, idx)] and [s.substr(idx + 1)]. *)
Fixpoint split_at_char (c : ascii) (s : string) : option (string * string) :=
  match s with
  | EmptyString => None
  | String d rest =>
      if Ascii.eqb c d then Some (EmptyString, rest)
      else match split_at_char c rest with
           | Some (a, b) => Some (String d a, b)
           | None => None
           end
  end.

(** [path.dirname(p)]: [p] without its last segment. *)
Definition dirname (p : string) : string :=
  match split_at_char "/"%char (String.rev p) with
  | Some (_, parent) => String.rev parent
  | None => "."
  end.

(** ** getInfo *)

Record Info : Type := {
  dist_tarball : value;     (* 'dist.tarball' *)
  engines_coc : value;      (* 'engines.coc' *)
  info_version : value;
  info_name : value;
}.

Definition parse_json (h : Host) (text : string) : M value :=
  match JSON_parse h text with
  | Some v => ret v
  | None => throw SyntaxError
  end.

Definition getInfoFromUri (h : Host) : M Info :=
  i <- gets self ;;
  url <- as_string (url i) ;;
  if negb (Js.startsWith url "https://github.com") then throw (ErrUnsupportedUrl url) else
  let url := strip_trailing_slash url in
  let '(url, branch) :=
    match split_at_char "@"%char url with
    | Some (before, after) => (before, after)
    | None => (url, "master")
    end in
  let fileUrl := replace_first "github.com" "raw.githubusercontent.com" url
                 +:+ "/" +:+ branch +:+ "/package.json" in
  log ("Get info from " +:+ fileUrl) false ;;
  content <- lift (match fetch h fileUrl with
                   | Some c => Ok c
                   | None => Throw (ErrFetch fileUrl)
                   end) ;;
  obj <- match content with
         | inl text => parse_json h text
         | inr v => ret v
         end ;;
  nm <- lift (get obj "name") ;;
  modify (fun s => set_self (set_name nm (self s)) s) ;;
  engines <- lift (get obj "engines") ;;
  coc <- (if truthy engines then lift (get engines "coc") else ret VNull) ;;
  ver <- lift (get obj "version") ;;
  ret {| dist_tarball := VStr (url +:+ "/archive/" +:+ branch +:+ ".tar.gz");
         engines_coc := coc;
         info_version := ver;
         info_name := nm |}.

Definition getInfo (h : Host) : M Info :=
  i <- gets self ;;
  if truthy (url i) then getInfoFromUri h else
  f <- gets fs ;;
  let registry := registryUrl h f "coc.nvim" in
  log ("Get info from " +:+ registry) false ;;
  let target := registry +:+ to_string (name i) in
  text <- lift (match fetch_buffer h target with
                | Some t => Ok t
                | None => Throw (ErrFetch target)
                end) ;;
  res <- parse_json h text ;;
  ver <- (if truthy (version i) then ret (version i)
          else tags <- lift (get res "dist-tags") ;;
               latest <- lift (get tags "latest") ;;
               modify (fun s => set_self (set_version latest (self s)) s) ;;
               ret latest) ;;
  versions <- lift (get res "versions") ;;
  obj <- lift (get_computed versions ver) ;;
  if negb (truthy obj) then throw (ErrNotExists (def i) registry) else
  engines <- lift (get obj "engines") ;;
  requiredVersion <- (if truthy engines then lift (get engines "coc") else ret engines) ;;
  if negb (truthy requiredVersion) then throw (ErrNotCocExtension (def i)) else
  dist <- lift (get obj "dist") ;;
  tarball <- lift (get dist "tarball") ;;
  v <- lift (get obj "version") ;;
  nm <- lift (get res "name") ;;
  ret {| dist_tarball := tarball;
         engines_coc := requiredVersion;
         info_version := v;
         info_name := nm |}.

(** ** doInstall *)

Definition mkdtemp (h : Host) (prefix : string) : M string :=
  fun s =>
    let p := prefix +:+ mkdtemp_suffix h (temps s) in
    (Ok p, {| fs := <[p := Dir]> (fs s); self := self s; messages := messages s;
              spawned := spawned s; temps := S (temps s) |}).

Fixpoint log_each (prefix suffix : string) (items : list string) : M unit :=
  match items with
  | [] => ret tt
  | x :: rest => log (prefix +:+ x +:+ suffix) true ;; log_each prefix suffix rest
  end.

Definition write_below (dir : string) (files : list (string * string)) (f : gmap string node)
  : gmap string node :=
  fold_left (fun acc pc => <[path_join dir (fst pc) := File (snd pc)]> acc) files f.

(** [download(url, { dest, onProgress, extract: 'untar' })] as the
    installer sees it: the progress callbacks, then the archive below [dest]. *)
Definition download_to (h : Host) (url : value) (dest : string) : M unit :=
  u <- as_string url ;;
  match download h u with
  | None => throw (ErrDownload u)
  | Some (progress, files) =>
      log_each "Download progress " "%" progress ;;
      modify (fun s => set_fs (write_below dest files (fs s)) s)
  end.

(** The promise around the child process. *)
Definition npm_install (h : Host) (url tmpFolder : string) : M unit :=
  i <- gets self ;;
  let args := getInstallArguments (npm i) url in
  log ("Installing dependencies by: " +:+ npm i +:+ " " +:+ String.concat " " args +:+ ".") false ;;
  modify (fun s => {| fs := fs s; self := self s; messages := messages s;
                      spawned := (npm i, args, tmpFolder) :: spawned s; temps := temps s |}) ;;
  match run_npm h (npm i) args tmpFolder with
  | NpmError => throw ErrSpawn
  | NpmExit code out err written =>
      modify (fun s => set_fs (write_below tmpFolder written (fs s)) s) ;;
      log_each "[npm] " "" out ;;
      if Z.eqb code 0 then ret tt
      else (if String.eqb err "" then ret tt else log err false) ;;
           throw (ErrNpmExit code)
  end.

(** [obj.dependencies = obj.dependencies || {}] followed by
    [obj.dependencies[name] = pin], in strict mode: the properties of
    [obj.dependencies] afterwards. *)
Definition pin_dependency (obj : value) (nm : string) (pin : value)
  : Result (list (string * value)) :=
  match get obj "dependencies" with
  | Throw e => Throw e
  | Ok d =>
      match obj with
      | VObj _ | VArr _ =>
          let d := if truthy d then d else VObj [] in
          match d with
          | VObj _ => Ok (obj_set (own_entries d) nm pin)
          | VArr _ => if String.eqb nm "length" then Throw RangeError
                      else Ok (obj_set (own_entries d) nm pin)
          | _ => Throw TypeError
          end
      | _ => Throw TypeError
      end
  end.

(** [Object.keys(deps).sort().forEach(k => sorted[k] = deps[k])]: the
    default sort compares the keys as strings, code unit by code unit. *)
Definition sort_dependencies (deps : list (string * value)) : list (string * value) :=
  fold_left (fun sorted k => obj_set sorted k (default VUndefined (obj_get deps k)))
            (merge_sort String.le (obj_keys deps)) [].

(** Modelled from the spec: [statAsync] of util/fs, whose source is not at
    hand; [doInstall] removes "a prior non-symlink directory or file
    first": the [fs.stat] of the path, or [null] when there is none. *)
Definition statAsync (fs : gmap string node) (p : string) : option node := stat fs p.

Definition manifest_path (h : Host) (i : installer) : string :=
  if TEST h then path_join (root i) "package.json"
  else path_join (dirname (root i)) "package.json".

Definition doInstall (h : Host) (info : Info) : M bool :=
  i <- gets self ;;
  nm <- as_string (info_name info) ;;
  let folder := path_join (root i) nm in
  f <- gets fs ;;
  if isSymbolicLink f folder then ret false else
  tmpFolder <- mkdtemp h (path_join (os_tmpdir h) (replace_first "/" "-" nm +:+ "-")) ;;
  let tarball := dist_tarball info in
  log ("Downloading from " +:+ to_string tarball) false ;;
  download_to h tarball tmpFolder ;;
  log ("Extension download at " +:+ tmpFolder) false ;;
  f <- gets fs ;;
  content <- lift (readFile f (path_join tmpFolder "package.json")) ;;
  let dependencies := getDependencies h content in
  (match dependencies with
   | [] => ret tt
   | _ :: _ => npm_install h (to_string tarball) tmpFolder
   end) ;;
  let jsonFile := manifest_path h i in
  f <- gets fs ;;
  (if existsSync f jsonFile then ret tt
   else fs_update (fun f => writeFile f jsonFile "{}")) ;;
  f <- gets fs ;;
  text <- lift (readFile f jsonFile) ;;
  let '(obj, errors) := jsonc_parse h text in
  if errors then throw (ErrLoadJson jsonFile) else
  i' <- gets self ;;
  let pin := if truthy (url i') then url i'
             else VStr (">=" +:+ to_string (info_version info)) in
  deps <- lift (pin_dependency obj nm pin) ;;
  let sortedObj := VObj [("dependencies", VObj (sort_dependencies deps))] in
  f <- gets fs ;;
  (match statAsync f folder with
   | Some Dir => modify (fun s => set_fs (remove (fs s) folder) s)
   | Some _ => fs_update (fun f => unlinkSync f folder)
   | None => ret tt
   end) ;;
  fs_update (fun f => move f tmpFolder folder) ;;
  fs_update (fun f => writeFile f jsonFile (JSON_stringify h sortedObj)) ;;
  f <- gets fs ;;
  (if existsSync f tmpFolder then fs_update (fun f => rmdirSync f tmpFolder) else ret tt) ;;
  log ("Update package.json at " +:+ jsonFile) false ;;
  log ("Installed extension " +:+ to_string (name i') +:+ "@" +:+ to_string (info_version info)
       +:+ " at " +:+ folder) false ;;
  ret true.

(** ** install and update *)

(** [info['engines.coc'] ? info['engines.coc'].replace(re, '>=') : ''] *)
Definition required_range (v : value) : M string :=
  if truthy v then s <- as_string v ;; ret (replace_caret s) else ret "".

Definition check_engine (h : Host) (required : string) : M unit :=
  if negb (String.eqb required "") && negb (semver_satisfies h (workspace_version h) required)
  then throw (ErrRequiresCoc required) else ret tt.

Definition install (h : Host) : M value :=
  i <- gets self ;;
  log ("Using npm from: " +:+ npm i) false ;;
  info <- getInfo h ;;
  required <- required_range (engines_coc info) ;;
  check_engine h required ;;
  doInstall h info ;;
  ret (info_name info).

(** [semver.gte(a, b)]: anything that is not a version string is an
    Invalid Version. *)
Definition gte (h : Host) (a b : value) : M bool :=
  match a, b with
  | VStr x, VStr y =>
      match semver_gte h x y with
      | Some r => ret r
      | None => throw ErrInvalidVersion
      end
  | _, _ => throw ErrInvalidVersion
  end.

(** [update(url)]: the new directory, or [undefined]. *)
Definition update (h : Host) (url : value) : M value :=
  modify (fun s => set_self (set_url url (self s)) s) ;;
  i <- gets self ;;
  nm <- as_string (name i) ;;
  let folder := path_join (root i) nm in
  f <- gets fs ;;
  if isSymbolicLink f folder then
    log "Skipped update for symbol link" false ;; ret VUndefined
  else
  version <- (if existsSync f (path_join folder "package.json") then
                content <- lift (readFile f (path_join folder "package.json")) ;;
                parsed <- parse_json h content ;;
                lift (get parsed "version")
              else ret VUndefined) ;;
  log ("Using npm from: " +:+ npm i) false ;;
  info <- getInfo h ;;
  current <- (if truthy version && truthy (info_version info)
              then gte h version (info_version info) else ret false) ;;
  if current then
    log ("Current version " +:+ to_string version +:+ " is up to date.") false ;; ret VUndefined
  else
  required <- required_range (engines_coc info) ;;
  check_engine h required ;;
  doInstall h info ;;
  nm' <- as_string (info_name info) ;;
  log ("Updated to v" +:+ to_string (info_version info)) false ;;
  ret (VStr (path_join (root i) nm')).

(** ** The registry URL as the specification words it

    The override of [key] in the lines of [.npmrc] is the value of the last
    line [key=value]; it is present when that value is not empty. *)

Fixpoint strip_prefix (p s : string) : option string :=
  match p, s with
  | EmptyString, _ => Some s
  | String a p', String c s' => if Ascii.eqb a c then strip_prefix p' s' else None
  | String _ _, EmptyString => None
  end.

Definition npmrc_line_sets (key line : string) : option string :=
  strip_prefix (key +:+ "=") line.

Fixpoint npmrc_setting (key : string) (lines : list string) : option string :=
  match lines with
  | [] => None
  | line :: rest =>
      match npmrc_setting key rest with
      | Some v => Some v
      | None => npmrc_line_sets key line
      end
  end.

Definition npmrc_override (key : string) (lines : list string) : option string :=
  match npmrc_setting key lines with
  | Some v => if String.eqb v "" then None else Some v
  | None => None
  end.

(** "the scoped override if present, otherwise the global 'registry'
    override if present, otherwise the default, appending a trailing slash
    when the chosen value lacks one; a missing or unreadable .npmrc yields
    the default": [content] is what can be read of the file. *)
Definition claimed_registryUrl (scope : string) (content : option string) : string :=
  let chosen :=
    match content with
    | None => DEFAULT_REGISTRY
    | Some text =>
        let lines := Js.split_lines text in
        match npmrc_override (scope +:+ ":registry") lines with
        | Some v => v
        | None =>
            match npmrc_override "registry" lines with
            | Some v => v
            | None => DEFAULT_REGISTRY
            end
        end
    end in
  if Js.endsWith chosen "/" then chosen else chosen +:+ "/".

(** The lines of [.npmrc] the loop can take apart: a line with an equals
    sign holds no line terminator (no CR that is not part of a CR LF). *)
Definition parseable (text : string) : bool :=
  forallb (fun line => negb (Js.contains_char "="%char line && Js.has_line_terminator line))
          (Js.split_lines text).

Definition npmrc_content (h : Host) (fs : gmap string node) : option string :=
  match readFile fs (path_join (HOME_DIR h) ".npmrc") with
  | Ok text => Some text
  | Throw _ => None
  end.

(** ** The manifest a registry lookup resolves

    What [getInfo] looks at when the installer has no URL: the entry of
    the requested version (or of the version tagged latest) in the
    document the registry serves for the package. *)

Definition ok {A : Type} (r : Result A) : option A :=
  match r with
  | Ok a => Some a
  | Throw _ => None
  end.

Definition registry_manifest (h : Host) (s : state) : option value :=
  let i := self s in
  let registry := registryUrl h (fs s) "coc.nvim" in
  text ← fetch_buffer h (registry +:+ to_string (name i));
  res ← JSON_parse h text;
  ver ← (if truthy (version i) then Some (version i)
         else tags ← ok (get res "dist-tags"); ok (get tags "latest"));
  versions ← ok (get res "versions");
  obj ← ok (get_computed versions ver);
  if truthy obj then Some obj else None.

(** Whether a manifest declares the range of host versions it runs on:
    a true value at [engines.coc]. *)
Definition declares_engine (m : value) : bool :=
  match get m "engines" with
  | Ok e => truthy e && match get e "coc" with
                        | Ok c => truthy c
                        | Throw _ => false
                        end
  | Throw _ => false
  end.

(** The state in which [update(url)] calls [getInfo]. *)
Definition before_getInfo (u : value) (s : state) : state :=
  snd (log ("Using npm from: " +:+ npm (self s)) false (set_self (set_url u (self s)) s)).

(** ** Computations that leave the disk alone *)

(** [c] changes neither the file system nor the counts of temporary
    folders and child processes. *)
Definition keeps {A : Type} (c : M A) : Prop :=
  forall s, fs (snd (c s)) = fs s /\ temps (snd (c s)) = temps s /\
            spawned (snd (c s)) = spawned s.

End Installer.

(* ===================================================================== *)
(** * extensions.ts                                                       *)
(* ===================================================================== *)

Module Extensions.

(** ** Data

    The records of the registry are those [createExtension] builds: an
    [ExtensionItem] whose [extension] object and [deactivate] function are
    closures over the variables [isActive], [result], [ext],
    [subscriptions] and [exports].  The closures of one call are one
    [closure] on a heap; promises and the [subscriptions] arrays live on
    heaps of their own, since callers and extension code keep references to
    them.  [contributes] (configuration defaults, root patterns, command
    titles) and the mementos of the context are not part of the model. *)

Inductive ExtensionType : Type := Global | Local | SingleFile | Internal.

(** What the registry reads of a [packageJSON]. *)
Record manifest : Type := {
  pkg_name : string;
  pkg_main : option string;
  pkg_engines_coc : bool;                    (* (packageJSON.engines || {}).hasOwnProperty('coc') *)
  activationEvents : option (list string);   (* None: no such field (undefined or null) *)
}.

(** The module a loaded extension exports: [activate], and [deactivate]
    when it has one. *)
Record ExtensionExport : Type := {
  has_deactivate : bool;
}.

(** [createExtension(id, filename, isEmpty)] of util/factory, which the
    registry imports: the loaded module, or [None] when loading throws. *)
Record Host : Type := {
  factory : string -> string -> bool -> option ExtensionExport;
}.

Inductive promise_state : Type :=
| Pending
| Fulfilled (v : value)
| Rejected (e : error).

Record promise : Type := {
  owner : nat;                               (* the closure whose [result] it was created for *)
  pstate : promise_state;
}.

Record closure : Type := {
  c_id : string;
  c_root : string;
  c_filename : string;
  c_manifest : manifest;
  isActive : bool;
  result : option nat;                       (* Promise<API> | undefined *)
  ext : option ExtensionExport;
  subscriptions : nat;
  exports : value;
}.

Record item : Type := {
  item_id : string;
  item_type : ExtensionType;
  isLocal : bool;
  extension : nat;                           (* the closure behind [extension] and [deactivate] *)
  directory : string;
  filepath : string;
}.

(** How a call of [Extensions.activate] ends. *)
Inductive outcome : Type :=
| Returned (b : bool)
| Threw (e : error).

(** A call of [Extensions.activate] at its [await]. *)
Record suspended : Type := {
  caller : nat;
  s_id : string;
  s_extension : nat;                         (* the [extension] it destructured *)
  awaits : option nat;                       (* the promise, or None for [undefined] *)
}.

Inductive trigger : Type :=
| TLanguage (language : option string)
| TCommand (command : option string)
| TWorkspaceContains (patterns : option string)
| TFileSystem (scheme : option string).

Record registry : Type := {
  extensions : gmap string item;              (* the Map of ExtensionItem by id *)
  disabled : gset string;                     (* the Set of disabled ids *)
  activated : bool;                           (* set by activateExtensions *)
  closures : gmap nat closure;                (* the variables createExtension closed over *)
  promises : gmap nat promise;                (* the promises created for [result] *)
  arrays : gmap nat (list nat);               (* the [subscriptions] arrays and the disposables in them *)
  disposed : list nat;                        (* disposables whose dispose() ran, in order *)
  waiting : list suspended;                   (* activate calls suspended at their await *)
  finished : list (nat * string * outcome);   (* settled activate calls, latest first *)
  entry_log : list (nat * nat);               (* calls of ext.activate(context), latest first *)
  teardown_log : list nat;                    (* calls of ext.deactivate(), latest first *)
  fired : list nat;                           (* _onDidActiveExtension.fire(extension), latest first *)
  listeners : list (string * trigger);        (* subscriptions of pending activation events *)
  commandList : list (option string);         (* commandManager.onCommandList *)
  unsupported : list string;                  (* events reported as unsupported *)
  next : nat;                                 (* the next fresh reference *)
}.

Definition set_extensions (x : gmap string item) (r : registry) : registry :=
  {| extensions := x; disabled := disabled r; activated := activated r; closures := closures r;
     promises := promises r; arrays := arrays r; disposed := disposed r; waiting := waiting r;
     finished := finished r; entry_log := entry_log r; teardown_log := teardown_log r;
     fired := fired r; listeners := listeners r; commandList := commandList r;
     unsupported := unsupported r; next := next r |}.
Definition set_disabled (x : gset string) (r : registry) : registry :=
  {| extensions := extensions r; disabled := x; activated := activated r;
     closures := closures r; promises := promises r; arrays := arrays r;
     disposed := disposed r; waiting := waiting r; finished := finished r;
     entry_log := entry_log r; teardown_log := teardown_log r; fired := fired r;
     listeners := listeners r; commandList := commandList r; unsupported := unsupported r;
     next := next r |}.
Definition set_activated (x : bool) (r : registry) : registry :=
  {| extensions := extensions r; disabled := disabled r; activated := x;
     closures := closures r; promises := promises r; arrays := arrays r;
     disposed := disposed r; waiting := waiting r; finished := finished r;
     entry_log := entry_log r; teardown_log := teardown_log r; fired := fired r;
     listeners := listeners r; commandList := commandList r; unsupported := unsupported r;
     next := next r |}.
Definition set_closures (x : gmap nat closure) (r : registry) : registry :=
  {| extensions := extensions r; disabled := disabled r; activated := activated r;
     closures := x; promises := promises r; arrays := arrays r; disposed := disposed r;
     waiting := waiting r; finished := finished r; entry_log := entry_log r;
     teardown_log := teardown_log r; fired := fired r; listeners := listeners r;
     commandList := commandList r; unsupported := unsupported r; next := next r |}.
Definition set_promises (x : gmap nat promise) (r : registry) : registry :=
  {| extensions := extensions r; disabled := disabled r; activated := activated r;
     closures := closures r; promises := x; arrays := arrays r; disposed := disposed r;
     waiting := waiting r; finished := finished r; entry_log := entry_log r;
     teardown_log := teardown_log r; fired := fired r; listeners := listeners r;
     commandList := commandList r; unsupported := unsupported r; next := next r |}.
Definition set_arrays (x : gmap nat (list nat)) (r : registry) : registry :=
  {| extensions := extensions r; disabled := disabled r; activated := activated r;
     closures := closures r; promises := promises r; arrays := x; disposed := disposed r;
     waiting := waiting r; finished := finished r; entry_log := entry_log r;
     teardown_log := teardown_log r; fired := fired r; listeners := listeners r;
     commandList := commandList r; unsupported := unsupported r; next := next r |}.
Definition set_disposed (x : list nat) (r : registry) : registry :=
  {| extensions := extensions r; disabled := disabled r; activated := activated r;
     closures := closures r; promises := promises r; arrays := arrays r; disposed := x;
     waiting := waiting r; finished := finished r; entry_log := entry_log r;
     teardown_log := teardown_log r; fired := fired r; listeners := listeners r;
     commandList := commandList r; unsupported := unsupported r; next := next r |}.
Definition set_waiting (x : list suspended) (r : registry) : registry :=
  {| extensions := extensions r; disabled := disabled r; activated := activated r;
     closures := closures r; promises := promises r; arrays := arrays r;
     disposed := disposed r; waiting := x; finished := finished r; entry_log := entry_log r;
     teardown_log := teardown_log r; fired := fired r; listeners := listeners r;
     commandList := commandList r; unsupported := unsupported r; next := next r |}.
Definition set_finished (x : list (nat * string * outcome)) (r : registry) : registry :=
  {| extensions := extensions r; disabled := disabled r; activated := activated r;
     closures := closures r; promises := promises r; arrays := arrays r;
     disposed := disposed r; waiting := waiting r; finished := x; entry_log := entry_log r;
     teardown_log := teardown_log r; fired := fired r; listeners := listeners r;
     commandList := commandList r; unsupported := unsupported r; next := next r |}.
Definition set_entry_log (x : list (nat * nat)) (r : registry) : registry :=
  {| extensions := extensions r; disabled := disabled r; activated := activated r;
     closures := closures r; promises := promises r; arrays := arrays r;
     disposed := disposed r; waiting := waiting r; finished := finished r; entry_log := x;
     teardown_log := teardown_log r; fired := fired r; listeners := listeners r;
     commandList := commandList r; unsupported := unsupported r; next := next r |}.
Definition set_teardown_log (x : list nat) (r : registry) : registry :=
  {| extensions := extensions r; disabled := disabled r; activated := activated r;
     closures := closures r; promises := promises r; arrays := arrays r;
     disposed := disposed r; waiting := waiting r; finished := finished r;
     entry_log := entry_log r; teardown_log := x; fired := fired r; listeners := listeners r;
     commandList := commandList r; unsupported := unsupported r; next := next r |}.
Definition set_fired (x : list nat) (r : registry) : registry :=
  {| extensions := extensions r; disabled := disabled r; activated := activated r;
     closures := closures r; promises := promises r; arrays := arrays r;
     disposed := disposed r; waiting := waiting r; finished := finished r;
     entry_log := entry_log r; teardown_log := teardown_log r; fired := x;
     listeners := listeners r; commandList := commandList r; unsupported := unsupported r;
     next := next r |}.
Definition set_listeners (x : list (string * trigger)) (r : registry) : registry :=
  {| extensions := extensions r; disabled := disabled r; activated := activated r;
     closures := closures r; promises := promises r; arrays := arrays r;
     disposed := disposed r; waiting := waiting r; finished := finished r;
     entry_log := entry_log r; teardown_log := teardown_log r; fired := fired r;
     listeners := x; commandList := commandList r; unsupported := unsupported r;
     next := next r |}.
Definition set_commandList (x : list (option string)) (r : registry) : registry :=
  {| extensions := extensions r; disabled := disabled r; activated := activated r;
     closures := closures r; promises := promises r; arrays := arrays r;
     disposed := disposed r; waiting := waiting r; finished := finished r;
     entry_log := entry_log r; teardown_log := teardown_log r; fired := fired r;
     listeners := listeners r; commandList := x; unsupported := unsupported r;
     next := next r |}.
Definition set_unsupported (x : list string) (r : registry) : registry :=
  {| extensions := extensions r; disabled := disabled r; activated := activated r;
     closures := closures r; promises := promises r; arrays := arrays r;
     disposed := disposed r; waiting := waiting r; finished := finished r;
     entry_log := entry_log r; teardown_log := teardown_log r; fired := fired r;
     listeners := listeners r; commandList := commandList r; unsupported := x;
     next := next r |}.
Definition set_next (x : nat) (r : registry) : registry :=
  {| extensions := extensions r; disabled := disabled r; activated := activated r;
     closures := closures r; promises := promises r; arrays := arrays r;
     disposed := disposed r; waiting := waiting r; finished := finished r;
     entry_log := entry_log r; teardown_log := teardown_log r; fired := fired r;
     listeners := listeners r; commandList := commandList r; unsupported := unsupported r;
     next := x |}.

Definition set_closure (k : nat) (cl : closure) (r : registry) : registry :=
  set_closures (<[k := cl]> (closures r)) r.

Definition with_activation (active : bool) (res : option nat) (x : value) (cl : closure) : closure :=
  {| c_id := c_id cl; c_root := c_root cl; c_filename := c_filename cl; c_manifest := c_manifest cl;
     isActive := active; result := res; ext := ext cl;
     subscriptions := subscriptions cl; exports := x |}.

Definition with_ext (e : option ExtensionExport) (cl : closure) : closure :=
  {| c_id := c_id cl; c_root := c_root cl; c_filename := c_filename cl; c_manifest := c_manifest cl;
     isActive := isActive cl; result := result cl; ext := e;
     subscriptions := subscriptions cl; exports := exports cl |}.

Definition with_subscriptions (a : nat) (cl : closure) : closure :=
  {| c_id := c_id cl; c_root := c_root cl; c_filename := c_filename cl; c_manifest := c_manifest cl;
     isActive := isActive cl; result := result cl; ext := ext cl;
     subscriptions := a; exports := exports cl |}.

Definition finish (c : nat) (id : string) (o : outcome) (r : registry) : registry :=
  set_finished ((c, id, o) :: finished r) r.

Definition suspend (w : suspended) (r : registry) : registry :=
  set_waiting (waiting r ++ [w]) r.

(** ** Queries *)

Definition isDisabled (r : registry) (id : string) : bool := bool_decide (id ∈ disabled r).

Definition has (r : registry) (id : string) : bool :=
  match extensions r !! id with Some _ => true | None => false end.

Definition closure_of (r : registry) (id : string) : option closure :=
  match extensions r !! id with
  | Some it => closures r !! extension it
  | None => None
  end.

Definition isActivated (r : registry) (id : string) : bool :=
  match closure_of r id with
  | Some cl => isActive cl
  | None => false
  end.

Definition canActivate (r : registry) (id : string) : bool :=
  negb (isDisabled r id) && has r id.

(** The getter [exports] of the extension object. *)
Definition get_exports (cl : closure) : Result value :=
  if isActive cl then Ok (exports cl) else Throw (ErrInvalidAccess (c_id cl)).

(** ** activate *)

(** [extension.activate()]: what the caller gets back (the cached promise,
    a new one, or [undefined] when the module cannot be loaded) and the
    registry afterwards.  [entry] says what the entry point does if it is
    called: [Some e] when it throws [e] before returning, [None] when it
    returns (a promise or a plain value, which settles later). *)
Definition extension_activate (h : Host) (k : nat) (entry : option error) (r : registry)
  : option nat * registry :=
  match closures r !! k with
  | None => (None, r)
  | Some cl =>
      match result cl with
      | Some p => (Some p, r)                                   (* if (result) return result *)
      | None =>
          let loaded :=
            match ext cl with
            | Some e => Some e
            | None => factory h (c_id cl) (c_filename cl)
                              (negb (pkg_engines_coc (c_manifest cl)))
            end in
          match loaded with
          | None => (None, r)                                   (* logged; return *)
          | Some e =>
              let p := next r in
              let st := match entry with
                        | Some err => Rejected err
                        | None => Pending
                        end in
              let cl' := with_activation (isActive cl) (Some p) (exports cl) (with_ext (Some e) cl) in
              (Some p,
               set_next (S p)
                 (set_entry_log ((k, subscriptions cl) :: entry_log r)
                    (set_promises (<[p := {| owner := k; pstate := st |}]> (promises r))
                       (set_closure k cl' r))))
          end
      end
  end.

(** [Extensions.activate(id)] up to its [await]. *)
Definition activate (h : Host) (c : nat) (id : string) (entry : option error) (r : registry)
  : registry :=
  if isDisabled r id then finish c id (Threw (ErrDisabled id)) r
  else match extensions r !! id with
       | None => finish c id (Threw (ErrNotRegistered id)) r
       | Some it =>
           match closures r !! extension it with
           | None => r
           | Some cl =>
               if isActive cl then finish c id (Returned true) r
               else let '(p, r') := extension_activate h (extension it) entry r in
                    suspend {| caller := c; s_id := id; s_extension := extension it; awaits := p |} r'
           end
       end.

(** The callbacks of [Promise.resolve(ext.activate(context)).then(...)]:
    the promise of the entry point settles. *)
Definition settle (p : nat) (o : value + error) (r : registry) : registry :=
  match promises r !! p with
  | Some {| owner := k; pstate := Pending |} =>
      match o with
      | inl v =>
          let r := set_promises (<[p := {| owner := k; pstate := Fulfilled v |}]> (promises r)) r in
          match closures r !! k with
          | Some cl => set_closure k (with_activation true (result cl) v cl) r
          | None => r
          end
      | inr e => set_promises (<[p := {| owner := k; pstate := Rejected e |}]> (promises r)) r
      end
  | _ => r
  end.

(** [Extensions.activate] after its [await]. *)
Definition after_await (w : suspended) (r : registry) : registry :=
  match closures r !! s_extension w with
  | Some cl =>
      if isActive cl
      then finish (caller w) (s_id w) (Returned true) (set_fired (s_extension w :: fired r) r)
      else finish (caller w) (s_id w) (Returned false) r
  | None => r
  end.

(** The continuation of a suspended call, when what it awaits is settled. *)
Definition continue (w : suspended) (r : registry) : option registry :=
  match awaits w with
  | None => Some (after_await w r)
  | Some p =>
      match promises r !! p with
      | Some {| pstate := Fulfilled _ |} => Some (after_await w r)
      | Some {| pstate := Rejected e |} => Some (finish (caller w) (s_id w) (Threw e) r)
      | _ => None
      end
  end.

(** The first suspended call of caller [c] is resumed, if it can be. *)
Fixpoint resume_in (c : nat) (before ws : list suspended) (r : registry) : registry :=
  match ws with
  | [] => r
  | w :: rest =>
      if Nat.eqb (caller w) c then
        match continue w r with
        | Some r' => set_waiting (before ++ rest) r'
        | None => r
        end
      else resume_in c (before ++ [w]) rest r
  end.

Definition resume (c : nat) (r : registry) : registry := resume_in c [] (waiting r) r.

(** ** deactivate and unload *)

(** Modelled from the spec: [disposeAll] of util, whose source is not at
    hand: "releases all owned subscriptions".  The array is emptied and
    each disposable in it is disposed, the last one first. *)
Definition disposeAll (a : nat) (r : registry) : registry :=
  set_arrays (<[a := []]> (arrays r))
    (set_disposed (disposed r ++ rev (default [] (arrays r !! a))) r).

(** The [deactivate] function of an item. *)
Definition item_deactivate (k : nat) (r : registry) : registry :=
  match closures r !! k with
  | None => r
  | Some cl =>
      if negb (isActive cl) then r
      else
        let r := disposeAll (subscriptions cl) r in
        let a := next r in
        let cl' := with_subscriptions a (with_activation false None VUndefined cl) in
        let r := set_next (S a) (set_arrays (<[a := []]> (arrays r)) (set_closure k cl' r)) in
        match ext cl with
        | Some {| has_deactivate := true |} => set_teardown_log (k :: teardown_log r) r
        | _ => r
        end
  end.

(** [Extensions.deactivate(id)] *)
Definition deactivate (id : string) (r : registry) : bool * registry :=
  match extensions r !! id with
  | None => (false, r)
  | Some it => (true, item_deactivate (extension it) r)
  end.

Definition unloadExtension (id : string) (r : registry) : registry :=
  match extensions r !! id with
  | Some _ => set_extensions (delete id (extensions r)) (snd (deactivate id r))
  | None => r
  end.

(** Extension code pushes a disposable on [context.subscriptions]. *)
Definition push_subscription (a d : nat) (r : registry) : registry :=
  set_arrays (<[a := default [] (arrays r !! a) ++ [d]]> (arrays r)) r.

(** ** The activation events *)

(** What [setupActiveEvents] reads of the workspace. [checkFolder] is the
    helper of util/fs that looks for a file matching a pattern in a folder. *)
Record Workspace : Type := {
  languageIds : gset string;
  filetypes : gset string;
  document_schemes : list string;            (* the URI schemes of the open documents *)
  workspaceFolders : list string;
  checkFolder : string -> string -> bool;
}.

(** [s.split(':')] *)
Fixpoint split_colon (s : string) : list string :=
  match s with
  | EmptyString => [""]
  | String c rest =>
      if Ascii.eqb c ":"%char then "" :: split_colon rest
      else match split_colon rest with
           | part :: parts => String c part :: parts
           | [] => [String c ""]
           end
  end.

Definition is_whitespace (c : ascii) : bool :=
  let n := N_of_ascii c in
  (N.leb 9 n && N.leb n 13) || N.eqb n 32 || N.eqb n 160.

(** [s.split(re)] where [re] is one or more white-space characters. *)
Fixpoint split_whitespace (s : string) : list string :=
  match s with
  | EmptyString => [""]
  | String c rest =>
      if is_whitespace c then
        match rest with
        | String d _ => if is_whitespace d then split_whitespace rest
                        else "" :: split_whitespace rest
        | EmptyString => "" :: split_whitespace rest
        end
      else match split_whitespace rest with
           | part :: parts => String c part :: parts
           | [] => [String c ""]
           end
  end.

(** The closure [active] of [setupActiveEvents] on its first call: the
    listeners registered so far are disposed, and the extension is
    activated if it still can be. *)
Definition active (h : Host) (c : nat) (id : string) (entry : option error) (r : registry)
  : registry :=
  if canActivate r id then activate h c id entry r else r.

(** [check()] of a workspaceContains event: whether some pattern matches
    in some workspace folder. *)
Definition workspace_contains (w : Workspace) (patterns : string) : bool :=
  existsb (fun folder => existsb (checkFolder w folder) (split_whitespace patterns))
          (workspaceFolders w).

Definition some_in (o : option string) (s : gset string) : bool :=
  match o with
  | Some x => bool_decide (x ∈ s)
  | None => false
  end.

(** The loop over [activationEvents]; [registered] are the listeners this
    call has subscribed so far. *)
Fixpoint setup_events (h : Host) (w : Workspace) (c : nat) (id : string) (entry : option error)
  (events : list string) (registered : list trigger) (r : registry) : registry :=
  let subscribe (r : registry) := set_listeners (listeners r ++ map (pair id) registered) r in
  match events with
  | [] => subscribe r
  | eventName :: rest =>
      let parts := split_colon eventName in
      let ev := default "" (parts !! 0) in
      let arg := parts !! 1 in
      if String.eqb ev "onLanguage" then
        if some_in arg (languageIds w) || some_in arg (filetypes w)
        then active h c id entry r
        else setup_events h w c id entry rest (registered ++ [TLanguage arg]) r
      else if String.eqb ev "onCommand" then
        setup_events h w c id entry rest (registered ++ [TCommand arg])
          (set_commandList (commandList r ++ [arg]) r)
      else if String.eqb ev "workspaceContains" then
        match arg, workspaceFolders w with
        | None, _ :: _ =>                            (* parts[1].split throws: the call rejects *)
            set_listeners (listeners r ++ map (pair id) (registered ++ [TWorkspaceContains arg])) r
        | None, [] => setup_events h w c id entry rest (registered ++ [TWorkspaceContains arg]) r
        | Some patterns, _ =>
            if workspace_contains w patterns then active h c id entry r
            else setup_events h w c id entry rest (registered ++ [TWorkspaceContains arg]) r
        end
      else if String.eqb ev "onFileSystem" then
        if existsb (fun scheme => bool_decide (Some scheme = arg)) (document_schemes w)
        then active h c id entry r
        else setup_events h w c id entry rest (registered ++ [TFileSystem arg]) r
      else
        setup_events h w c id entry rest registered
          (set_unsupported (unsupported r ++ [eventName]) r)
  end.

(** [activationEvents.includes('*')] *)
Definition includes_star (events : list string) : bool := existsb (String.eqb "*") events.

(** [setupActiveEvents(id, packageJSON)]; [c] names the call of [activate]
    it may make. *)
Definition setupActiveEvents (h : Host) (w : Workspace) (c : nat) (id : string)
  (packageJSON : manifest) (entry : option error) (r : registry) : registry :=
  if negb (canActivate r id) then r
  else match activationEvents packageJSON with
       | None => activate h c id entry r              (* !activationEvents *)
       | Some events =>
           if includes_star events then activate h c id entry r
           else setup_events h w c id entry events [] r
       end.

(** ** createExtension and loadExtension *)

Definition createExtension (h : Host) (w : Workspace) (c : nat) (root : string)
  (packageJSON : manifest) (type : ExtensionType) (entry : option error) (r : registry)
  : registry :=
  let id := pkg_name packageJSON in
  let filename := path_join root (match pkg_main packageJSON with
                                  | Some m => if String.eqb m "" then "index.js" else m
                                  | None => "index.js"
                                  end) in
  let a := next r in
  let k := S a in
  let cl := {| c_id := id; c_root := root; c_filename := filename; c_manifest := packageJSON;
               isActive := false; result := None; ext := None;
               subscriptions := a; exports := VUndefined |} in
  let it := {| item_id := id; item_type := type;
               isLocal := match type with Local => true | _ => false end;
               extension := k; directory := root; filepath := filename |} in
  let r := set_next (S k)
             (set_extensions (<[id := it]> (extensions r))
                (set_arrays (<[a := []]> (arrays r)) (set_closure k cl r))) in
  if activated r then setupActiveEvents h w c id packageJSON entry r else r.

(** [loadExtension(folder)] once the [package.json] of the folder is read
    as [packageJSON]; [isLocal] is whether the folder lies outside the
    modules folder. *)
Definition loadExtension (h : Host) (w : Workspace) (c : nat) (folder : string)
  (packageJSON : manifest) (isLocal : bool) (entry : option error) (r : registry)
  : bool * registry :=
  if isDisabled r (pkg_name packageJSON) then (false, r)
  else (true,
        createExtension h w c folder packageJSON (if isLocal then Local else Global) entry
          (unloadExtension (pkg_name packageJSON) r)).

(** ** Runs *)

(** What can happen to a registry, one event loop turn at a time. *)
Inductive event : Type :=
| EActivate (c : nat) (id : string) (entry : option error)   (* a call of activate(id) *)
| ESettle (p : nat) (o : value + error)                      (* an entry point's promise settles *)
| EResume (c : nat)                                          (* a suspended call continues *)
| EDeactivate (id : string)                                  (* a call of deactivate(id) *)
| EUnload (id : string)                                      (* unloadExtension(id) *)
| EPush (a d : nat).                                         (* context.subscriptions.push(d) *)

Definition step (h : Host) (r : registry) (e : event) : registry :=
  match e with
  | EActivate c id entry => activate h c id entry r
  | ESettle p o => settle p o r
  | EResume c => resume c r
  | EDeactivate id => snd (deactivate id r)
  | EUnload id => unloadExtension id r
  | EPush a d => push_subscription a d r
  end.

Definition run (h : Host) (t : list event) (r : registry) : registry := fold_left (step h) t r.

(** The calls of the entry point of closure [k]. *)
Definition entry_calls (k : nat) (r : registry) : nat :=
  length (filter (fun x => fst x = k) (entry_log r)).

(** ** uninstallExtension

    The registry's root is the folder that holds the dependency manifest;
    the extensions are installed in its modules folder. *)

Definition modulesFolder (ih : Installer.Host) (root : string) : string :=
  if Installer.TEST ih then root else path_join root "node_modules".

(** [loadJson()]: [null] when there is no manifest; what the tolerant
    parser makes of it otherwise, also when it reports errors. *)
Definition loadJson (ih : Installer.Host) (root : string) (fs : gmap string node) : Result value :=
  let jsonFile := path_join root "package.json" in
  if negb (existsSync fs jsonFile) then Ok VNull
  else match readFile fs jsonFile with
       | Ok content => Ok (fst (Installer.jsonc_parse ih content))
       | Throw e => Throw e
       end.

(** The getter [globalExtensions]. *)
Definition globalExtensions (ih : Installer.Host) (root : string) (fs : gmap string node)
  : Result (list string) :=
  match loadJson ih root fs with
  | Throw e => Throw e
  | Ok json =>
      if negb (truthy json) then Ok []
      else match get json "dependencies" with
           | Ok d => if truthy d then Ok (obj_keys (Installer.own_entries d)) else Ok []
           | Throw e => Throw e
           end
  end.

(** The loop over [globals]: unload, [delete json.dependencies[id]], and
    removal of the folder.  The third component is [json.dependencies], or
    [None] once an exception left the loop. *)
Fixpoint uninstall_each (folder : string) (deletable : bool) (globals : list string)
  (r : registry) (fs : gmap string node) (deps : list (string * value))
  : registry * gmap string node * option (list (string * value)) :=
  match globals with
  | [] => (r, fs, Some deps)
  | id :: rest =>
      let r := unloadExtension id r in
      if negb deletable then (r, fs, None)
      else
        let deps := obj_delete deps id in
        let target := path_join folder id in
        let fs := if existsSync fs target then remove fs target else fs in
        uninstall_each folder deletable rest r fs deps
  end.

Definition uninstallExtension (ih : Installer.Host) (root : string) (ids : list string)
  (r : registry) (fs : gmap string node) : registry * gmap string node :=
  match ids with
  | [] => (r, fs)
  | _ :: _ =>
      match globalExtensions ih root fs, loadJson ih root fs with
      | Ok known, Ok loaded =>
          let globals := filter (fun id => id ∈ known) ids in
          let json := if truthy loaded then loaded else VObj [("dependencies", VObj [])] in
          match get json "dependencies" with
          | Throw _ => (r, fs)
          | Ok d =>
              let deletable := match d with VObj _ | VArr _ => true | _ => false end in
              match uninstall_each (modulesFolder ih root) deletable globals r fs
                                   (Installer.own_entries d) with
              | (r', fs', Some deps) =>
                  match d with
                  | VUndefined | VNull => (r', fs')           (* Object.keys throws *)
                  | _ =>
                      let sortedObj := VObj [("dependencies", VObj (Installer.sort_dependencies deps))] in
                      match writeFile fs' (path_join root "package.json")
                                      (Installer.JSON_stringify ih sortedObj) with
                      | Ok fs'' => (r', fs'')
                      | Throw _ => (r', fs')
                      end
                  end
              | (r', fs', None) => (r', fs')
              end
          end
      | _, _ => (r, fs)
      end
  end.

(** ** Phases of one record's activation

    What the variables of a closure say about the activation of its
    extension: not started, in flight, or settled. *)
Inductive phase : Type :=
| PNotStarted
| PInFlight (p : nat)
| PFulfilled (p : nat) (v : value)
| PRejected (p : nat) (e : error).

Definition phase_awaits (ph : phase) : option nat :=
  match ph with
  | PNotStarted => None
  | PInFlight p | PFulfilled p _ | PRejected p _ => Some p
  end.

(** What a call of [activate] that settles in this phase yields. *)
Definition phase_outcome (ph : phase) : option outcome :=
  match ph with
  | PNotStarted => Some (Returned false)
  | PInFlight _ => None
  | PFulfilled _ _ => Some (Returned true)
  | PRejected _ e => Some (Threw e)
  end.

Definition phase_closure (k : nat) (ph : phase) (cl : closure) (r : registry) : Prop :=
  match ph with
  | PNotStarted => result cl = None /\ isActive cl = false
  | PInFlight p =>
      result cl = Some p /\ isActive cl = false /\
      promises r !! p = Some {| owner := k; pstate := Pending |}
  | PFulfilled p v =>
      result cl = Some p /\ isActive cl = true /\
      promises r !! p = Some {| owner := k; pstate := Fulfilled v |}
  | PRejected p e =>
      result cl = Some p /\ isActive cl = false /\
      promises r !! p = Some {| owner := k; pstate := Rejected e |}
  end.

(** Whether [extension.activate()] gets hold of the module. *)
Definition loadable (h : Host) (cl : closure) : bool :=
  match ext cl with
  | Some _ => true
  | None =>
      match factory h (c_id cl) (c_filename cl) (negb (pkg_engines_coc (c_manifest cl))) with
      | Some _ => true
      | None => false
      end
  end.

(** The settled calls of [activate(id)] among [calls]. *)
Definition calls_of (id : string) (calls : list (nat * string * outcome)) : list outcome :=
  omap (fun x => if String.eqb (snd (fst x)) id then Some (snd x) else None) calls.

(** The suspended calls of [activate(id)]. *)
Definition waiting_of (id : string) (r : registry) : list suspended :=
  filter (fun w => s_id w = id) (waiting r).

Definition is_pending (st : promise_state) : bool :=
  match st with
  | Pending => true
  | _ => false
  end.

(** No promise of closure [k] is in flight. *)
Definition none_pending (r : registry) (k : nat) : Prop :=
  map_Forall (fun _ pr => owner pr = k -> is_pending (pstate pr) = false) (promises r).


(** How the phase of a record can change while nothing deactivates it. *)
Definition phase_next (ph ph' : phase) : Prop :=
  ph' = ph \/
  match ph, ph' with
  | PNotStarted, (PInFlight _ | PRejected _ _) => True
  | PInFlight p, (PFulfilled q _ | PRejected q _) => p = q
  | _, _ => False
  end.

(** The events of a run in which [activate(id)] and [deactivate(id)] are
    called any number of times and nothing is unloaded. *)
Definition retry_event (id : string) (e : event) : Prop :=
  match e with
  | EActivate _ id' _ | EDeactivate id' => id' = id
  | ESettle _ _ | EResume _ | EPush _ _ => True
  | EUnload _ => False
  end.


(** The invariant of such runs: [base] are the calls settled before the
    run, [n0] and [n1] the number of calls of the entry point before and
    after the activation starts. *)
Record inv (h : Host) (id : string) (it : item) (base : list (nat * string * outcome))
  (n0 n1 : nat) (ph : phase) (r : registry) : Prop := {
  inv_enabled : isDisabled r id = false;
  inv_item : extensions r !! id = Some it;
  inv_closure : exists cl, closures r !! extension it = Some cl /\
                           phase_closure (extension it) ph cl r /\
                           (ph = PNotStarted -> loadable h cl = true ->
                            waiting_of id r = [] /\
                            exists new, finished r = new ++ base /\ calls_of id new = []);
  inv_pending : forall p pr, promises r !! p = Some pr -> owner pr = extension it ->
                             pstate pr = Pending -> ph = PInFlight p;
  inv_waiting : Forall (fun w => s_id w = id ->
                                 s_extension w = extension it /\ awaits w = phase_awaits ph)
                       (waiting r);
  inv_finished : exists new, finished r = new ++ base /\
                             Forall (fun o => Some o = phase_outcome ph) (calls_of id new);
  inv_entries : match ph with
                | PNotStarted => entry_calls (extension it) r = n0 /\ n1 = S n0
                | _ => entry_calls (extension it) r = n1
                end;
}.

End Extensions.

(* ===================================================================== *)
(** * Hosts and states to run the model on                                *)
(* ===================================================================== *)

Module InstallerDemo.
Import Installer.

(** ** A small host to run the installer on

    The texts the demo host knows stand for the JSON documents it parses
    them to. *)

Definition registry_document (id ver : string) (engines : list (string * value)) : value :=
  VObj [("name", VStr id);
        ("dist-tags", VObj [("latest", VStr ver)]);
        ("versions",
         VObj [(ver, VObj [("name", VStr id); ("version", VStr ver);
                           ("engines", VObj engines);
                           ("dist", VObj [("tarball",
                                           VStr ("https://example/" +:+ id +:+ "-" +:+ ver
                                                 +:+ ".tgz"))])])])].

Definition demo_parse (text : string) : option value :=
  if String.eqb text "registry:demo-ext" then
    Some (registry_document "demo-ext" "1.2.0" [("coc", VStr "^0.0.1")])
  else if String.eqb text "registry:9" then
    Some (registry_document "9" "2.0.0" [("coc", VStr "^0.0.1")])
  else if String.eqb text "registry:vscode-only" then
    Some (registry_document "vscode-only" "3.0.0" [("vscode", VStr "^1.0.0")])
  else if String.eqb text "package:demo-ext@1.2.0" then
    Some (VObj [("name", VStr "demo-ext"); ("version", VStr "1.2.0")])
  else if String.eqb text "package:9@2.0.0" then
    Some (VObj [("name", VStr "9"); ("version", VStr "2.0.0")])
  else None.

Definition demo_stringify (v : value) : string :=
  match v with
  | VObj [("dependencies", VObj deps)] =>
      "dependencies: " +:+
      String.concat ", " (map (fun kv => fst kv +:+ " " +:+ to_string (snd kv)) deps)
  | _ => "?"
  end.

Definition demo_jsonc (text : string) : value * bool :=
  if String.eqb text "{}" then (VObj [], false)
  else if String.eqb text "dependencies: 10 >=1.0.0" then
    (VObj [("dependencies", VObj [("10", VStr ">=1.0.0")])], false)
  else if String.eqb text "dependencies: 9 >=2.0.0, 10 >=1.0.0, coc-json >=1.8.0" then
    (VObj [("dependencies", VObj [("9", VStr ">=2.0.0"); ("10", VStr ">=1.0.0");
                                  ("coc-json", VStr ">=1.8.0")])], false)
  else (VUndefined, true).

Definition demo_host : Host :=
  {| HOME_DIR := "/home/u";
     TEST := false;
     os_tmpdir := "/tmp";
     mkdtemp_suffix := fun _ => "abcdef";
     workspace_version := "0.0.80";
     JSON_parse := demo_parse;
     JSON_stringify := demo_stringify;
     jsonc_parse := demo_jsonc;
     fetch_buffer := fun target =>
       if String.eqb target "https://registry.npmjs.org/demo-ext" then Some "registry:demo-ext"
       else if String.eqb target "https://registry.npmjs.org/9" then Some "registry:9"
       else if String.eqb target "https://registry.npmjs.org/vscode-only"
            then Some "registry:vscode-only"
       else None;
     fetch := fun target =>
       if String.eqb target
            "https://raw.githubusercontent.com/sdras/vue-vscode-snippets/main/package.json"
       then Some (inr (VObj [("name", VStr "vue-vscode-snippets"); ("version", VStr "3.1.0");
                             ("engines", VObj [("vscode", VStr "^1.0.0")])]))
       else None;
     semver_gte := fun a b => Some (String.leb b a);
     semver_satisfies := fun _ _ => true;
     download := fun target =>
       if String.eqb target "https://example/demo-ext-1.2.0.tgz"
       then Some (["100.0"], [("package.json", "package:demo-ext@1.2.0")])
       else if String.eqb target "https://example/9-2.0.0.tgz"
       then Some (["100.0"], [("package.json", "package:9@2.0.0")])
       else if String.eqb target
                 "https://github.com/sdras/vue-vscode-snippets/archive/main.tar.gz"
       then Some ([], [("package.json", "package:vue-vscode-snippets@3.1.0")])
       else None;
     run_npm := fun _ _ _ => NpmExit 0 [] "" [] |}.

Definition demo_installer (id : string) (source : value) : installer :=
  {| root := "/data/extensions/node_modules"; npm := "/usr/bin/npm"; def := id;
     name := VStr id; url := source; version := VUndefined |}.

Definition demo_state (files : gmap string node) (i : installer) : state :=
  {| fs := files; self := i; messages := []; spawned := []; temps := 0 |}.

Definition LF : string := String Js.LF "".
Definition CR : string := String Js.CR "".

(** An [.npmrc] that sets the global registry, with a second line that
    holds a CR no LF follows. *)
Definition npmrc_with_stray_cr : gmap string node :=
  {[ "/home/u/.npmrc" := File ("registry=https://r.example/" +:+ LF +:+ "color=always" +:+ CR
                               +:+ "progress=false") ]}.

Definition npmrc_scoped : gmap string node :=
  {[ "/home/u/.npmrc" := File ("registry=https://r.example" +:+ CR +:+ LF
                               +:+ "coc.nvim:registry=https://coc.example/npm" +:+ LF) ]}.

(** "demo-ext" 1.2.0 installed in the modules folder. *)
Definition installed_demo_ext : gmap string node :=
  {[ "/data/extensions/package.json" := File "{}";
     "/data/extensions/node_modules/demo-ext" := Dir;
     "/data/extensions/node_modules/demo-ext/package.json" := File "package:demo-ext@1.2.0" ]}.


(** "demo-ext" linked to a checkout that is there. *)
Definition linked_demo_ext : gmap string node :=
  {[ "/data/extensions/package.json" := File "{}";
     "/data/extensions/node_modules/demo-ext" := Symlink "/home/u/dev/demo-ext";
     "/home/u/dev/demo-ext" := Dir;
     "/home/u/dev/demo-ext/package.json" := File "package:demo-ext@1.2.0" ]}.

Definition info_9 : Info :=
  {| dist_tarball := VStr "https://example/9-2.0.0.tgz"; engines_coc := VStr "^0.0.1";
     info_version := VStr "2.0.0"; info_name := VStr "9" |}.

Definition info_demo_ext : Info :=
  {| dist_tarball := VStr "https://example/demo-ext-1.2.0.tgz"; engines_coc := VStr "^0.0.1";
     info_version := VStr "1.2.0"; info_name := VStr "demo-ext" |}.

(** A manifest that lists the extensions "9", "10" and "coc-json", all
    installed. *)
Definition three_installed : gmap string node :=
  {[ "/data/extensions/package.json" :=
       File "dependencies: 9 >=2.0.0, 10 >=1.0.0, coc-json >=1.8.0";
     "/data/extensions/node_modules/9" := Dir;
     "/data/extensions/node_modules/10" := Dir;
     "/data/extensions/node_modules/coc-json" := Dir ]}.

(** A manifest that lists the extension "10". *)
Definition manifest_with_10 : gmap string node :=
  {[ "/data/extensions/package.json" := File "dependencies: 10 >=1.0.0" ]}.
End InstallerDemo.

Module ExtensionsDemo.
Import Extensions.

(** ** A small registry to run the model on *)

Definition demo_host : Host := {| factory := fun _ _ _ => Some {| has_deactivate := true |} |}.

Definition demo_workspace : Workspace :=
  {| languageIds := ∅; filetypes := ∅; document_schemes := []; workspaceFolders := [];
     checkFolder := fun _ _ => false |}.

Definition empty_registry : registry :=
  {| extensions := ∅; disabled := ∅; activated := false; closures := ∅; promises := ∅;
     arrays := ∅; disposed := []; waiting := []; finished := []; entry_log := [];
     teardown_log := []; fired := []; listeners := []; commandList := []; unsupported := [];
     next := 0 |}.

Definition demo_manifest (events : option (list string)) : manifest :=
  {| pkg_name := "coc-demo"; pkg_main := None; pkg_engines_coc := true;
     activationEvents := events |}.

(** The registry after [createExtension] of "coc-demo": its arrays are at
    reference 0, its closure at reference 1, the next promise at 2. *)
Definition demo_registry : registry :=
  createExtension demo_host demo_workspace 0 "/ext/coc-demo" (demo_manifest None) Global None
    empty_registry.

Definition demo_item : item :=
  {| item_id := "coc-demo"; item_type := Global; isLocal := false; extension := 1;
     directory := "/ext/coc-demo"; filepath := "/ext/coc-demo/index.js" |}.

(** The same registry with "coc-demo" disabled, as [init] builds it for an
    id whose disabled flag is stored. *)
Definition demo_disabled : registry := set_disabled {["coc-demo"]} demo_registry.

(** The same registry once [activateExtensions] has run. *)
Definition demo_activated : registry := set_activated true demo_registry.

(** "coc-demo" after a first activation that was rejected. *)
Definition demo_rejected : registry :=
  run demo_host [EActivate 1 "coc-demo" None; ESettle 2 (inr (ErrExtension 9)); EResume 1]
      demo_registry.

(** "coc-demo" active, with one disposable in its subscriptions. *)
Definition demo_active : registry :=
  run demo_host [EActivate 1 "coc-demo" None; EPush 0 77; ESettle 2 (inl (VNum 5)); EResume 1]
      demo_registry.
End ExtensionsDemo.

(* ===================================================================== *)
(** * The installer object, the data home and the management commands    *)
(* ===================================================================== *)

Module InstallerObject.
Import Installer.

(** ** The constructor *)

(** [fs.mkdirpSync(p)]: nothing to do when [p] is a directory, also
    through links; what else is at [p] is in the way.  The tree does not
    track the parents a path needs. *)
Definition mkdirpSync (fs : gmap string node) (p : string) : Result (gmap string node) :=
  match fs !! p with
  | None => Ok (<[p := Dir]> fs)
  | Some _ =>
      match stat fs p with
      | Some Dir => Ok fs
      | _ => Throw (ErrIO p)
      end
  end.

(** [re.test(def)] where [re] is "http", an optional "s" and a colon at
    the start of the input. *)
Definition is_http (def : string) : bool :=
  Js.startsWith def "http:" || Js.startsWith def "https:".

(** What the second group of the pattern for "name at version" matches: one
    or more characters other than a slash, up to the end of the input. *)
Definition version_part (s : string) : bool :=
  negb (String.eqb s "") && negb (Js.contains_char "/"%char s).

(** The match of that pattern from the head of [s]: the first group is
    greedy, one or more characters that are no line terminators; the longest
    run is tried first and shortened until an at sign and a version part
    follow. *)
Fixpoint match_from (s : string) : option (string * string) :=
  match s with
  | EmptyString => None
  | String c rest =>
      if Js.is_line_terminator c then None
      else match match_from rest with
           | Some (nm, ver) => Some (String c nm, ver)
           | None =>
               match rest with
               | String d ver =>
                   if Ascii.eqb d "@"%char && version_part ver
                   then Some (String c EmptyString, ver) else None
               | EmptyString => None
               end
           end
  end.

(** [def.match(re)]: the pattern is not anchored at the start, so the match
    is the one from the leftmost position that has one. *)
Fixpoint match_name_version (s : string) : option (string * string) :=
  match s with
  | EmptyString => None
  | String _ rest =>
      match match_from s with
      | Some m => Some m
      | None => match_name_version rest
      end
  end.

(** [new Installer(root, npm, def)] *)
Definition new_installer (root npm def : string) (fs : gmap string node)
  : Result (installer * gmap string node) :=
  match (if existsSync fs root then Ok fs else mkdirpSync fs root) with
  | Throw e => Throw e
  | Ok fs' =>
      let i :=
        if is_http def then
          {| root := root; npm := npm; def := def;
             name := VUndefined; url := VStr def; version := VUndefined |}
        else match match_name_version def with
             | Some (nm, ver) =>
                 {| root := root; npm := npm; def := def;
                    name := VStr nm; url := VUndefined; version := VStr ver |}
             | None =>
                 {| root := root; npm := npm; def := def;
                    name := VStr def; url := VUndefined; version := VUndefined |}
             end in
      Ok (i, fs')
  end.

(** The getter [info]. *)
Definition info_of (i : installer) : value * value := (name i, version i).

(** The folder [doInstall] downloads to: the [n]-th temporary folder, named
    after the package. *)
Definition temp_folder (h : Host) (nm : string) (n : nat) : string :=
  path_join (os_tmpdir h) (replace_first "/" "-" nm +:+ "-") +:+ mkdtemp_suffix h n.

(** [c] leaves the installer object as it is. *)
Definition keeps_self {A : Type} (c : M A) : Prop :=
  forall s, self (snd (c s)) = self s.

(** What [doInstall] writes in the manifest for the package it installs:
    the URL of the installer when it has one, else the version as a lower
    bound. *)
Definition pin_of (i : installer) (info : Info) : value :=
  if truthy (url i) then url i else VStr (">=" +:+ to_string (info_version info)).

End InstallerObject.

Module InstallerObjectDemo.
Import Installer InstallerDemo.

(** The demo host with a semver that finds the host too old for every
    range. *)
Definition old_host : Host :=
  {| HOME_DIR := HOME_DIR demo_host; TEST := TEST demo_host; os_tmpdir := os_tmpdir demo_host;
     mkdtemp_suffix := mkdtemp_suffix demo_host; workspace_version := "0.0.1";
     JSON_parse := JSON_parse demo_host; JSON_stringify := JSON_stringify demo_host;
     jsonc_parse := jsonc_parse demo_host; fetch_buffer := fetch_buffer demo_host;
     fetch := fetch demo_host; semver_gte := semver_gte demo_host;
     semver_satisfies := fun _ _ => false;
     download := download demo_host; run_npm := run_npm demo_host |}.

End InstallerObjectDemo.

Module Management.
Import Extensions.

(** ** The data home *)

Definition QUOTE : string := String "034"%char "".

(** The manifest [checkRoot] writes when there is none: an object with an
    empty [dependencies]. *)
Definition EMPTY_MANIFEST : string :=
  "{" +:+ QUOTE +:+ "dependencies" +:+ QUOTE +:+ ":{}}".

(** The last step of [checkRoot]: the manifest is written when none
    exists. *)
Definition ensure_manifest (root : string) (fs : gmap string node) : bool * gmap string node :=
  let jsonFile := path_join root "package.json" in
  if existsSync fs jsonFile then (true, fs)
  else match writeFile fs jsonFile EMPTY_MANIFEST with
       | Ok fs' => (true, fs')
       | Throw _ => (false, fs)
       end.

(** [checkRoot(root)]: whether the data home is usable, and the tree as the
    call leaves it; an exception on the way ends the call with [false]. *)
Definition checkRoot (root : string) (fs : gmap string node) : bool * gmap string node :=
  match (if existsSync fs root then Ok fs else InstallerObject.mkdirpSync fs root) with
  | Throw _ => (false, fs)
  | Ok fs1 =>
      match stat fs1 root with
      | None => (false, fs1)
      | Some (File _) =>
          match unlinkSync fs1 root with
          | Throw _ => (false, fs1)
          | Ok fs2 =>
              match InstallerObject.mkdirpSync fs2 root with
              | Throw _ => (false, fs2)
              | Ok fs3 => ensure_manifest root fs3
              end
          end
      | Some Dir => ensure_manifest root fs1
      | Some (Symlink _) => (false, fs1)
      end
  end.

(** ** The state of an extension *)

(** What decides whether an id can be activated and how records are
    created: the disabled set, the records by id, and the [activated]
    flag. *)
Definition membership (r : registry) : gset string * gmap string item * bool :=
  (disabled r, extensions r, activated r).



Inductive ExtensionState : Type := SDisabled | SLoaded | SActivated | SUnknown.

Definition getExtensionState (r : registry) (id : string) : ExtensionState :=
  if isDisabled r id then SDisabled
  else match extensions r !! id with
       | None => SUnknown
       | Some _ => if isActivated r id then SActivated else SLoaded
       end.

(** [toggleExtension(id)]: the key and the flag pushed to the database, and
    the registry afterwards.  [pkg] is what [loadExtension] reads at the
    folder of the id in the modules folder, [None] when reading or parsing
    fails there. *)
Definition toggleExtension (h : Host) (ih : Installer.Host) (w : Workspace) (c : nat)
  (root : string) (fs : gmap string node) (pkg : option manifest) (entry : option error)
  (id : string) (r : registry) : (string * bool) * registry :=
  let state := getExtensionState r id in
  let r := match state with
           | SActivated => snd (deactivate id r)
           | _ => r
           end in
  let key := "extension." +:+ id +:+ ".disabled" in
  match state with
  | SDisabled =>
      let r := set_disabled (disabled r ∖ {[id]}) r in
      let folder := path_join (modulesFolder ih root) id in
      let r :=
        if existsSync fs folder then
          match pkg with
          | Some packageJSON =>
              let isLocal := negb (String.eqb (Installer.dirname folder) (modulesFolder ih root)) in
              snd (loadExtension h w c folder packageJSON isLocal entry r)
          | None => r
          end
        else r in
      ((key, false), r)
  | _ => ((key, true), unloadExtension id (set_disabled (disabled r ∪ {[id]}) r))
  end.

(** ** cleanExtensions *)

(** The loop over the global extensions; [fs.lstat] rejects when there is
    nothing at the path. *)
Fixpoint clean_each (dir : string) (ids : list string) (r : registry)
  (fs : gmap string node) (res : list string)
  : Result (list string) * registry * gmap string node :=
  match ids with
  | [] => (Ok res, r, fs)
  | id :: rest =>
      let directory := path_join dir id in
      match lstat fs directory with
      | None => (Throw (ErrIO directory), r, fs)
      | Some (Symlink _) => clean_each dir rest r fs res
      | Some _ => clean_each dir rest (unloadExtension id r) (remove fs directory) (res ++ [id])
      end
  end.

Definition cleanExtensions (ih : Installer.Host) (root : string) (r : registry)
  (fs : gmap string node) : Result (list string) * registry * gmap string node :=
  let dir := modulesFolder ih root in
  if negb (existsSync fs dir) then (Ok [], r, fs)
  else match globalExtensions ih root fs with
       | Throw e => (Throw e, r, fs)
       | Ok ids => clean_each dir ids r fs []
       end.

(** ** The extensions the user asks for *)

(** What the pattern of [getExtensionName] matches at its end: a digit or
    a dot. *)
Definition is_digit_or_dot (c : ascii) : bool :=
  match digit_of c with
  | Some _ => true
  | None => Ascii.eqb c "."%char
  end.

Fixpoint all_digits_or_dots (s : string) : bool :=
  match s with
  | EmptyString => true
  | String c rest => is_digit_or_dot c && all_digits_or_dots rest
  end.

(** [def.replace(re, '')] where [re] is an at sign and one or more digits
    or dots at the end of the input. *)
Fixpoint strip_version (s : string) : string :=
  match s with
  | EmptyString => EmptyString
  | String c rest =>
      if Ascii.eqb c "@"%char && negb (String.eqb rest "") && all_digits_or_dots rest
      then EmptyString
      else String c (strip_version rest)
  end.

Definition getExtensionName (def : string) : string :=
  if InstallerObject.is_http def then def
  else if negb (Js.contains_char "@"%char def) then def
  else strip_version def.

(** [map.set(k, v)] on a [Map]: a key that is there keeps its place. *)
Fixpoint map_set (m : list (string * string)) (k v : string) : list (string * string) :=
  match m with
  | [] => [(k, v)]
  | (k', v') :: rest =>
      if String.eqb k k' then (k', v) :: rest else (k', v') :: map_set rest k v
  end.

(** The first loop of [filterGlobalExtensions]: the definitions by name. *)
Definition names_map (names : list string) : list (string * string) :=
  fold_left (fun m def =>
               let name := getExtensionName def in
               if String.eqb name "" then m else map_set m name def)
            names [].

(** The second loop: the dependencies whose folder holds a [package.json],
    and the URLs among their values. *)
Definition installed (ih : Installer.Host) (root : string) (fs : gmap string node)
  (deps : list (string * value)) : list string * list string :=
  fold_left (fun acc kv =>
               match snd kv with
               | VStr val =>
                   if existsSync fs (path_join (path_join (modulesFolder ih root) (fst kv))
                                               "package.json")
                   then (fst acc ++ [fst kv],
                         if InstallerObject.is_http val then snd acc ++ [val] else snd acc)
                   else acc
               | _ => acc
               end)
            deps ([], []).

(** Whether the third loop deletes [name] from the map. *)
Definition dropped (r : registry) (exists_ urls : list string) (name : string) : bool :=
  (isDisabled r name || has r name) ||
  ((InstallerObject.is_http name && existsb (fun u => Js.startsWith u name) urls) ||
   existsb (String.eqb name) exists_).

Definition filterGlobalExtensions (ih : Installer.Host) (root : string)
  (fs : gmap string node) (r : registry) (names : list string) : Result (list string) :=
  let defs := names_map names in
  match loadJson ih root fs with
  | Throw e => Throw e
  | Ok json =>
      let deps :=
        if truthy json then
          match get json "dependencies" with
          | Ok d => if truthy d then Installer.own_entries d else []
          | Throw _ => []
          end
        else [] in
      let '(exists_, urls) := installed ih root fs deps in
      Ok (map snd (filter (fun kv => dropped r exists_ urls (fst kv) = false) defs))
  end.

End Management.

Module ManagementDemo.
Import Extensions ExtensionsDemo.

(** A data home with the extensions "9", "10" and "coc-json" installed. *)
Definition home_with_three : gmap string node :=
  <["/data/extensions" := Dir]>
    (<["/data/extensions/node_modules" := Dir]>
       (<["/data/extensions/node_modules/coc-json/package.json" := File "package:coc-json@1.8.0"]>
          InstallerDemo.three_installed)).

(** What a user asks to have installed. *)
Definition asked_for : list string :=
  ["coc-css@1.0.0"; "coc-json"; "coc-demo"; "coc-css@2.1.0"; "coc-yaml@latest"].


End ManagementDemo.

Module WorkspaceFolders.

(** The loop of [addRootPattern]: each pattern that is not there yet is
    pushed. *)
Definition add_missing (patterns rootPatterns : list string) : list string :=
  fold_left (fun ps p => if bool_decide (p ∈ ps) then ps else ps ++ [p]) rootPatterns patterns.

(** [addRootPattern(filetype, rootPatterns)] on the Map of the patterns by
    filetype. *)
Definition addRootPattern (filetype : string) (rootPatterns : list string)
  (m : gmap string (list string)) : gmap string (list string) :=
  <[filetype := add_missing (default [] (m !! filetype)) rootPatterns]> m.

End WorkspaceFolders.

(* ===================================================================== *)
(** * Properties of the installer                                         *)
(* ===================================================================== *)

Module InstallerProps.
Import Installer InstallerDemo.

(** ** Strings *)

Lemma endsWith_app_slash s : Js.endsWith (s +:+ "/") "/" = true.
Proof.
  induction s as [|c s IH]; [reflexivity|].
  simpl. rewrite IH. apply orb_true_r.
Qed.

Lemma with_trailing_slash_ends res : Js.endsWith (with_trailing_slash res) "/" = true.
Proof.
  unfold with_trailing_slash. destruct (Js.endsWith res "/") eqn:H; [done|].
  apply endsWith_app_slash.
Qed.

Lemma contains_char_app c s t :
  Js.contains_char c (s +:+ t) = Js.contains_char c s || Js.contains_char c t.
Proof.
  induction s as [|d s IH]; [reflexivity|]. simpl. rewrite IH. apply orb_assoc.
Qed.

Lemma has_line_terminator_false_tail c s :
  Js.has_line_terminator (String c s) = false ->
  Js.is_line_terminator c = false /\ Js.has_line_terminator s = false.
Proof. simpl. intros H. by apply orb_false_elim in H. Qed.

Lemma match_key_val_split line :
  Js.has_line_terminator line = false ->
  Js.match_key_val line = split_at_char "="%char line.
Proof.
  induction line as [|c rest IH]; [reflexivity|].
  intros H. apply has_line_terminator_false_tail in H as [Hc Hrest].
  cbn [Js.match_key_val split_at_char]. rewrite Hrest, Hc, (Ascii.eqb_sym "="%char c).
  destruct (Ascii.eqb c "="); cbn [andb negb]; [reflexivity|].
  rewrite IH by done. by destruct (split_at_char "=" rest) as [[??]|].
Qed.

Lemma split_at_char_contains c line :
  Js.contains_char c line = match split_at_char c line with Some _ => true | None => false end.
Proof.
  induction line as [|d rest IH]; [reflexivity|]. cbn [Js.contains_char split_at_char].
  destruct (Ascii.eqb c d); cbn [orb]; [reflexivity|].
  rewrite IH. by destruct (split_at_char c rest) as [[??]|].
Qed.

Lemma line_sets_split key : forall line,
  Js.contains_char "="%char key = false ->
  npmrc_line_sets key line =
  match split_at_char "="%char line with
  | Some (k, v) => if String.eqb k key then Some v else None
  | None => None
  end.
Proof.
  unfold npmrc_line_sets.
  induction key as [|a key IH]; intros line Hkey.
  - change ("" +:+ "=") with "=".
    destruct line as [|c rest]; [reflexivity|].
    cbn -[Ascii.eqb String.eqb].
    destruct (Ascii.eqb "=" c); [reflexivity|].
    by destruct (split_at_char "=" rest) as [[??]|].
  - cbn [Js.contains_char] in Hkey. apply orb_false_elim in Hkey as [Ha Hkey].
    change (String a key +:+ "=") with (String a (key +:+ "=")).
    destruct line as [|c rest]; [reflexivity|].
    cbn -[Ascii.eqb String.eqb].
    destruct (Ascii.eqb_spec a c) as [->|Hne].
    + rewrite Ha. rewrite IH by done.
      destruct (split_at_char "=" rest) as [[k v]|]; [|reflexivity].
      cbn [String.eqb]. by rewrite Ascii.eqb_refl.
    + destruct (Ascii.eqb "=" c) eqn:Hc; [reflexivity|].
      destruct (split_at_char "=" rest) as [[k v]|]; [|reflexivity].
      cbn [String.eqb]. destruct (Ascii.eqb_spec c a); [congruence|reflexivity].
Qed.

(** ** Objects *)

Section ObjGet.
Context {A : Type}.
Implicit Types (o : list (string * A)) (k : string) (v : A).

Lemma obj_get_replace o k v k' :
  obj_has o k = true ->
  obj_get (obj_replace o k v) k' = if String.eqb k k' then Some v else obj_get o k'.
Proof.
  unfold obj_has. induction o as [|[k0 v0] o IH]; simpl; [done|].
  intros H. destruct (String.eqb_spec k k0) as [->|Hne]; simpl.
  - rewrite (String.eqb_sym k0 k'). by destruct (String.eqb k' k0).
  - destruct (String.eqb_spec k' k0) as [->|Hne'].
    + by destruct (String.eqb_spec k k0).
    + by apply IH.
Qed.

Lemma obj_get_insert_index o n k v k' :
  obj_get o k = None ->
  obj_get (obj_insert_index o n k v) k' =
  if String.eqb k' k then Some v else obj_get o k'.
Proof.
  induction o as [|[k0 v0] o IH]; simpl; [reflexivity|].
  destruct (String.eqb_spec k k0) as [->|Hne]; [discriminate|]. intros Hnone.
  destruct (array_index k0) as [n'|]; [|reflexivity].
  destruct (N.ltb n n'); [reflexivity|]. simpl. rewrite IH by done.
  destruct (String.eqb_spec k' k0) as [->|]; [|reflexivity].
  by destruct (String.eqb_spec k0 k).
Qed.

Lemma obj_get_snoc o k v k' :
  obj_get o k = None ->
  obj_get (o ++ [(k, v)]) k' = if String.eqb k' k then Some v else obj_get o k'.
Proof.
  induction o as [|[k0 v0] o IH]; simpl; [reflexivity|].
  destruct (String.eqb_spec k k0) as [->|Hne]; [discriminate|]. intros Hnone.
  rewrite IH by done.
  destruct (String.eqb_spec k' k0) as [->|]; [|reflexivity].
  by destruct (String.eqb_spec k0 k).
Qed.

(** Reading a property after an assignment, for any key but ["__proto__"]. *)
Lemma obj_get_set o k v k' :
  k' <> "__proto__" ->
  obj_get (obj_set o k v) k' = if String.eqb k' k then Some v else obj_get o k'.
Proof.
  intros Hproto. unfold obj_set.
  destruct (String.eqb_spec k "__proto__") as [->|Hk].
  - by destruct (String.eqb_spec k' "__proto__").
  - unfold obj_has. destruct (obj_get o k) eqn:Hget.
    + rewrite obj_get_replace by (unfold obj_has; by rewrite Hget).
      by rewrite String.eqb_sym.
    + destruct (array_index k); [by apply obj_get_insert_index | by apply obj_get_snoc].
Qed.
End ObjGet.

(** ** The loop over the lines of .npmrc *)

Lemma npmrc_line_parseable obj line :
  negb (Js.contains_char "="%char line && Js.has_line_terminator line) = true ->
  exists obj', npmrc_line obj line = Some obj' /\
    forall key, Js.contains_char "="%char key = false -> key <> "__proto__" ->
      obj_get obj' key = match npmrc_line_sets key line with
                         | Some v => Some v
                         | None => obj_get obj key
                         end.
Proof.
  intros Hok. unfold npmrc_line.
  destruct (Js.contains_char "=" line) eqn:Hc.
  - simpl in Hok. apply negb_true_iff in Hok.
    rewrite match_key_val_split by done.
    rewrite split_at_char_contains in Hc.
    destruct (split_at_char "=" line) as [[k v]|] eqn:Hs; [|discriminate].
    eexists. split; [reflexivity|]. intros key Hkey Hproto.
    rewrite obj_get_set by done. rewrite line_sets_split by done. rewrite Hs.
    rewrite (String.eqb_sym key k). by destruct (String.eqb k key).
  - exists obj. split; [reflexivity|]. intros key Hkey _.
    rewrite line_sets_split by done. rewrite split_at_char_contains in Hc.
    by destruct (split_at_char "=" line) as [[??]|].
Qed.

Lemma npmrc_lines_parseable lines : forall obj,
  forallb (fun line => negb (Js.contains_char "="%char line && Js.has_line_terminator line))
          lines = true ->
  exists obj', npmrc_lines obj lines = Some obj' /\
    forall key, Js.contains_char "="%char key = false -> key <> "__proto__" ->
      obj_get obj' key = match npmrc_setting key lines with
                         | Some v => Some v
                         | None => obj_get obj key
                         end.
Proof.
  induction lines as [|line lines IH]; intros obj Hall; simpl.
  - exists obj. done.
  - simpl in Hall. apply andb_true_iff in Hall as [Hline Hall].
    destruct (npmrc_line_parseable obj line Hline) as (obj1 & -> & H1).
    destruct (IH obj1 Hall) as (obj' & -> & H').
    exists obj'. split; [reflexivity|]. intros key Hkey Hproto.
    rewrite H' by done. destruct (npmrc_setting key lines); [reflexivity|].
    by apply H1.
Qed.

Lemma npmrc_lines_unparseable lines : forall obj,
  forallb (fun line => negb (Js.contains_char "="%char line && Js.has_line_terminator line))
          lines = false ->
  npmrc_lines obj lines = None.
Proof.
  induction lines as [|line lines IH]; intros obj Hall; simpl in *; [discriminate|].
  apply andb_false_iff in Hall as [Hline | Hall].
  - apply negb_false_iff, andb_true_iff in Hline as [Hc Hlt].
    unfold npmrc_line. rewrite Hc.
    assert (Js.match_key_val line = None) as ->; [|reflexivity].
    clear -Hlt. induction line as [|c rest IH]; [reflexivity|].
    cbn [Js.match_key_val]. cbn [Js.has_line_terminator] in Hlt.
    destruct (Js.has_line_terminator rest) eqn:Hrest.
    + rewrite andb_false_r. destruct (Js.is_line_terminator c); [reflexivity|].
      by rewrite IH.
    + rewrite orb_false_r in Hlt. rewrite Hlt.
      destruct (Ascii.eqb_spec c "="%char) as [->|]; [discriminate|reflexivity].
  - destruct (npmrc_line obj line); [by apply IH | reflexivity].
Qed.

Lemma scoped_key_not_proto scope : scope +:+ ":registry" <> "__proto__".
Proof.
  intros H. assert (Js.contains_char ":"%char (scope +:+ ":registry") = true) as Hc.
  { rewrite contains_char_app. apply orb_true_iff. by right. }
  by rewrite H in Hc.
Qed.

(** What [registryUrl] returns, for every content.  It always returns a
    string that ends with a slash.  When [.npmrc] is missing or cannot be read it is the
    default.  When the file is read and each of its lines with an equals
    sign is free of line terminators, it is the scoped override if present,
    otherwise the global override if present, otherwise the default, with a
    slash appended when it lacks one; an override is present when the last
    line that sets its key gives it a non-empty value.  When some line with
    an equals sign holds a line terminator (a CR that no LF follows), the
    match fails, the exception is caught and the default is returned,
    whatever the other lines set. *)
Theorem registryUrl_spec (h : Host) (fs : gmap string node) (scope : string) :
  Js.contains_char "="%char scope = false ->
  Js.endsWith (registryUrl h fs scope) "/" = true /\
  match npmrc_content h fs with
  | None => registryUrl h fs scope = DEFAULT_REGISTRY
  | Some text =>
      if parseable text
      then registryUrl h fs scope = claimed_registryUrl scope (Some text)
      else registryUrl h fs scope = DEFAULT_REGISTRY
  end.
Proof.
  intros Hscope. split; [apply with_trailing_slash_ends|].
  unfold npmrc_content, registryUrl, existsSync, readFile.
  destruct (stat fs (path_join (HOME_DIR h) ".npmrc")) as [[text| |t]|] eqn:Hstat; try reflexivity.
  destruct (parseable text) eqn:Hp; unfold parseable in Hp.
  - destruct (npmrc_lines_parseable _ [] Hp) as (obj & -> & Hobj).
    unfold claimed_registryUrl, npmrc_override, truthy_entry.
    assert (Js.contains_char "="%char (scope +:+ ":registry") = false) as Hk.
    { rewrite contains_char_app, Hscope. reflexivity. }
    rewrite (Hobj _ Hk (scoped_key_not_proto scope)). simpl.
    rewrite (Hobj "registry") by done. simpl.
    destruct (npmrc_setting (scope +:+ ":registry") (Js.split_lines text)) as [v|];
      [destruct (String.eqb v ""); [|reflexivity]|];
      (destruct (npmrc_setting "registry" (Js.split_lines text)) as [v'|];
        [destruct (String.eqb v' "")|]; reflexivity).
  - by rewrite (npmrc_lines_unparseable _ [] Hp).
Qed.

Lemma get_truthy m k : truthy m = true -> exists v, get m k = Ok v.
Proof.
  destruct m; simpl; try discriminate; intros _; eauto;
    (destruct (array_index k); [eauto|]; destruct (String.eqb k "length"); eauto).
Qed.

(** C6, as the code has it.  On a registry lookup (the installer has no
    URL), when the manifest the lookup resolves declares no [engines.coc],
    [getInfo] throws the error that says the package is not a coc
    extension. *)
Theorem getInfo_registry_requires_engine (h : Host) (s : state) (m : value) :
  truthy (url (self s)) = false ->
  registry_manifest h s = Some m ->
  declares_engine m = false ->
  fst (getInfo h s) = Throw (ErrNotCocExtension (def (self s))).
Proof.
  intros Hurl Hm Hdecl.
  unfold registry_manifest in Hm. unfold getInfo, bind, gets, lift, log, modify, parse_json.
  rewrite Hurl. simpl.
  destruct (fetch_buffer h _) as [text|]; [|discriminate]. simpl in *.
  destruct (JSON_parse h text) as [res|]; [|discriminate]. simpl in *.
  unfold declares_engine in Hdecl.
  destruct (truthy (version (self s))) eqn:Hver; simpl in *.
  - destruct (get res "versions") as [versions|]; [|discriminate]. simpl in *.
    destruct (get_computed versions (version (self s))) as [obj|]; [|discriminate]. simpl in *.
    destruct (truthy obj) eqn:Hobj; [|discriminate]. injection Hm as ->. simpl.
    destruct (get_truthy m "engines" Hobj) as [e He']. rewrite He' in *. simpl.
    destruct (truthy e) eqn:He; simpl in *.
    + destruct (get_truthy e "coc" He) as [c Hc]. rewrite Hc in *. simpl. by rewrite Hdecl.
    + unfold ret. simpl. by rewrite He.
  - unfold ret, throw. 
    destruct (get res "dist-tags") as [tags|]; [|discriminate]. simpl in *.
    destruct (get tags "latest") as [latest|]; [|discriminate]. simpl in *.
    destruct (get res "versions") as [versions|]; [|discriminate]. simpl in *.
    destruct (get_computed versions latest) as [obj|]; [|discriminate]. simpl in *.
    destruct (truthy obj) eqn:Hobj; [|discriminate]. injection Hm as ->. simpl.
    destruct (get_truthy m "engines" Hobj) as [e He']. rewrite He' in *. simpl.
    destruct (truthy e) eqn:He; simpl in *.
    + destruct (get_truthy e "coc" He) as [c Hc]. rewrite Hc in *. simpl. by rewrite Hdecl.
    + unfold ret. simpl. by rewrite He.
Qed.

(** ** Computations that leave the disk alone *)

Lemma keeps_ret {A} (a : A) : keeps (ret a).
Proof. by intros s. Qed.
Lemma keeps_throw {A} e : keeps (@throw A e).
Proof. by intros s. Qed.
Lemma keeps_lift {A} (r : Result A) : keeps (lift r).
Proof. by intros s. Qed.
Lemma keeps_gets {A} (f : state -> A) : keeps (gets f).
Proof. by intros s. Qed.
Lemma keeps_log msg b : keeps (log msg b).
Proof. by intros s. Qed.
Lemma keeps_set_self f : keeps (modify (fun s => set_self (f (self s)) s)).
Proof. by intros s. Qed.
Lemma keeps_bind {A B} (c : M A) (k : A -> M B) :
  keeps c -> (forall a, keeps (k a)) -> keeps (bind c k).
Proof.
  intros Hc Hk s. unfold bind. specialize (Hc s).
  destruct (c s) as [[a|e] s1]; simpl in *; [|done].
  specialize (Hk a s1). destruct Hk as (-> & -> & ->). done.
Qed.

Lemma keeps_as_string v : keeps (as_string v).
Proof. destruct v; by intros ?. Qed.
Lemma keeps_parse_json h text : keeps (parse_json h text).
Proof. unfold parse_json. destruct (JSON_parse h text); by intros ?. Qed.

Ltac keeps_step :=
  first [ apply keeps_as_string | apply keeps_parse_json | apply keeps_ret | apply keeps_throw | apply keeps_lift | apply keeps_gets
        | apply keeps_log | apply keeps_set_self
        | apply keeps_bind; [|intros ?]
        | match goal with
          | |- keeps (if ?b then _ else _) => destruct b
          | |- keeps (match ?x with _ => _ end) => destruct x
          | |- keeps (let '(_, _) := ?x in _) => destruct x
          end ].

Lemma keeps_getInfoFromUri h : keeps (getInfoFromUri h).
Proof. unfold getInfoFromUri. repeat keeps_step. Qed.

Lemma keeps_getInfo h : keeps (getInfo h).
Proof.
  unfold getInfo. apply keeps_bind; [apply keeps_gets|]. intros i.
  destruct (truthy (url i)); [apply keeps_getInfoFromUri|]. repeat keeps_step.
Qed.

(** C4. When the version in the installed [package.json] is greater than
    or equal to the version [getInfo] resolves, [update] returns
    [undefined] and leaves the file system as it was: no temporary folder
    is made and no child process started, which [doInstall] would do. *)
Theorem update_noop_when_current (h : Host) (u : value) (s : state) (nm content : string)
  (parsed : value) (v w : string) (info : Info) (s2 : state) :
  name (self s) = VStr nm ->
  readFile (fs s) (path_join (path_join (root (self s)) nm) "package.json") = Ok content ->
  JSON_parse h content = Some parsed ->
  get parsed "version" = Ok (VStr v) ->
  getInfo h (before_getInfo u s) = (Ok info, s2) ->
  info_version info = VStr w ->
  v <> "" -> w <> "" ->
  semver_gte h v w = Some true ->
  exists s', update h u s = (Ok VUndefined, s') /\
             fs s' = fs s /\ temps s' = temps s /\ spawned s' = spawned s.
Proof.
  intros Hname Hread Hparse Hver Hinfo Hw Hv0 Hw0 Hgte.
  unfold update, bind, modify, gets. simpl. rewrite Hname. simpl.
  destruct (isSymbolicLink (fs s) (path_join (root (self s)) nm)).
  { eexists. split; [reflexivity|]. done. }
  assert (existsSync (fs s) (path_join (path_join (root (self s)) nm) "package.json") = true)
    as ->.
  { unfold readFile in Hread. unfold existsSync. by destruct (stat (fs s) _) as [[]|]. }
  unfold lift, parse_json. rewrite Hread. simpl. rewrite Hparse. simpl. rewrite Hver. simpl.
  change (getInfo h _) with (getInfo h (before_getInfo u s)). rewrite Hinfo.
  rewrite Hw. simpl.
  assert (String.eqb v "" = false) as -> by (by apply String.eqb_neq).
  assert (String.eqb w "" = false) as -> by (by apply String.eqb_neq).
  simpl. rewrite Hgte. simpl.
  eexists. split; [reflexivity|]. simpl.
  pose proof (keeps_getInfo h (before_getInfo u s)) as Hk. rewrite Hinfo in Hk. simpl in Hk.
  exact Hk.
Qed.

Lemma update_noop_when_current_witness :
  exists s', update demo_host VNull
               (demo_state installed_demo_ext (demo_installer "demo-ext" VUndefined)) =
             (Ok VUndefined, s') /\
             fs s' = installed_demo_ext /\ temps s' = 0 /\ spawned s' = [].
Proof.
  eapply (update_noop_when_current demo_host VNull
            (demo_state installed_demo_ext (demo_installer "demo-ext" VUndefined))
            "demo-ext" "package:demo-ext@1.2.0"
            (VObj [("name", VStr "demo-ext"); ("version", VStr "1.2.0")]) "1.2.0" "1.2.0").
  - reflexivity.
  - vm_compute. reflexivity.
  - vm_compute. reflexivity.
  - vm_compute. reflexivity.
  - vm_compute. reflexivity.
  - reflexivity.
  - discriminate.
  - discriminate.
  - vm_compute. reflexivity.
Defined.

(** ** Symbolic links *)

(** A link whose target is there is left alone: [update] returns
    [undefined] and touches nothing. *)
Lemma update_skips_live_symlink h u s nm t :
  name (self s) = VStr nm ->
  lstat (fs s) (path_join (root (self s)) nm) = Some (Symlink t) ->
  existsSync (fs s) (path_join (root (self s)) nm) = true ->
  exists s', update h u s = (Ok VUndefined, s') /\
             fs s' = fs s /\ temps s' = temps s /\ spawned s' = spawned s.
Proof.
  intros Hname Hl He. unfold update, bind, modify, gets. simpl. rewrite Hname. simpl.
  unfold isSymbolicLink. rewrite He, Hl. eexists. split; [reflexivity|]. done.
Qed.

(** And [doInstall] returns [false] in the state it was called in. *)
Lemma doInstall_skips_live_symlink h info s nm t :
  info_name info = VStr nm ->
  lstat (fs s) (path_join (root (self s)) nm) = Some (Symlink t) ->
  existsSync (fs s) (path_join (root (self s)) nm) = true ->
  doInstall h info s = (Ok false, s).
Proof.
  intros Hname Hl He. unfold doInstall, bind, modify, gets. simpl. rewrite Hname. simpl.
  unfold isSymbolicLink. by rewrite He, Hl.
Qed.

Lemma update_skips_live_symlink_witness :
  let s := demo_state linked_demo_ext (demo_installer "demo-ext" VUndefined) in
  exists s', update demo_host VNull s = (Ok VUndefined, s') /\
             fs s' = fs s /\ temps s' = temps s /\ spawned s' = spawned s.
Proof.
  apply (update_skips_live_symlink demo_host VNull
           (demo_state linked_demo_ext (demo_installer "demo-ext" VUndefined))
           "demo-ext" "/home/u/dev/demo-ext").
  - reflexivity.
  - vm_compute. reflexivity.
  - vm_compute. reflexivity.
Defined.

Lemma doInstall_skips_live_symlink_witness :
  let s := demo_state linked_demo_ext (demo_installer "demo-ext" VUndefined) in
  doInstall demo_host info_demo_ext s = (Ok false, s).
Proof.
  apply (doInstall_skips_live_symlink demo_host info_demo_ext
           (demo_state linked_demo_ext (demo_installer "demo-ext" VUndefined))
           "demo-ext" "/home/u/dev/demo-ext").
  - reflexivity.
  - vm_compute. reflexivity.
  - vm_compute. reflexivity.
Defined.


(** ** The order of the keys written to the manifest *)

Lemma obj_keys_replace {A} (o : list (string * A)) k v :
  obj_keys (obj_replace o k v) = obj_keys o.
Proof.
  unfold obj_keys. induction o as [|[k0 v0] o IH]; simpl; [reflexivity|].
  destruct (String.eqb k k0); simpl; [reflexivity|]. by rewrite IH.
Qed.

Lemma StronglySorted_snoc {A} (R : A -> A -> Prop) (l : list A) (x : A) :
  StronglySorted R l -> Forall (fun a => R a x) l -> StronglySorted R (l ++ [x]).
Proof.
  induction 1 as [|a l Hl IH Ha]; intros Hx; simpl.
  - repeat constructor.
  - apply Forall_cons in Hx as [Hax Hx]. constructor; [by apply IH|].
    apply Forall_app. split; [done|]. by constructor.
Qed.

Lemma fold_obj_set_sorted (f : string -> value) (ks : list string) :
  forall acc : list (string * value),
  StronglySorted String.le ks ->
  Forall (fun k => array_index k = None) ks ->
  StronglySorted String.le (obj_keys acc) ->
  Forall (fun a => Forall (String.le a) ks) (obj_keys acc) ->
  StronglySorted String.le (obj_keys (fold_left (fun o k => obj_set o k (f k)) ks acc)).
Proof.
  induction ks as [|k ks IH]; intros acc Hks Hidx Hacc Hle; simpl; [done|].
  apply StronglySorted_inv in Hks as [Hks Hk].
  apply Forall_cons in Hidx as [Hidx0 Hidx].
  assert (Forall (fun a => Forall (String.le a) ks) (obj_keys acc)) as Hle'.
  { eapply Forall_impl; [exact Hle|]. simpl. intros a Ha. by apply Forall_cons in Ha as [_ ?]. }
  apply IH; try done; unfold obj_set.
  - destruct (String.eqb k "__proto__"); [done|].
    destruct (obj_has acc k); [by rewrite obj_keys_replace|].
    rewrite Hidx0. unfold obj_keys. rewrite map_app. simpl.
    apply StronglySorted_snoc; [done|].
    eapply Forall_impl; [exact Hle|]. simpl. intros a Ha. by apply Forall_cons in Ha as [? _].
  - destruct (String.eqb k "__proto__"); [done|].
    destruct (obj_has acc k); [by rewrite obj_keys_replace|].
    rewrite Hidx0. unfold obj_keys. rewrite map_app. simpl.
    apply Forall_app. split; [done|]. by constructor.
Qed.

(** Without array-index keys the sorted copy has its keys in sorted order. *)
Lemma sort_dependencies_sorted (deps : list (string * value)) :
  Forall (fun k => array_index k = None) (obj_keys deps) ->
  StronglySorted String.le (obj_keys (sort_dependencies deps)).
Proof.
  intros Hidx. unfold sort_dependencies. apply fold_obj_set_sorted.
  - apply StronglySorted_merge_sort; apply _.
  - by rewrite merge_sort_Permutation.
  - constructor.
  - constructor.
Qed.


Lemma obj_has_keys {A} (o : list (string * A)) k : obj_has o k = true -> k ∈ obj_keys o.
Proof.
  unfold obj_has, obj_keys. induction o as [|[k0 v0] o IH]; simpl; [discriminate|].
  destruct (String.eqb k k0) eqn:E.
  - apply String.eqb_eq in E as ->. intros _. apply list_elem_of_here.
  - intros H. apply list_elem_of_further. by apply IH.
Qed.

Lemma obj_keys_insert_index {A} (o : list (string * A)) n k v k' :
  k' = k \/ k' ∈ obj_keys o -> k' ∈ obj_keys (obj_insert_index o n k v).
Proof.
  unfold obj_keys. induction o as [|[k0 v0] o IH]; simpl.
  - intros [->|H]; [apply list_elem_of_here|by apply elem_of_nil in H].
  - intros H. destruct (array_index k0) as [n'|].
    + destruct (N.ltb n n'); simpl.
      * destruct H as [->|H]; [apply list_elem_of_here|by apply list_elem_of_further].
      * destruct H as [->|H].
        -- apply list_elem_of_further. apply IH. by left.
        -- apply elem_of_cons in H as [->|H]; [apply list_elem_of_here|].
           apply list_elem_of_further. apply IH. by right.
    + simpl. destruct H as [->|H]; [apply list_elem_of_here|by apply list_elem_of_further].
Qed.

Lemma obj_keys_set {A} (o : list (string * A)) k v k' :
  k' ∈ obj_keys o \/ (k' = k /\ k <> "__proto__") -> k' ∈ obj_keys (obj_set o k v).
Proof.
  unfold obj_set. intros H. destruct (String.eqb k "__proto__") eqn:E.
  - apply String.eqb_eq in E. destruct H as [H|[_ H]]; done.
  - destruct (obj_has o k) eqn:Hhas.
    + rewrite obj_keys_replace. destruct H as [H|[-> _]]; [done|by apply obj_has_keys].
    + destruct (array_index k).
      * apply obj_keys_insert_index. destruct H as [H|[-> _]]; [by right|by left].
      * unfold obj_keys in *. rewrite map_app. apply elem_of_app. simpl.
        destruct H as [H|[-> _]]; [by left|right; apply list_elem_of_here].
Qed.

Lemma fold_obj_set_keys (f : string -> value) (ks : list string) k :
  forall acc : list (string * value),
  k ∈ obj_keys acc \/ (k ∈ ks /\ k <> "__proto__") ->
  k ∈ obj_keys (fold_left (fun o k => obj_set o k (f k)) ks acc).
Proof.
  induction ks as [|k0 ks IH]; intros acc H; simpl.
  - destruct H as [H|[H _]]; [done|by apply elem_of_nil in H].
  - apply IH. destruct H as [H|[H Hp]].
    + left. apply obj_keys_set. by left.
    + apply elem_of_cons in H as [->|H].
      * left. apply obj_keys_set. by right.
      * by right.
Qed.

Lemma sort_dependencies_keeps_key (deps : list (string * value)) k :
  k ∈ obj_keys deps -> k <> "__proto__" -> k ∈ obj_keys (sort_dependencies deps).
Proof.
  intros H Hp. unfold sort_dependencies. apply fold_obj_set_keys. right. split; [|done].
  by rewrite merge_sort_Permutation.
Qed.

Lemma written_keys_sorted (deps : list (string * value)) :
  Forall (fun k => array_index k = None) (obj_keys (sort_dependencies deps)) ->
  StronglySorted String.le (obj_keys (sort_dependencies deps)).
Proof.
  intros H. apply sort_dependencies_sorted. apply Forall_forall. intros k Hk.
  destruct (decide (k = "__proto__")) as [->|Hp]; [reflexivity|].
  rewrite Forall_forall in H. apply H. by apply sort_dependencies_keeps_key.
Qed.
(** What [doInstall] runs before and after the write of the manifest. *)

Lemma bind_ok {A B} (c : M A) (k : A -> M B) s v s' :
  bind c k s = (Ok v, s') -> exists a s1, c s = (Ok a, s1) /\ k a s1 = (Ok v, s').
Proof.
  unfold bind. destruct (c s) as [[a|e] s1]; [|discriminate]. intros H. by exists a, s1.
Qed.

Lemma follow_insert_file n (f : gmap string node) p q c0 c :
  follow n f p = Some (q, File c0) -> follow n (<[q := File c]> f) p = Some (q, File c).
Proof.
  revert p. induction n as [|n IH]; intros p; simpl.
  - destruct (decide (p = q)) as [->|Hne].
    + rewrite lookup_insert_eq. destruct (f !! q) as [[]|]; congruence.
    + rewrite lookup_insert_ne by done. destruct (f !! p) as [[]|]; congruence.
  - destruct (decide (p = q)) as [->|Hne].
    + rewrite lookup_insert_eq. intros _. reflexivity.
    + rewrite lookup_insert_ne by done. destruct (f !! p) as [[]|]; try congruence. apply IH.
Qed.

Lemma follow_delete_dir n (f : gmap string node) d p q c :
  f !! d = Some Dir -> follow n f p = Some (q, File c) ->
  follow n (delete d f) p = Some (q, File c).
Proof.
  intros Hd. revert p. induction n as [|n IH]; intros p; simpl.
  - destruct (decide (p = d)) as [->|Hne].
    + rewrite Hd. congruence.
    + rewrite lookup_delete_ne by done. done.
  - destruct (decide (p = d)) as [->|Hne].
    + rewrite Hd. congruence.
    + rewrite lookup_delete_ne by done. destruct (f !! p) as [[]|]; try congruence. apply IH.
Qed.

Lemma readFile_inv (f : gmap string node) p c :
  readFile f p = Ok c <-> exists q, follow MAXSYMLINKS f p = Some (q, File c).
Proof.
  unfold readFile, stat. destruct (follow MAXSYMLINKS f p) as [[q [c'| |t]]|]; simpl; split.
  all: try (intros [q' Hq]; congruence); try discriminate.
  - intros [= ->]. by exists q.
Qed.

Lemma readFile_writeFile (f f' : gmap string node) p c :
  writeFile f p c = Ok f' -> readFile f' p = Ok c.
Proof.
  unfold writeFile. intros H. apply readFile_inv.
  destruct (f !! p) as [[c0| |t]|] eqn:Hp.
  - injection H as <-. exists p. unfold MAXSYMLINKS. simpl. by rewrite lookup_insert_eq.
  - discriminate.
  - destruct (follow MAXSYMLINKS f p) as [[q [c0| |t']]|] eqn:Hf; try discriminate.
    injection H as <-. exists q. by eapply follow_insert_file.
  - injection H as <-. exists p. unfold MAXSYMLINKS. simpl. by rewrite lookup_insert_eq.
Qed.

Lemma readFile_rmdirSync (f f' : gmap string node) d p c :
  rmdirSync f d = Ok f' -> readFile f p = Ok c -> readFile f' p = Ok c.
Proof.
  unfold rmdirSync. intros H Hr. apply readFile_inv in Hr as [q Hq]. apply readFile_inv.
  destruct (f !! d) as [[| |]|] eqn:Hd; try discriminate.
  destruct (decide _); [|discriminate]. injection H as <-.
  exists q. by apply follow_delete_dir.
Qed.

Lemma fs_update_ok g s u s' :
  fs_update g s = (Ok u, s') -> g (fs s) = Ok (fs s').
Proof.
  unfold fs_update. destruct (g (fs s)) as [f'|e]; [|discriminate]. by intros [= _ <-].
Qed.

Tactic Notation "peel" hyp(H) "as" simple_intropattern(a) simple_intropattern(s1) simple_intropattern(H1) :=
  apply bind_ok in H as (a & s1 & H1 & H).


Lemma log_fs msg b s u s' : log msg b s = (Ok u, s') -> fs s' = fs s.
Proof. unfold log, modify. by intros [= _ <-]. Qed.

Lemma doInstall_writes_sorted h info s s' :
  doInstall h info s = (Ok true, s') ->
  exists deps,
    readFile (fs s') (manifest_path h (self s)) =
      Ok (JSON_stringify h (VObj [("dependencies", VObj (sort_dependencies deps))])).
Proof.
  unfold doInstall. intros H.
  peel H as i s0 Hi. unfold gets in Hi. injection Hi as <- <-.
  peel H as nm s0 _. peel H as f0 s1 _.
  destruct (isSymbolicLink _ _); [discriminate|].
  peel H as tmpFolder s2 _. peel H as ? s3 _. peel H as ? s4 _. peel H as ? s5 _.
  peel H as f1 s6 _. peel H as content s7 _. peel H as ? s8 _.
  peel H as f2 s9 _. peel H as ? s10 _. peel H as f3 s11 _. peel H as text s12 _.
  destruct (jsonc_parse h text) as [obj errors].
  destruct errors; [discriminate|].
  peel H as i' s13 _. peel H as deps s14 _. exists deps.
  peel H as f4 s15 _. peel H as ? s16 _. peel H as ? s17 _.
  peel H as ? s18 Hwrite.
  apply fs_update_ok in Hwrite. apply readFile_writeFile in Hwrite.
  peel H as f5 s19 Hf5. unfold gets in Hf5. injection Hf5 as <- <-.
  peel H as ? s20 Hrm. peel H as ? s21 Hl1. peel H as ? s22 Hl2. unfold ret in H. injection H as <-.
  apply log_fs in Hl1, Hl2. rewrite Hl2, Hl1.
  destruct (existsSync _ _).
  - apply fs_update_ok in Hrm. by eapply readFile_rmdirSync.
  - unfold ret in Hrm. by injection Hrm as _ <-.
Qed.

(** Every manifest [doInstall] writes holds the sorted copy, and its keys
    are in sorted order unless one of them is an array index. *)
Theorem doInstall_manifest_sorted h info s s' :
  doInstall h info s = (Ok true, s') ->
  exists written,
    readFile (fs s') (manifest_path h (self s)) =
      Ok (JSON_stringify h (VObj [("dependencies", VObj written)])) /\
    (Forall (fun k => array_index k = None) (obj_keys written) ->
     StronglySorted String.le (obj_keys written)).
Proof.
  intros H. apply doInstall_writes_sorted in H as [deps H].
  exists (sort_dependencies deps). split; [exact H|]. apply written_keys_sorted.
Qed.

Lemma doInstall_manifest_sorted_witness :
  let s := demo_state installed_demo_ext (demo_installer "demo-ext" VUndefined) in
  exists written,
    readFile (fs (snd (doInstall demo_host info_demo_ext s))) "/data/extensions/package.json" =
      Ok (demo_stringify (VObj [("dependencies", VObj written)])) /\
    (Forall (fun k => array_index k = None) (obj_keys written) ->
     StronglySorted String.le (obj_keys written)).
Proof.
  apply (doInstall_manifest_sorted demo_host info_demo_ext
           (demo_state installed_demo_ext (demo_installer "demo-ext" VUndefined))
           (snd (doInstall demo_host info_demo_ext
                   (demo_state installed_demo_ext (demo_installer "demo-ext" VUndefined))))).
  vm_compute. reflexivity.
Defined.

(** C8 fails when extension ids are decimal numerals: the keys are sorted
    as strings, "10" before "9", and copied in that order into a new
    object, whose array-index keys are enumerated in ascending numeric order
    whatever the order they were created in.  The manifest [doInstall]
    writes for "9" next to "10" lists "9" first, and so does the one
    [uninstallExtension] writes when "coc-json" is removed from "9", "10"
    and "coc-json". *)
Theorem index_keys_written_unsorted :
  let s := demo_state manifest_with_10 (demo_installer "9" VUndefined) in
  let s' := snd (doInstall demo_host info_9 s) in
  let uninstalled :=
    snd (Extensions.uninstallExtension demo_host "/data/extensions" ["coc-json"]
           ExtensionsDemo.empty_registry three_installed) in
  fst (doInstall demo_host info_9 s) = Ok true /\
  fs s' !! "/data/extensions/package.json" =
    Some (File (demo_stringify
                  (VObj [("dependencies", VObj [("9", VStr ">=2.0.0"); ("10", VStr ">=1.0.0")])]))) /\
  uninstalled !! "/data/extensions/node_modules/coc-json" = None /\
  uninstalled !! "/data/extensions/package.json" =
    Some (File (demo_stringify
                  (VObj [("dependencies", VObj [("9", VStr ">=2.0.0"); ("10", VStr ">=1.0.0")])]))) /\
  merge_sort String.le ["9"; "10"] = ["10"; "9"] /\
  ~ Sorted String.le ["9"; "10"].
Proof.
  split; [vm_compute; reflexivity|]. split; [vm_compute; reflexivity|].
  split; [vm_compute; reflexivity|]. split; [vm_compute; reflexivity|].
  split; [vm_compute; reflexivity|].
  intros H. apply Sorted_inv in H as [_ H]. apply HdRel_inv in H. vm_compute in H. done.
Qed.

Lemma getInfo_registry_requires_engine_witness :
  fst (getInfo demo_host (demo_state ∅ (demo_installer "vscode-only" VUndefined))) =
  Throw (ErrNotCocExtension "vscode-only").
Proof.
  apply (getInfo_registry_requires_engine demo_host
           (demo_state ∅ (demo_installer "vscode-only" VUndefined))
           (VObj [("name", VStr "vscode-only"); ("version", VStr "3.0.0");
                  ("engines", VObj [("vscode", VStr "^1.0.0")]);
                  ("dist", VObj [("tarball", VStr "https://example/vscode-only-3.0.0.tgz")])])).
  - reflexivity.
  - vm_compute. reflexivity.
  - reflexivity.
Defined.

(** C6 as stated does not hold for URL lookups: [getInfoFromUri] makes no
    check.  For a repository whose manifest has [engines.vscode] only,
    [getInfo] returns the info, with no [engines.coc], and [install] goes on
    to install the package. *)
Lemma getInfo_from_url_without_engine :
  let s := demo_state ∅ (demo_installer "vue-vscode-snippets"
                           (VStr "https://github.com/sdras/vue-vscode-snippets@main")) in
  fst (getInfo demo_host s) =
    Ok {| dist_tarball := VStr "https://github.com/sdras/vue-vscode-snippets/archive/main.tar.gz";
          engines_coc := VUndefined;
          info_version := VStr "3.1.0";
          info_name := VStr "vue-vscode-snippets" |} /\
  declares_engine (VObj [("name", VStr "vue-vscode-snippets"); ("version", VStr "3.1.0");
                         ("engines", VObj [("vscode", VStr "^1.0.0")])]) = false /\
  fst (install demo_host s) = Ok (VStr "vue-vscode-snippets").
Proof. vm_compute. repeat split; reflexivity. Qed.

Lemma registryUrl_spec_witness :
  Js.endsWith (registryUrl demo_host npmrc_scoped "coc.nvim") "/" = true /\
  match npmrc_content demo_host npmrc_scoped with
  | None => registryUrl demo_host npmrc_scoped "coc.nvim" = DEFAULT_REGISTRY
  | Some text =>
      if parseable text
      then registryUrl demo_host npmrc_scoped "coc.nvim" =
           claimed_registryUrl "coc.nvim" (Some text)
      else registryUrl demo_host npmrc_scoped "coc.nvim" = DEFAULT_REGISTRY
  end.
Proof. apply (registryUrl_spec demo_host npmrc_scoped "coc.nvim"). reflexivity. Defined.

(** C9 fails on a content with a CR that no LF follows: with a global
    override on the first line and such a CR on a later line with an equals
    sign, the match of that line is [null], the exception of the
    destructuring is caught and the default is returned, where the claim
    has the override. *)
Theorem stray_cr_discards_override :
  npmrc_content demo_host npmrc_with_stray_cr =
    Some ("registry=https://r.example/" +:+ LF +:+ "color=always" +:+ CR +:+ "progress=false") /\
  claimed_registryUrl "coc.nvim" (npmrc_content demo_host npmrc_with_stray_cr) =
    "https://r.example/" /\
  registryUrl demo_host npmrc_with_stray_cr "coc.nvim" = "https://registry.npmjs.org/".
Proof. vm_compute. repeat split; reflexivity. Qed.

End InstallerProps.

(* ===================================================================== *)
(** * Properties of the registry                                          *)
(* ===================================================================== *)

Module RegistryProps.
Import Extensions ExtensionsDemo.

Lemma calls_of_cons id c id' o l :
  calls_of id ((c, id', o) :: l) = if String.eqb id' id then o :: calls_of id l else calls_of id l.
Proof. unfold calls_of. simpl. destruct (String.eqb id' id); reflexivity. Qed.

Lemma calls_of_app id l1 l2 : calls_of id (l1 ++ l2) = calls_of id l1 ++ calls_of id l2.
Proof. unfold calls_of. apply omap_app. Qed.

Lemma resume_in_cases c r before ws :
  resume_in c before ws r = r \/
  exists b w rest r1, before ++ ws = b ++ w :: rest /\ caller w = c /\
                      continue w r = Some r1 /\
                      resume_in c before ws r = set_waiting (b ++ rest) r1.
Proof.
  revert before. induction ws as [|w ws IH]; intros before; simpl; [by left|].
  destruct (Nat.eqb (caller w) c) eqn:Hc.
  - destruct (continue w r) as [r1|] eqn:Hk; [|by left].
    right. exists before, w, ws, r1. apply Nat.eqb_eq in Hc. done.
  - destruct (IH (before ++ [w])) as [H | (b & w' & rest & r1 & H1 & H2 & H3 & H4)]; [by left|].
    right. exists b, w', rest, r1. rewrite <- app_assoc in H1. done.
Qed.

Lemma resume_cases c r :
  resume c r = r \/
  exists b w rest r1, waiting r = b ++ w :: rest /\ caller w = c /\
                      continue w r = Some r1 /\ resume c r = set_waiting (b ++ rest) r1.
Proof. unfold resume. apply (resume_in_cases c r []). Qed.

Lemma continue_cases w r r1 :
  continue w r = Some r1 ->
  (r1 = after_await w r /\
   (awaits w = None \/ exists p k v, awaits w = Some p /\
                        promises r !! p = Some {| owner := k; pstate := Fulfilled v |})) \/
  (exists p k e, awaits w = Some p /\
                 promises r !! p = Some {| owner := k; pstate := Rejected e |} /\
                 r1 = finish (caller w) (s_id w) (Threw e) r).
Proof.
  unfold continue. destruct (awaits w) as [p|]; [|intros [= <-]; left; eauto].
  destruct (promises r !! p) as [[k [|v|e]]|] eqn:Hp; intros [= <-].
  - left. split; [done|]. right. eauto.
  - right. eauto 10.
Qed.

Section Invariant.
Variables (h : Host) (id : string) (it : item) (base : list (nat * string * outcome)) (n0 n1 : nat).

Lemma entry_calls_cons k a b l r :
  entry_log r = l -> entry_calls k (set_entry_log ((a, b) :: l) r) =
  if decide (a = k) then S (entry_calls k r) else entry_calls k r.
Proof.
  intros <-. unfold entry_calls. simpl. rewrite filter_cons. simpl.
  destruct (decide (a = k)); reflexivity.
Qed.

Lemma inv_activate ph r c entry :
  inv h id it base n0 n1 ph r ->
  exists ph', phase_next ph ph' /\ inv h id it base n0 n1 ph' (activate h c id entry r).
Proof.
  intros [He Hi (cl & Hcl & Hph & Hidle) Hp Hw (new & Hnew & Hout) Hn].
  unfold activate. rewrite He, Hi, Hcl.
  destruct (isActive cl) eqn:Hact.
  - (* already active *)
    exists ph. split; [by left|].
    destruct ph as [|p|p v|p e]; simpl in Hph; try (destruct Hph as (_ & ? & _); congruence);
      [destruct Hph; congruence|].
    constructor; simpl; try done; try (by eauto).
    + exists cl. split; [done|]. split; [done|]. discriminate.
    + exists ((c, id, Returned true) :: new). split; [by rewrite Hnew|].
      rewrite calls_of_cons, String.eqb_refl. by constructor.
  - unfold extension_activate. rewrite Hcl.
    destruct (result cl) as [p|] eqn:Hres.
    + (* the cached promise *)
      exists ph. split; [by left|]. constructor; simpl; try done; try (by eauto).
      * exists cl. split; [done|]. split; [done|].
        intros ->. simpl in Hph. destruct Hph; congruence.
      * apply Forall_app. split; [done|]. constructor; [|done]. simpl. intros _. split; [done|].
        destruct ph; simpl in *; destruct_and?; congruence.
    + (* nothing cached *)
      assert (ph = PNotStarted) as ->.
      { destruct ph; simpl in Hph; destruct_and?; congruence. }
      destruct (match ext cl with Some e => Some e | None => factory h (c_id cl) (c_filename cl) (negb (pkg_engines_coc (c_manifest cl))) end) as [e|] eqn:Hload.
      * (* the module is there: the entry point runs *)
        assert (loadable h cl = true) as Hl.
        { unfold loadable. destruct (ext cl); [done|]. by rewrite Hload. }
        destruct (Hidle eq_refl Hl) as (Hnow & new' & Hnew' & Hnone).
        assert (new' = new) as -> by (apply (app_inv_tail base); congruence).
        exists (match entry with Some err => PRejected (next r) err | None => PInFlight (next r) end).
        split; [right; by destruct entry|].
        destruct Hn as [Hn Hn1].
        constructor; simpl; try done; try (by eauto).
        -- eexists. rewrite lookup_insert_eq. split; [done|]. split.
           ++ destruct entry; simpl; rewrite lookup_insert_eq; done.
           ++ destruct entry; discriminate.
        -- intros q pr Hq Ho Hpend.
           destruct (decide (q = next r)) as [->|Hne].
           ++ rewrite lookup_insert_eq in Hq. injection Hq as <-. simpl in Hpend.
              destruct entry; [discriminate|done].
           ++ rewrite lookup_insert_ne in Hq by done.
              specialize (Hp q pr Hq Ho Hpend). discriminate.
        -- apply Forall_app. split.
           ++ apply Forall_forall. intros w Hin Hid.
              assert (w ∈ waiting_of id r) as Hin'.
              { unfold waiting_of. by apply list_elem_of_filter. }
              rewrite Hnow in Hin'. by apply not_elem_of_nil in Hin'.
           ++ constructor; [|done]. simpl. intros _. split; [done|]. by destruct entry.
        -- exists new. split; [done|]. rewrite Hnone. constructor.
        -- assert (entry_calls (extension it)
                     (set_next (S (next r))
                        (set_entry_log ((extension it, subscriptions cl) :: entry_log r)
                           (set_promises
                              (<[next r:={| owner := extension it;
                                            pstate := match entry with
                                                      | Some err => Rejected err
                                                      | None => Pending
                                                      end |}]> (promises r))
                              (set_closure (extension it)
                                 (with_activation false (Some (next r)) (exports cl)
                                    (with_ext (Some e) cl)) r)))) = n1) as Hcount.
           { unfold entry_calls in *. simpl. rewrite filter_cons. simpl.
             rewrite decide_True by done. simpl. by rewrite Hn. }
           destruct entry; exact Hcount.
      * (* the module cannot be loaded *)
        assert (loadable h cl = false) as Hl.
        { unfold loadable. destruct (ext cl); [done|]. by rewrite Hload. }
        exists PNotStarted. split; [by left|]. constructor; simpl; try done; try (by eauto).
        -- exists cl. split; [done|]. split; [done|]. intros _ Hl'. congruence.
        -- apply Forall_app. split; [done|]. constructor; [|done]. simpl. done.
Qed.


Lemma inv_settle ph r p o :
  inv h id it base n0 n1 ph r ->
  exists ph', phase_next ph ph' /\ inv h id it base n0 n1 ph' (settle p o r).
Proof.
  intros [He Hi (cl & Hcl & Hph & Hidle) Hp Hw (new & Hnew & Hout) Hn].
  unfold settle.
  destruct (promises r !! p) as [[k [|v|e]]|] eqn:Hpp;
    try (exists ph; split; [by left|]; constructor; eauto; done).
  destruct (decide (k = extension it)) as [->|Hk].
  - (* the promise in flight for this record *)
    pose proof (Hp p _ Hpp eq_refl eq_refl) as ->. simpl in Hph.
    destruct Hph as (Hres & Hact & _).
    destruct o as [v|e]; simpl.
    + rewrite Hcl. exists (PFulfilled p v). split; [by right|]. constructor; simpl; try done; try (by eauto).
      * eexists. rewrite lookup_insert_eq. split; [done|]. simpl.
        rewrite lookup_insert_eq. split; [done|]. discriminate.
      * intros q pr Hq Ho Hpend. destruct (decide (q = p)) as [->|Hne].
        -- rewrite lookup_insert_eq in Hq. injection Hq as <-. discriminate.
        -- rewrite lookup_insert_ne in Hq by done.
           specialize (Hp q pr Hq Ho Hpend). congruence.
      * exists new. split; [done|].
        eapply Forall_impl; [exact Hout|]. simpl. intros ? ?. discriminate.
    + exists (PRejected p e). split; [by right|]. constructor; simpl; try done; try (by eauto).
      * exists cl. split; [done|]. simpl. rewrite lookup_insert_eq. split; [done|]. discriminate.
      * intros q pr Hq Ho Hpend. destruct (decide (q = p)) as [->|Hne].
        -- rewrite lookup_insert_eq in Hq. injection Hq as <-. discriminate.
        -- rewrite lookup_insert_ne in Hq by done.
           specialize (Hp q pr Hq Ho Hpend). congruence.
      * exists new. split; [done|].
        eapply Forall_impl; [exact Hout|]. simpl. intros ? ?. discriminate.
  - (* a promise of another record *)
    assert (forall st, phase_closure (extension it) ph cl
              (set_promises (<[p := {| owner := k; pstate := st |}]> (promises r)) r)) as Hph'.
    { intros st. destruct ph as [|q|q v|q e]; simpl in *; [done| | |];
        destruct Hph as (? & ? & Hq); (split; [done|]); (split; [done|]);
        (rewrite lookup_insert_ne; [done|]); intros ->; rewrite Hpp in Hq; congruence. }
    assert (forall st q pr,
              <[p := {| owner := k; pstate := st |}]> (promises r) !! q = Some pr ->
              owner pr = extension it -> pstate pr = Pending -> ph = PInFlight q) as Hp'.
    { intros st q pr Hq Ho Hpend. destruct (decide (q = p)) as [->|Hne].
      - rewrite lookup_insert_eq in Hq. injection Hq as <-. simpl in Ho. congruence.
      - rewrite lookup_insert_ne in Hq by done. eauto. }
    destruct o as [v|e]; simpl.
    + destruct (closures r !! k) as [cl'|] eqn:Hk'.
      * exists ph. split; [by left|]. constructor; simpl; try done; try (by eauto).
        all: exists cl; rewrite lookup_insert_ne by done; split; [done|]; split; [apply Hph'|]; done.
      * exists ph. split; [by left|]. constructor; simpl; try done; try (by eauto).
        all: exists cl; split; [done|]; split; [apply Hph'|]; done.
    + exists ph. split; [by left|]. constructor; simpl; try done; try (by eauto).
      all: exists cl; split; [done|]; split; [apply Hph'|]; done.
Qed.

Lemma inv_push ph r a d :
  inv h id it base n0 n1 ph r -> inv h id it base n0 n1 ph (push_subscription a d r).
Proof.
  intros [He Hi (cl & Hcl & Hph & Hidle) Hp Hw Hf Hn].
  constructor; simpl; try done.
  exists cl. split; [done|]. split; [|done]. by destruct ph.
Qed.


Lemma inv_finish ph r c id' o :
  inv h id it base n0 n1 ph r ->
  (id' = id -> Some o = phase_outcome ph /\ waiting_of id r <> []) ->
  inv h id it base n0 n1 ph (finish c id' o r).
Proof.
  intros [He Hi (cl & Hcl & Hph & Hidle) Hp Hw (new & Hnew & Hout) Hn] Hid.
  constructor; simpl; try done.
  - exists cl. split; [done|]. split; [by destruct ph|].
    intros Hs Hl. destruct (Hidle Hs Hl) as (Hnow & new' & Hnew' & Hnone).
    split; [done|]. exists ((c, id', o) :: new'). split; [by rewrite Hnew'|].
    rewrite calls_of_cons. destruct (String.eqb_spec id' id) as [->|]; [|done].
    destruct (Hid eq_refl) as [_ ?]. done.
  - exists ((c, id', o) :: new). split; [by rewrite Hnew|].
    rewrite calls_of_cons. destruct (String.eqb_spec id' id) as [->|]; [|done].
    constructor; [|done]. by destruct (Hid eq_refl).
Qed.

Lemma inv_fired ph r x :
  inv h id it base n0 n1 ph r -> inv h id it base n0 n1 ph (set_fired x r).
Proof.
  intros [He Hi (cl & Hcl & Hph & Hidle) Hp Hw Hf Hn].
  constructor; simpl; try done.
  exists cl. split; [done|]. split; [|done]. by destruct ph.
Qed.

Lemma inv_drop_waiting ph r b w rest :
  inv h id it base n0 n1 ph r -> waiting r = b ++ w :: rest ->
  inv h id it base n0 n1 ph (set_waiting (b ++ rest) r).
Proof.
  intros [He Hi (cl & Hcl & Hph & Hidle) Hp Hw Hf Hn] Hwait.
  rewrite Hwait in Hw. apply Forall_app in Hw as [Hb Hr]. apply Forall_cons in Hr as [_ Hr].
  constructor; simpl; try done.
  - exists cl. split; [done|]. split; [by destruct ph|].
    intros Hs Hl. destruct (Hidle Hs Hl) as (Hnow & Hrest). split; [|done].
    unfold waiting_of in *. simpl. rewrite Hwait in Hnow.
    rewrite filter_app, filter_cons in Hnow. rewrite filter_app.
    apply app_eq_nil in Hnow as [-> Hnow]. simpl.
    destruct (decide (s_id w = id)); [discriminate|done].
  - apply Forall_app. done.
Qed.

Lemma inv_resume ph r c :
  inv h id it base n0 n1 ph r -> inv h id it base n0 n1 ph (resume c r).
Proof.
  intros Hinv.
  destruct (resume_cases c r) as [-> | (b & w & rest & r1 & Hwait & _ & Hk & ->)]; [done|].
  pose proof Hinv as [He Hi (cl & Hcl & Hph & Hidle) Hp Hw Hf Hn].
  assert (s_id w = id -> s_extension w = extension it /\ awaits w = phase_awaits ph /\
                         waiting_of id r <> []) as Hmine.
  { intros Hid. rewrite Hwait in Hw. apply Forall_app in Hw as [_ Hw].
    apply Forall_cons in Hw as [Hw _]. destruct (Hw Hid). split; [done|]. split; [done|].
    unfold waiting_of. rewrite Hwait, filter_app, filter_cons, decide_True by done.
    intros Hnil. apply app_eq_nil in Hnil as [_ ?]. discriminate. }
  apply continue_cases in Hk as [[-> Haw] | (p & k & e & Haw & Hpp & ->)].
  - unfold after_await. destruct (closures r !! s_extension w) as [cl'|] eqn:Hcl'.
    + destruct (isActive cl') eqn:Hact.
      * apply (inv_drop_waiting _ _ b w rest); [|done].
        apply inv_finish; [by apply inv_fired|]. simpl.
        intros Hid. destruct (Hmine Hid) as (Hext & Hawaits & Hne). split; [|done].
        rewrite Hext, Hcl in Hcl'. injection Hcl' as <-.
        destruct ph; simpl in *; destruct_and?; congruence.
      * apply (inv_drop_waiting _ _ b w rest); [|done].
        apply inv_finish; [done|].
        intros Hid. destruct (Hmine Hid) as (Hext & Hawaits & Hne). split; [|done].
        rewrite Hext, Hcl in Hcl'. injection Hcl' as <-.
        destruct Haw as [Haw | (p & k & v & Haw & Hpp)].
        -- destruct ph; simpl in *; congruence.
        -- destruct ph; simpl in *; destruct_and?; simplify_eq; congruence.
    + by apply (inv_drop_waiting _ _ b w rest).
  - apply (inv_drop_waiting _ _ b w rest); [|done].
    apply inv_finish; [done|].
    intros Hid. destruct (Hmine Hid) as (Hext & Hawaits & Hne). split; [|done].
    destruct ph; simpl in *; destruct_and?; simplify_eq. done.
Qed.

Lemma inv_deactivate ph r :
  inv h id it base n0 n1 ph r -> (forall p v, ph <> PFulfilled p v) ->
  snd (deactivate id r) = r.
Proof.
  intros [He Hi (cl & Hcl & Hph & Hidle) Hp Hw Hf Hn] Hne.
  unfold deactivate. rewrite Hi. simpl. unfold item_deactivate. rewrite Hcl.
  destruct (isActive cl) eqn:Hact; [|done].
  destruct ph as [|p|p v|p e]; simpl in Hph; destruct_and?; try congruence.
  by destruct (Hne p v).
Qed.



(** Once the activation is rejected, the record stays as it is. *)
Lemma inv_retry_step p err r e :
  inv h id it base n0 n1 (PRejected p err) r -> retry_event id e ->
  inv h id it base n0 n1 (PRejected p err) (step h r e).
Proof.
  intros Hinv Hev.
  assert (forall ph', phase_next (PRejected p err) ph' -> ph' = PRejected p err) as Hstay.
  { intros ph' [->|H]; [done|]. by destruct ph'. }
  destruct e as [c id' entry|q o|c|id'|id'|a d]; simpl in *; try done.
  - subst id'. destruct (inv_activate _ r c entry Hinv) as (ph' & Hnext & Hinv').
    by rewrite (Hstay _ Hnext) in Hinv'.
  - destruct (inv_settle _ r q o Hinv) as (ph' & Hnext & Hinv').
    by rewrite (Hstay _ Hnext) in Hinv'.
  - by apply inv_resume.
  - subst id'. by rewrite (inv_deactivate _ r Hinv).
  - by apply inv_push.
Qed.

Lemma inv_retry_run p err t : forall r,
  inv h id it base n0 n1 (PRejected p err) r -> Forall (retry_event id) t ->
  inv h id it base n0 n1 (PRejected p err) (run h t r).
Proof.
  induction t as [|e t IH]; intros r Hinv Hall; simpl; [done|].
  apply Forall_cons in Hall as [He Hall]. apply IH; [|done]. by apply inv_retry_step.
Qed.

End Invariant.


Lemma run_app h t1 t2 r : run h (t1 ++ t2) r = run h t2 (run h t1 r).
Proof. unfold run. apply fold_left_app. Qed.



(** C2. A disabled id cannot be activated: every call of [activate(id)]
    throws the error that says so, and the calls change nothing but the
    record of their own failure: no closure changes (no record becomes
    active), no promise is created and the entry point is not called. *)
Theorem activate_disabled (h : Host) (r : registry) (id : string)
  (calls : list (nat * option error)) :
  isDisabled r id = true ->
  run h (map (fun ce => EActivate (fst ce) id (snd ce)) calls) r =
  set_finished (rev (map (fun ce => (fst ce, id, Threw (ErrDisabled id))) calls) ++ finished r) r.
Proof.
  intros Hd. revert r Hd. induction calls as [|[c entry] calls IH]; intros r Hd.
  - by destruct r.
  - change (run h (map (fun ce => EActivate ce.1 id ce.2) ((c, entry) :: calls)) r)
      with (run h (map (fun ce => EActivate ce.1 id ce.2) calls) (activate h c id entry r)).
    assert (activate h c id entry r = finish c id (Threw (ErrDisabled id)) r) as ->.
    { unfold activate. by rewrite Hd. }
    rewrite IH by done. simpl. unfold finish, set_finished. simpl.
    by rewrite <- app_assoc.
Qed.

(** C3. Deactivating an active extension and activating it again runs the
    entry point anew.  [deactivate(id)] clears the cached promise and the
    exports, resets the active flag, disposes every disposable of the
    subscriptions array, empties it and gives the record a new empty one;
    the [activate(id)] that follows calls the entry point again, with a
    context over the new array, and caches a new promise; when that promise
    is fulfilled with [v], the record is active and its exports are [v]. *)
Theorem deactivate_then_activate (h : Host) (r : registry) (id : string) (it : item)
  (cl : closure) (e : ExtensionExport) (c : nat) (entry : option error) :
  isDisabled r id = false ->
  extensions r !! id = Some it ->
  closures r !! extension it = Some cl ->
  isActive cl = true ->
  ext cl = Some e ->
  let k := extension it in
  let r1 := snd (deactivate id r) in
  let r2 := activate h c id entry r1 in
  let p := S (next r) in
  (exists cl1, closures r1 !! k = Some cl1 /\ isActive cl1 = false /\ result cl1 = None /\
               exports cl1 = VUndefined /\ subscriptions cl1 = next r) /\
  arrays r1 !! next r = Some [] /\
  (subscriptions cl <> next r -> arrays r1 !! subscriptions cl = Some []) /\
  (forall d, d ∈ default [] (arrays r !! subscriptions cl) -> d ∈ disposed r1) /\
  entry_log r2 = (k, next r) :: entry_log r /\
  (exists cl2, closures r2 !! k = Some cl2 /\ result cl2 = Some p /\ isActive cl2 = false) /\
  promises r2 !! p = Some {| owner := k;
                             pstate := match entry with
                                       | Some err => Rejected err
                                       | None => Pending
                                       end |} /\
  (entry = None -> forall v,
     exists cl3, closures (settle p (inl v) r2) !! k = Some cl3 /\
                 isActive cl3 = true /\ exports cl3 = v /\ result cl3 = Some p).
Proof.
  intros He Hi Hcl Hact Hext k r1 r2 p.
  assert (Hr1 : exists tl, snd (deactivate id r) =
            set_teardown_log tl
              (set_next (S (next r))
                 (set_arrays (<[next r := []]> (<[subscriptions cl := []]> (arrays r)))
                    (set_closure k (with_subscriptions (next r)
                                      (with_activation false None VUndefined cl))
                       (set_disposed (disposed r ++ rev (default [] (arrays r !! subscriptions cl))) r))))).
  { unfold deactivate. rewrite Hi. simpl. unfold item_deactivate. rewrite Hcl, Hact. simpl.
    rewrite Hext. destruct e as [[|]]; eexists; reflexivity. }
  destruct Hr1 as [tl Hr1].
  assert (Hr2 : r2 = suspend {| caller := c; s_id := id; s_extension := k; awaits := Some p |}
            (set_next (S p)
               (set_entry_log ((k, next r) :: entry_log r)
                  (set_promises (<[p := {| owner := k;
                                           pstate := match entry with
                                                     | Some err => Rejected err
                                                     | None => Pending
                                                     end |}]> (promises r))
                     (set_closure k (with_activation false (Some p) VUndefined
                                       (with_ext (Some e)
                                          (with_subscriptions (next r)
                                             (with_activation false None VUndefined cl)))) r1))))).
  { subst r2 r1. rewrite Hr1. unfold activate, isDisabled in *. simpl. rewrite He, Hi. fold k.
    rewrite lookup_insert_eq. simpl.
    unfold extension_activate. simpl. rewrite lookup_insert_eq. simpl.
    rewrite Hext. reflexivity. }
  subst r1. rewrite Hr1 in Hr2. rewrite Hr2, Hr1. clear Hr1 Hr2 r2.
  split; [|split; [|split; [|split; [|split; [|split; [|split]]]]]]; simpl.
  - rewrite lookup_insert_eq. eauto 10.
  - by rewrite lookup_insert_eq.
  - intros Hne. rewrite lookup_insert_ne by done. by rewrite lookup_insert_eq.
  - intros d Hd. apply elem_of_app. right. apply list_elem_of_In. apply -> in_rev. by apply list_elem_of_In.
  - done.
  - rewrite lookup_insert_eq. eauto.
  - by rewrite lookup_insert_eq.
  - intros -> v. unfold settle. simpl. rewrite lookup_insert_eq. simpl.
    rewrite lookup_insert_eq. simpl. rewrite lookup_insert_eq. eauto 10.
Qed.

Lemma rejected_inv h id it r cl p e n0 :
  isDisabled r id = false ->
  extensions r !! id = Some it ->
  closures r !! extension it = Some cl ->
  result cl = Some p -> isActive cl = false ->
  promises r !! p = Some {| owner := extension it; pstate := Rejected e |} ->
  none_pending r (extension it) ->
  Forall (fun w => s_id w = id -> s_extension w = extension it /\ awaits w = Some p) (waiting r) ->
  inv h id it (finished r) n0 (entry_calls (extension it) r) (PRejected p e) r.
Proof.
  intros He Hi Hcl Hres Hact Hp Hnone Hw. constructor; try done.
  - exists cl. split; [done|]. split; [done|]. discriminate.
  - intros q pr Hq Ho Hpend. specialize (Hnone q pr Hq Ho). rewrite Hpend in Hnone. done.
  - by exists [].
Qed.

(** C10, as the code has it.  A rejected activation is cached: once the
    promise cached for a record is rejected with [e], in every run made of
    calls of [activate(id)] and [deactivate(id)], settlements and
    continuations, the entry point is not called again, the rejected promise
    stays cached, and every call of [activate(id)] that settles throws [e].
    [deactivate(id)] does not clear it: it returns at once on a record that
    is not active. *)
Theorem rejected_activation_cached (h : Host) (r : registry) (id : string) (it : item)
  (cl : closure) (p : nat) (e : error) (t : list event) :
  isDisabled r id = false ->
  extensions r !! id = Some it ->
  closures r !! extension it = Some cl ->
  result cl = Some p ->
  isActive cl = false ->
  promises r !! p = Some {| owner := extension it; pstate := Rejected e |} ->
  none_pending r (extension it) ->
  Forall (fun w => s_id w = id -> s_extension w = extension it /\ awaits w = Some p) (waiting r) ->
  Forall (retry_event id) t ->
  entry_calls (extension it) (run h t r) = entry_calls (extension it) r /\
  (exists cl', closures (run h t r) !! extension it = Some cl' /\
               result cl' = Some p /\ isActive cl' = false) /\
  (exists new, finished (run h t r) = new ++ finished r /\
               Forall (fun o => o = Threw e) (calls_of id new)) /\
  snd (deactivate id (run h t r)) = run h t r.
Proof.
  intros He Hi Hcl Hres Hact Hp Hnone Hw Hall.
  pose proof (inv_retry_run h id it _ _ _ p e t r
                (rejected_inv h id it r cl p e 0 He Hi Hcl Hres Hact Hp Hnone Hw) Hall) as Hinv.
  pose proof (inv_deactivate h id it _ _ _ _ _ Hinv) as Hde.
  destruct Hinv as [_ _ (cl' & Hcl' & (Hres' & Hact' & _) & _) _ _ (new & Hnew & Hout) Hn].
  split; [done|]. split; [eauto|]. split.
  - exists new. split; [done|]. eapply Forall_impl; [exact Hout|]. simpl. congruence.
  - apply Hde. discriminate.
Qed.

Lemma rejected_activation_cached_witness :
  entry_calls 1 (run demo_host [EDeactivate "coc-demo"; EActivate 2 "coc-demo" None; EResume 2]
                     demo_rejected) = entry_calls 1 demo_rejected /\
  (exists cl', closures (run demo_host [EDeactivate "coc-demo"; EActivate 2 "coc-demo" None; EResume 2]
                             demo_rejected) !! 1 = Some cl' /\
               result cl' = Some 2 /\ isActive cl' = false) /\
  (exists new, finished (run demo_host [EDeactivate "coc-demo"; EActivate 2 "coc-demo" None; EResume 2]
                             demo_rejected) = new ++ finished demo_rejected /\
               Forall (fun o => o = Threw (ErrExtension 9)) (calls_of "coc-demo" new)) /\
  snd (deactivate "coc-demo"
         (run demo_host [EDeactivate "coc-demo"; EActivate 2 "coc-demo" None; EResume 2]
              demo_rejected)) =
  run demo_host [EDeactivate "coc-demo"; EActivate 2 "coc-demo" None; EResume 2] demo_rejected.
Proof.
  apply (rejected_activation_cached demo_host demo_rejected "coc-demo" demo_item
           {| c_id := "coc-demo"; c_root := "/ext/coc-demo"; c_filename := "/ext/coc-demo/index.js";
              c_manifest := demo_manifest None; isActive := false; result := Some 2;
              ext := Some {| has_deactivate := true |}; subscriptions := 0;
              exports := VUndefined |} 2 (ErrExtension 9)).
  - vm_compute. reflexivity.
  - vm_compute. reflexivity.
  - vm_compute. reflexivity.
  - reflexivity.
  - reflexivity.
  - vm_compute. reflexivity.
  - unfold none_pending. apply (bool_decide_unpack _). vm_compute. exact I.
  - constructor.
  - repeat constructor.
Defined.

(** C10 as stated does not hold: it has [deactivate(id)] clear the cached
    promise of a failed activation, so that the next [activate(id)] would
    call the entry point again.  After a rejected activation of "coc-demo",
    [deactivate] leaves the rejected promise cached, and the [activate]
    that follows throws the same error without a second call of the entry
    point. *)
Lemma deactivate_keeps_rejection :
  let r := snd (deactivate "coc-demo" demo_rejected) in
  let r' := run demo_host [EActivate 2 "coc-demo" None; EResume 2] r in
  (result <$> closures r !! 1) = Some (Some 2) /\
  entry_calls 1 demo_rejected = 1 /\
  entry_calls 1 r' = 1 /\
  calls_of "coc-demo" (finished r') = [Threw (ErrExtension 9); Threw (ErrExtension 9)].
Proof. vm_compute. repeat split; reflexivity. Qed.


Lemma activate_disabled_witness :
  run demo_host (map (fun ce => EActivate (fst ce) "coc-demo" (snd ce))
                     [(1, None); (2, Some (ErrExtension 3))])
      demo_disabled =
  set_finished (rev (map (fun ce : nat * option error =>
                            (fst ce, "coc-demo", Threw (ErrDisabled "coc-demo")))
                         [(1, None); (2, Some (ErrExtension 3))]) ++ finished demo_disabled)
               demo_disabled.
Proof.
  apply (activate_disabled demo_host demo_disabled "coc-demo"
           [(1, None); (2, Some (ErrExtension 3))]).
  vm_compute. reflexivity.
Defined.

Lemma deactivate_then_activate_witness :
  let r := demo_active in
  let r1 := snd (deactivate "coc-demo" r) in
  let r2 := activate demo_host 2 "coc-demo" None r1 in
  (exists cl1, closures r1 !! 1 = Some cl1 /\ isActive cl1 = false /\ result cl1 = None /\
               exports cl1 = VUndefined /\ subscriptions cl1 = next r) /\
  arrays r1 !! next r = Some [] /\
  (0 <> next r -> arrays r1 !! 0 = Some []) /\
  (forall d, d ∈ default [] (arrays r !! 0) -> d ∈ disposed r1) /\
  entry_log r2 = (1, next r) :: entry_log r /\
  (exists cl2, closures r2 !! 1 = Some cl2 /\ result cl2 = Some (S (next r)) /\
               isActive cl2 = false) /\
  promises r2 !! S (next r) = Some {| owner := 1; pstate := Pending |} /\
  ((None : option error) = None -> forall v,
     exists cl3, closures (settle (S (next r)) (inl v) r2) !! 1 = Some cl3 /\
                 isActive cl3 = true /\ exports cl3 = v /\ result cl3 = Some (S (next r))).
Proof.
  apply (deactivate_then_activate demo_host demo_active "coc-demo" demo_item
           {| c_id := "coc-demo"; c_root := "/ext/coc-demo"; c_filename := "/ext/coc-demo/index.js";
              c_manifest := demo_manifest None; isActive := true; result := Some 2;
              ext := Some {| has_deactivate := true |}; subscriptions := 0;
              exports := VNum 5 |} {| has_deactivate := true |} 2 None).
  - vm_compute. reflexivity.
  - vm_compute. reflexivity.
  - vm_compute. reflexivity.
  - reflexivity.
  - reflexivity.
Defined.

(** C7, as the code has it.  When the id can be activated and the manifest
    has no [activationEvents] field, or has the entry "*" in its list,
    [setupActiveEvents] calls [activate(id)] at once and subscribes to no
    event. *)
Theorem activation_events_absent_or_star (h : Host) (w : Workspace) (c : nat) (id : string)
  (pkg : manifest) (entry : option error) (r : registry) :
  canActivate r id = true ->
  (activationEvents pkg = None \/
   exists events, activationEvents pkg = Some events /\ "*" ∈ events) ->
  setupActiveEvents h w c id pkg entry r = activate h c id entry r /\
  listeners (setupActiveEvents h w c id pkg entry r) = listeners r.
Proof.
  intros Hcan Hev.
  assert (setupActiveEvents h w c id pkg entry r = activate h c id entry r) as ->.
  { unfold setupActiveEvents. rewrite Hcan. simpl.
    destruct Hev as [-> | (events & -> & Hin)]; [reflexivity |].
    assert (includes_star events = true) as ->; [| reflexivity].
    unfold includes_star. apply existsb_exists. exists "*". split.
    - by apply list_elem_of_In.
    - reflexivity. }
  split; [reflexivity |].
  unfold activate, extension_activate. repeat (case_match; simplify_eq; try reflexivity).
Qed.

Lemma activation_events_absent_or_star_witness :
  setupActiveEvents demo_host demo_workspace 1 "coc-demo"
    (demo_manifest (Some ["onLanguage:go"; "*"])) None demo_activated =
  activate demo_host 1 "coc-demo" None demo_activated /\
  listeners (setupActiveEvents demo_host demo_workspace 1 "coc-demo"
               (demo_manifest (Some ["onLanguage:go"; "*"])) None demo_activated) =
  listeners demo_activated.
Proof.
  apply activation_events_absent_or_star.
  - vm_compute. reflexivity.
  - right. exists ["onLanguage:go"; "*"]. split; [reflexivity|].
    apply list_elem_of_In. simpl. tauto.
Defined.

(** C7 as stated does not hold for an empty list: an empty array is a
    true value, so the branch that activates at once is not taken, and the
    loop over no events subscribes to nothing.  The registry is left as it
    was, where a call of [activate] would have run the entry point. *)
Lemma empty_activation_events_do_nothing :
  setupActiveEvents demo_host demo_workspace 1 "coc-demo" (demo_manifest (Some [])) None
    demo_activated = demo_activated /\
  canActivate demo_activated "coc-demo" = true /\
  entry_log demo_activated = [] /\
  entry_log (activate demo_host 1 "coc-demo" None demo_activated) = [(1, 0)].
Proof. vm_compute. repeat split; reflexivity. Qed.

End RegistryProps.

(* ===================================================================== *)
(** * Properties of the installer object                                  *)
(* ===================================================================== *)

Module InstallerObjectProps.
Import Installer InstallerDemo InstallerObject InstallerObjectDemo InstallerProps.

Lemma match_from_no_at (v : string) :
  Js.contains_char "@"%char v = false -> match_from v = None.
Proof.
  induction v as [|c v IH]; [reflexivity|]. simpl. intros H.
  apply orb_false_iff in H as [Hc Hv].
  destruct (Js.is_line_terminator c); [reflexivity|].
  rewrite (IH Hv). destruct v as [|d v']; [reflexivity|].
  destruct (Ascii.eqb d "@"%char) eqn:Hd; [|reflexivity].
  apply Ascii.eqb_eq in Hd as ->. discriminate.
Qed.

Lemma match_from_split (nm ver : string) :
  nm <> "" -> Js.has_line_terminator nm = false ->
  version_part ver = true -> Js.contains_char "@"%char ver = false ->
  match_from (nm +:+ "@" +:+ ver) = Some (nm, ver).
Proof.
  intros Hne Hlt Hver Hat. induction nm as [|c nm IH]; [done|].
  simpl in Hlt. apply orb_false_iff in Hlt as [Hc Hlt].
  change (String c nm +:+ "@" +:+ ver) with (String c (nm +:+ "@" +:+ ver)).
  simpl. rewrite Hc. destruct nm as [|d nm'].
  - change ("" +:+ "@" +:+ ver) with (String "@"%char ver).
    assert (match_from (String "@"%char ver) = None) as ->.
    { change (match_from (String "@"%char ver)) with
        (match match_from ver with
         | Some (nm, v) => Some (String "@"%char nm, v)
         | None =>
             match ver with
             | String d v =>
                 if Ascii.eqb d "@"%char && version_part v
                 then Some (String "@"%char EmptyString, v) else None
             | EmptyString => None
             end
         end).
      rewrite (match_from_no_at _ Hat). destruct ver as [|e ver']; [reflexivity|].
      destruct (Ascii.eqb e "@"%char) eqn:He; [|reflexivity].
      apply Ascii.eqb_eq in He as ->. discriminate. }
    by rewrite Hver.
  - by rewrite IH.
Qed.

Lemma match_name_version_split (nm ver : string) :
  nm <> "" -> Js.has_line_terminator nm = false ->
  version_part ver = true -> Js.contains_char "@"%char ver = false ->
  match_name_version (nm +:+ "@" +:+ ver) = Some (nm, ver).
Proof.
  intros Hne Hlt Hver Hat. destruct nm as [|c nm]; [done|].
  change (String c nm +:+ "@" +:+ ver) with (String c (nm +:+ "@" +:+ ver)).
  unfold match_name_version; fold match_name_version.
  change (String c (nm +:+ "@" +:+ ver)) with (String c nm +:+ "@" +:+ ver).
  by rewrite match_from_split.
Qed.

(** A definition "name at version" is taken apart as written: the
    constructor finds the name and the version again, whatever at signs and
    slashes the name holds. *)
Theorem new_installer_name_version (root npm nm ver : string) (fs : gmap string node) :
  nm <> "" -> Js.has_line_terminator nm = false ->
  version_part ver = true -> Js.contains_char "@"%char ver = false ->
  is_http (nm +:+ "@" +:+ ver) = false ->
  existsSync fs root = true ->
  new_installer root npm (nm +:+ "@" +:+ ver) fs =
    Ok ({| root := root; npm := npm; def := nm +:+ "@" +:+ ver;
           name := VStr nm; url := VUndefined; version := VStr ver |}, fs).
Proof.
  intros Hne Hlt Hver Hat Hhttp Hroot. unfold new_installer.
  by rewrite Hroot, Hhttp, match_name_version_split.
Qed.

Lemma new_installer_name_version_witness :
  new_installer "/data/extensions/node_modules" "/usr/bin/npm" "@yaegassy/coc-pylsp@0.6.1"
    {[ "/data/extensions/node_modules" := Dir ]} =
    Ok ({| root := "/data/extensions/node_modules"; npm := "/usr/bin/npm";
           def := "@yaegassy/coc-pylsp@0.6.1";
           name := VStr "@yaegassy/coc-pylsp"; url := VUndefined; version := VStr "0.6.1" |},
        {[ "/data/extensions/node_modules" := Dir ]}).
Proof.
  apply (new_installer_name_version "/data/extensions/node_modules" "/usr/bin/npm"
           "@yaegassy/coc-pylsp" "0.6.1" {[ "/data/extensions/node_modules" := Dir ]}).
  - discriminate.
  - reflexivity.
  - reflexivity.
  - reflexivity.
  - reflexivity.
  - vm_compute. reflexivity.
Defined.


(** ** install *)

(** [install] gives up on a URL that is not on github.com before anything
    is fetched, downloaded or written. *)
Theorem install_unsupported_url (h : Host) (s : state) (u : string) :
  url (self s) = VStr u -> u <> "" ->
  Js.startsWith u "https://github.com" = false ->
  exists s', install h s = (Throw (ErrUnsupportedUrl u), s') /\
             fs s' = fs s /\ temps s' = temps s /\ spawned s' = spawned s.
Proof.
  intros Hu Hne Hgh. unfold install, bind, gets, log, modify. simpl.
  unfold getInfo, bind, gets. simpl. rewrite Hu. simpl.
  destruct (String.eqb u "") eqn:E; [by apply String.eqb_eq in E|]. simpl.
  unfold getInfoFromUri, bind, gets, as_string, ret. simpl. rewrite Hu, Hgh. simpl.
  eexists. split; [reflexivity|]. done.
Qed.

Lemma install_unsupported_url_witness :
  let s := demo_state installed_demo_ext
             (demo_installer "https://gitlab.com/u/coc-x" (VStr "https://gitlab.com/u/coc-x")) in
  exists s', install demo_host s = (Throw (ErrUnsupportedUrl "https://gitlab.com/u/coc-x"), s') /\
             fs s' = fs s /\ temps s' = temps s /\ spawned s' = spawned s.
Proof.
  apply (install_unsupported_url demo_host
           (demo_state installed_demo_ext
              (demo_installer "https://gitlab.com/u/coc-x" (VStr "https://gitlab.com/u/coc-x")))
           "https://gitlab.com/u/coc-x").
  - reflexivity.
  - discriminate.
  - reflexivity.
Defined.

Lemma replace_caret_nonempty (req : string) : req <> "" -> replace_caret req <> "".
Proof.
  destruct req as [|c rest]; [done|]. intros _. simpl.
  destruct (Ascii.eqb c "^"%char); discriminate.
Qed.

(** When the host does not satisfy the range the package asks for,
    [install] fails with the error that says so and nothing is downloaded,
    written or spawned. *)
Theorem install_engine_mismatch (h : Host) (s s2 : state) (info : Info) (req : string) :
  getInfo h (snd (log ("Using npm from: " +:+ npm (self s)) false s)) = (Ok info, s2) ->
  engines_coc info = VStr req -> req <> "" ->
  semver_satisfies h (workspace_version h) (replace_caret req) = false ->
  install h s = (Throw (ErrRequiresCoc (replace_caret req)), s2) /\
  fs s2 = fs s /\ temps s2 = temps s /\ spawned s2 = spawned s.
Proof.
  intros Hinfo Hreq Hne Hsat.
  pose proof (keeps_getInfo h (snd (log ("Using npm from: " +:+ npm (self s)) false s))) as Hk.
  rewrite Hinfo in Hk. simpl in Hk. split; [|exact Hk].
  unfold install, bind at 1, gets. simpl.
  unfold bind at 1. unfold log at 1, modify.
  unfold log, modify in Hinfo. simpl in Hinfo.
  unfold bind at 1. rewrite Hinfo.
  unfold required_range. rewrite Hreq. simpl.
  destruct (String.eqb req "") eqn:E; [by apply String.eqb_eq in E|]. simpl.
  unfold bind, as_string, ret, check_engine. simpl. rewrite Hsat.
  destruct (String.eqb (replace_caret req) "") eqn:E2.
  - apply String.eqb_eq in E2. by apply replace_caret_nonempty in E2.
  - reflexivity.
Qed.

Lemma install_engine_mismatch_witness :
  let s := demo_state installed_demo_ext (demo_installer "demo-ext" VUndefined) in
  let s2 := snd (install old_host s) in
  install old_host s = (Throw (ErrRequiresCoc ">=0.0.1"), s2) /\
  fs s2 = fs s /\ temps s2 = temps s /\ spawned s2 = spawned s.
Proof.
  apply (install_engine_mismatch old_host
           (demo_state installed_demo_ext (demo_installer "demo-ext" VUndefined))
           (snd (install old_host
                   (demo_state installed_demo_ext (demo_installer "demo-ext" VUndefined))))
           info_demo_ext "^0.0.1").
  - vm_compute. reflexivity.
  - reflexivity.
  - discriminate.
  - reflexivity.
Defined.

(** ** doInstall and its temporary folder *)

Lemma existsSync_delete (f : gmap string node) (p : string) :
  existsSync (delete p f) p = false.
Proof. unfold existsSync, stat, MAXSYMLINKS. simpl. by rewrite lookup_delete_eq. Qed.

(** Whenever [doInstall] returns [true], the temporary folder it made is
    gone: moved to the extension's folder, or removed. *)
Theorem doInstall_removes_temp_folder (h : Host) (info : Info) (s s' : state) (nm : string) :
  info_name info = VStr nm ->
  doInstall h info s = (Ok true, s') ->
  existsSync (fs s') (temp_folder h nm (temps s)) = false.
Proof.
  unfold doInstall. intros Hnm H.
  peel H as i s0 Hi. unfold gets in Hi. injection Hi as <- <-.
  rewrite Hnm in H. peel H as nm0 s0 Hn. unfold as_string, ret in Hn. injection Hn as <- <-.
  peel H as f0 s1 Hf0. unfold gets in Hf0. injection Hf0 as <- <-.
  destruct (isSymbolicLink _ _); [discriminate|].
  peel H as tmpFolder s2 Htmp. unfold mkdtemp in Htmp. injection Htmp as <- _.
  fold (temp_folder h nm (temps s)) in H.
  peel H as ? s3 _. peel H as ? s4 _. peel H as ? s5 _.
  peel H as f1 s6 _. peel H as content s7 _. peel H as ? s8 _.
  peel H as f2 s9 _. peel H as ? s10 _. peel H as f3 s11 _. peel H as text s12 _.
  destruct (jsonc_parse h text) as [obj errors].
  destruct errors; [discriminate|].
  peel H as i' s13 _. peel H as deps s14 _.
  peel H as f4 s15 _. peel H as ? s16 _. peel H as ? s17 _. peel H as ? s18 _.
  peel H as f5 s19 Hf5. unfold gets in Hf5. injection Hf5 as <- <-.
  peel H as ? s20 Hrm. peel H as ? s21 Hl1. peel H as ? s22 Hl2.
  unfold ret in H. injection H as <-.
  apply log_fs in Hl1, Hl2. rewrite Hl2, Hl1.
  destruct (existsSync (fs s18) (temp_folder h nm (temps s))) eqn:He.
  - apply fs_update_ok in Hrm. unfold rmdirSync in Hrm.
    destruct (fs s18 !! temp_folder h nm (temps s)) as [[| |]|]; try discriminate.
    destruct (decide _); [|discriminate]. injection Hrm as <-. apply existsSync_delete.
  - unfold ret in Hrm. by injection Hrm as _ <-.
Qed.

Lemma doInstall_removes_temp_folder_witness :
  let s := demo_state installed_demo_ext (demo_installer "demo-ext" VUndefined) in
  existsSync (fs (snd (doInstall demo_host info_demo_ext s))) "/tmp/demo-ext-abcdef" = false.
Proof.
  apply (doInstall_removes_temp_folder demo_host info_demo_ext
           (demo_state installed_demo_ext (demo_installer "demo-ext" VUndefined))
           (snd (doInstall demo_host info_demo_ext
                   (demo_state installed_demo_ext (demo_installer "demo-ext" VUndefined))))
           "demo-ext").
  - reflexivity.
  - vm_compute. reflexivity.
Defined.

(** ** The arguments of the package manager *)

Lemma npm_is_not_yarn (exePath : string) : isNpmCommand exePath = true -> isYarn exePath = false.
Proof.
  unfold isNpmCommand, isYarn. generalize (basename exePath). intros n H.
  apply orb_true_iff in H as [H|H]; apply String.eqb_eq in H; subst; reflexivity.
Qed.

(** The first argument is always "install"; the flags for npm and the flag
    for yarn never come together; and the flags that restrict the install to
    production dependencies are there unless the package comes
    from github.com. *)
Theorem getInstallArguments_flags (exePath url : string) :
  head (getInstallArguments exePath url) = Some "install" /\
  ~ ("--no-global" ∈ getInstallArguments exePath url /\
     "--ignore-engines" ∈ getInstallArguments exePath url) /\
  ("--production" ∈ getInstallArguments exePath url <->
   Js.startsWith url "https://github.com" = false) /\
  ("--legacy-peer-deps" ∈ getInstallArguments exePath url <-> isNpmCommand exePath = true).
Proof.
  unfold getInstallArguments.
  destruct (isNpmCommand exePath) eqn:Hnpm; [rewrite (npm_is_not_yarn _ Hnpm)|];
    destruct (Js.startsWith url "https://github.com"); try destruct (isYarn exePath); simpl;
    (split; [reflexivity|]); (split; [intros [Ha Hb]|split; split; intros Hc; try done]).
  all: repeat match goal with
         | H : _ ∈ _ :: _ |- _ => apply elem_of_cons in H as [H|H]; [discriminate|]
         | H : _ ∈ [] |- _ => by apply elem_of_nil in H
         end.
  all: try (repeat (first [apply list_elem_of_here | apply list_elem_of_further])).
Qed.

End InstallerObjectProps.

Module PinProps.
Import Installer InstallerDemo InstallerObject InstallerObjectDemo InstallerProps.

Lemma keeps_self_ret {A} (a : A) : keeps_self (ret a).
Proof. by intros s. Qed.
Lemma keeps_self_throw {A} e : keeps_self (@throw A e).
Proof. by intros s. Qed.
Lemma keeps_self_lift {A} (x : Result A) : keeps_self (lift x).
Proof. by intros s. Qed.
Lemma keeps_self_gets {A} (f : state -> A) : keeps_self (gets f).
Proof. by intros s. Qed.
Lemma keeps_self_log msg b : keeps_self (log msg b).
Proof. by intros s. Qed.
Lemma keeps_self_fs_update f : keeps_self (fs_update f).
Proof. intros s. unfold fs_update. by destruct (f (fs s)). Qed.
Lemma keeps_self_set_fs f : keeps_self (modify (fun s => set_fs (f (fs s)) s)).
Proof. by intros s. Qed.
Lemma keeps_self_mkdtemp h p : keeps_self (mkdtemp h p).
Proof. by intros s. Qed.
Lemma keeps_self_as_string v : keeps_self (as_string v).
Proof. unfold as_string. destruct v; by intros ?. Qed.

Lemma keeps_self_bind {A B} (c : M A) (k : A -> M B) :
  keeps_self c -> (forall a, keeps_self (k a)) -> keeps_self (bind c k).
Proof.
  intros Hc Hk s. unfold bind. specialize (Hc s).
  destruct (c s) as [[a|e] s1]; simpl in *; [|done]. by rewrite (Hk a s1).
Qed.

Lemma keeps_self_log_each p q items : keeps_self (log_each p q items).
Proof.
  induction items as [|x items IH]; simpl; [apply keeps_self_ret|].
  apply keeps_self_bind; [apply keeps_self_log|]. by intros _.
Qed.

Lemma keeps_self_download_to h u dest : keeps_self (download_to h u dest).
Proof.
  unfold download_to. apply keeps_self_bind; [apply keeps_self_as_string|]. intros x.
  destruct (download h x) as [[progress files]|]; [|apply keeps_self_throw].
  apply keeps_self_bind; [apply keeps_self_log_each|]. intros _. by intros s.
Qed.

Lemma keeps_self_npm_install h u tmp : keeps_self (npm_install h u tmp).
Proof.
  unfold npm_install. apply keeps_self_bind; [apply keeps_self_gets|]. intros i.
  apply keeps_self_bind; [apply keeps_self_log|]. intros _.
  apply keeps_self_bind; [by intros s|]. intros _.
  destruct (run_npm h (npm i) _ tmp) as [|code out err written]; [apply keeps_self_throw|].
  apply keeps_self_bind; [by intros s|]. intros _.
  apply keeps_self_bind; [apply keeps_self_log_each|]. intros _.
  destruct (Z.eqb code 0); [apply keeps_self_ret|].
  apply keeps_self_bind; [|intros _; apply keeps_self_throw].
  destruct (String.eqb err ""); [apply keeps_self_ret|apply keeps_self_log].
Qed.

Lemma keeps_self_step {A} (c : M A) (s s1 : state) (a : A) :
  keeps_self c -> c s = (Ok a, s1) -> self s1 = self s.
Proof. intros Hc H. specialize (Hc s). by rewrite H in Hc. Qed.

Lemma obj_get_fold_set (f : string -> value) (k : string) (ks : list string) :
  k <> "__proto__" ->
  forall acc : list (string * value),
  obj_get (fold_left (fun o k0 => obj_set o k0 (f k0)) ks acc) k =
  if bool_decide (k ∈ ks) then Some (f k) else obj_get acc k.
Proof.
  intros Hproto. induction ks as [|k0 ks IH]; intros acc; simpl; [done|].
  rewrite IH, obj_get_set by done.
  destruct (bool_decide (k ∈ ks)) eqn:D.
  - apply bool_decide_eq_true in D.
    rewrite bool_decide_eq_true_2; [done|by apply list_elem_of_further].
  - apply bool_decide_eq_false in D. destruct (String.eqb_spec k k0) as [->|Hne].
    + rewrite bool_decide_eq_true_2; [done|apply list_elem_of_here].
    + rewrite bool_decide_eq_false_2; [done|].
      intros H. apply elem_of_cons in H as [H|H]; done.
Qed.

Lemma obj_get_keys {A} (o : list (string * A)) k :
  k ∈ obj_keys o <-> exists v, obj_get o k = Some v.
Proof.
  unfold obj_keys. induction o as [|[k0 v0] o IH]; simpl.
  - split; [intros H; by apply elem_of_nil in H|by intros [v ?]].
  - rewrite elem_of_cons, IH. destruct (String.eqb_spec k k0) as [->|Hne].
    + split; [eauto|by left].
    + split; [intros [?|?]; done|by right].
Qed.

(** Sorting keeps the value of every key. *)
Lemma obj_get_sort_dependencies (deps : list (string * value)) (k : string) :
  k <> "__proto__" -> obj_get (sort_dependencies deps) k = obj_get deps k.
Proof.
  intros Hproto. unfold sort_dependencies. rewrite obj_get_fold_set by done. simpl.
  case_bool_decide as Hin.
  - rewrite merge_sort_Permutation in Hin. apply obj_get_keys in Hin as [v ->]. done.
  - rewrite merge_sort_Permutation in Hin. destruct (obj_get deps k) eqn:E; [|done].
    exfalso. apply Hin. apply obj_get_keys. eauto.
Qed.

Lemma pin_dependency_get obj nm pin deps :
  nm <> "__proto__" -> pin_dependency obj nm pin = Ok deps -> obj_get deps nm = Some pin.
Proof.
  intros Hproto. unfold pin_dependency.
  destruct (get obj "dependencies") as [d|]; [|discriminate].
  destruct obj; try discriminate;
    (destruct (if truthy d then d else VObj []); try discriminate;
     [destruct (String.eqb nm "length"); [discriminate|]|]);
    intros [= <-]; rewrite obj_get_set by done; by rewrite String.eqb_refl.
Qed.

(** Whenever [doInstall] returns [true], the manifest it leaves maps the
    package to its pin: the URL the installer holds, or the installed
    version as a lower bound. *)
Theorem doInstall_pins_package (h : Host) (info : Info) (s s' : state) (nm : string) :
  info_name info = VStr nm -> nm <> "__proto__" ->
  doInstall h info s = (Ok true, s') ->
  exists written,
    readFile (fs s') (manifest_path h (self s)) =
      Ok (JSON_stringify h (VObj [("dependencies", VObj written)])) /\
    obj_get written nm = Some (pin_of (self s) info).
Proof.
  unfold doInstall. intros Hnm Hproto H.
  peel H as i s0 Hi. unfold gets in Hi. injection Hi as <- <-.
  rewrite Hnm in H. peel H as nm0 s0 Hn. unfold as_string, ret in Hn. injection Hn as <- <-.
  peel H as f0 s1 Hf0. unfold gets in Hf0. injection Hf0 as <- <-.
  destruct (isSymbolicLink _ _); [discriminate|].
  peel H as tmpFolder s2 H2. apply keeps_self_step in H2; [|apply keeps_self_mkdtemp].
  peel H as ? s3 H3. apply keeps_self_step in H3; [|apply keeps_self_log].
  peel H as ? s4 H4. apply keeps_self_step in H4; [|apply keeps_self_download_to].
  peel H as ? s5 H5. apply keeps_self_step in H5; [|apply keeps_self_log].
  peel H as f1 s6 H6. apply keeps_self_step in H6; [|apply keeps_self_gets].
  peel H as content s7 H7. apply keeps_self_step in H7; [|apply keeps_self_lift].
  peel H as ? s8 H8.
  apply keeps_self_step in H8;
    [|destruct (getDependencies h content); [apply keeps_self_ret|apply keeps_self_npm_install]].
  peel H as f2 s9 H9. apply keeps_self_step in H9; [|apply keeps_self_gets].
  peel H as ? s10 H10.
  apply keeps_self_step in H10;
    [|destruct (existsSync f2 _); [apply keeps_self_ret|apply keeps_self_fs_update]].
  peel H as f3 s11 H11. apply keeps_self_step in H11; [|apply keeps_self_gets].
  peel H as text s12 H12. apply keeps_self_step in H12; [|apply keeps_self_lift].
  destruct (jsonc_parse h text) as [obj errors].
  destruct errors; [discriminate|].
  peel H as i' s13 Hi'. unfold gets in Hi'. injection Hi' as <- <-.
  peel H as deps s14 Hdeps. unfold lift in Hdeps. injection Hdeps as Hdeps <-.
  assert (self s12 = self s) as Hself by congruence.
  rewrite Hself in Hdeps. fold (pin_of (self s) info) in Hdeps.
  exists (sort_dependencies deps). split.
  - peel H as f4 s15 _. peel H as ? s16 _. peel H as ? s17 _.
    peel H as ? s18 Hwrite.
    apply fs_update_ok in Hwrite. apply readFile_writeFile in Hwrite.
    peel H as f5 s19 Hf5. unfold gets in Hf5. injection Hf5 as <- <-.
    peel H as ? s20 Hrm. peel H as ? s21 Hl1. peel H as ? s22 Hl2.
    unfold ret in H. injection H as <-.
    apply log_fs in Hl1, Hl2. rewrite Hl2, Hl1.
    destruct (existsSync _ _).
    + apply fs_update_ok in Hrm. by eapply readFile_rmdirSync.
    + unfold ret in Hrm. by injection Hrm as _ <-.
  - rewrite obj_get_sort_dependencies by done. by eapply pin_dependency_get.
Qed.

Lemma doInstall_pins_package_witness :
  let s := demo_state installed_demo_ext (demo_installer "demo-ext" VUndefined) in
  exists written,
    readFile (fs (snd (doInstall demo_host info_demo_ext s)))
             (manifest_path demo_host (self s)) =
      Ok (JSON_stringify demo_host (VObj [("dependencies", VObj written)])) /\
    obj_get written "demo-ext" = Some (pin_of (self s) info_demo_ext).
Proof.
  apply (doInstall_pins_package demo_host info_demo_ext
           (demo_state installed_demo_ext (demo_installer "demo-ext" VUndefined))
           (snd (doInstall demo_host info_demo_ext
                   (demo_state installed_demo_ext (demo_installer "demo-ext" VUndefined))))
           "demo-ext").
  - reflexivity.
  - discriminate.
  - vm_compute. reflexivity.
Defined.

End PinProps.

(* ===================================================================== *)
(** * Properties of the data home and the management commands             *)
(* ===================================================================== *)

Module DataHomeProps.
Import Extensions Management InstallerObject InstallerProps.

Lemma follow_insert_fresh n (f : gmap string node) k v p res :
  f !! k = None -> follow n f p = Some res -> follow n (<[k := v]> f) p = Some res.
Proof.
  intros Hk. revert p. induction n as [|n IH]; intros p; simpl.
  - destruct (decide (p = k)) as [->|Hne]; [by rewrite Hk|].
    by rewrite lookup_insert_ne.
  - destruct (decide (p = k)) as [->|Hne]; [by rewrite Hk|].
    rewrite lookup_insert_ne by done. destruct (f !! p) as [[]|]; try done. apply IH.
Qed.

Lemma stat_insert_dir (f : gmap string node) p : stat (<[p := Dir]> f) p = Some Dir.
Proof. unfold stat, MAXSYMLINKS. simpl. by rewrite lookup_insert_eq. Qed.

Lemma existsSync_stat (f : gmap string node) p n : stat f p = Some n -> existsSync f p = true.
Proof. unfold existsSync. by intros ->. Qed.

Lemma ensure_manifest_ok (root : string) (f f' : gmap string node) :
  stat f root = Some Dir -> ensure_manifest root f = (true, f') ->
  stat f' root = Some Dir /\ existsSync f' (path_join root "package.json") = true.
Proof.
  unfold ensure_manifest. intros Hroot H.
  destruct (existsSync f (path_join root "package.json")) eqn:He.
  - by injection H as <-.
  - destruct (writeFile f (path_join root "package.json") EMPTY_MANIFEST) as [f1|e] eqn:Hw;
      [|discriminate]. injection H as <-.
    split.
    + unfold writeFile in Hw. unfold existsSync, stat in He.
      destruct (f !! path_join root "package.json") as [[c0| |t]|] eqn:Hl.
      * exfalso. unfold MAXSYMLINKS in He. simpl in He. by rewrite Hl in He.
      * discriminate.
      * destruct (follow MAXSYMLINKS f (path_join root "package.json")) as [[q n]|];
          [discriminate He|discriminate Hw].
      * injection Hw as <-. unfold stat in *.
        destruct (follow MAXSYMLINKS f root) as [res|] eqn:Hf; [|discriminate].
        by rewrite (follow_insert_fresh _ _ _ _ _ _ Hl Hf).
    + apply readFile_writeFile in Hw. unfold readFile in Hw. unfold existsSync.
      by destruct (stat f1 (path_join root "package.json")).
Qed.

(** When [checkRoot] answers [true], the data home is a directory that
    holds a dependency manifest, and a further call finds nothing to do. *)
Theorem checkRoot_true (root : string) (fs fs' : gmap string node) :
  checkRoot root fs = (true, fs') ->
  stat fs' root = Some Dir /\
  existsSync fs' (path_join root "package.json") = true /\
  checkRoot root fs' = (true, fs').
Proof.
  intros H.
  assert (stat fs' root = Some Dir /\ existsSync fs' (path_join root "package.json") = true)
    as [Hd Hm].
  { unfold checkRoot in H.
    destruct (existsSync fs root) eqn:He.
    - destruct (stat fs root) as [[c| |t]|] eqn:Hs; try discriminate.
      + destruct (unlinkSync fs root) as [fs2|] eqn:Hu; [|discriminate].
        unfold unlinkSync in Hu.
        assert (fs2 = delete root fs) as ->.
        { destruct (fs !! root) as [[]|]; congruence. }
        unfold mkdirpSync in H. rewrite lookup_delete_eq in H.
        eapply ensure_manifest_ok; [|exact H]. apply stat_insert_dir.
      + by eapply ensure_manifest_ok.
    - unfold mkdirpSync in H. destruct (fs !! root) as [n|] eqn:Hl.
      + unfold existsSync in He. destruct (stat fs root) as [[]|]; discriminate.
      + rewrite stat_insert_dir in H. eapply ensure_manifest_ok; [|exact H].
        apply stat_insert_dir. }
  split; [done|]. split; [done|].
  unfold checkRoot. rewrite (existsSync_stat _ _ _ Hd), Hd.
  unfold ensure_manifest. by rewrite Hm.
Qed.

Lemma checkRoot_true_witness :
  let fs' := {[ "/data/extensions" := Dir;
                "/data/extensions/package.json" := File EMPTY_MANIFEST ]} in
  stat fs' "/data/extensions" = Some Dir /\
  existsSync fs' "/data/extensions/package.json" = true /\
  checkRoot "/data/extensions" fs' = (true, fs').
Proof.
  apply (checkRoot_true "/data/extensions" {[ "/data/extensions" := File "stale" ]}
           {[ "/data/extensions" := Dir;
              "/data/extensions/package.json" := File EMPTY_MANIFEST ]}).
  vm_compute. reflexivity.
Defined.

End DataHomeProps.

Module DeactivateProps.
Import Extensions ExtensionsDemo.

Lemma item_deactivate_inactive k r :
  closures (item_deactivate k r) !! k = None \/
  exists cl, closures (item_deactivate k r) !! k = Some cl /\ isActive cl = false.
Proof.
  unfold item_deactivate. destruct (closures r !! k) as [cl|] eqn:Hcl; [|by left].
  destruct (isActive cl) eqn:Hact; simpl; [|right; by exists cl].
  right. destruct (ext cl) as [[[]]|]; simpl; rewrite lookup_insert_eq; by eexists.
Qed.

Lemma item_deactivate_idempotent k r :
  item_deactivate k (item_deactivate k r) = item_deactivate k r.
Proof.
  destruct (item_deactivate_inactive k r) as [H|(cl & H & Hact)];
    unfold item_deactivate at 1; rewrite H; [done|by rewrite Hact].
Qed.

(** Deactivating twice is deactivating once: the second call finds the
    record inactive and returns at once, so subscriptions are disposed and
    the module's [deactivate] is called by the first call only. *)
Theorem deactivate_idempotent (id : string) (r : registry) :
  deactivate id (snd (deactivate id r)) = (fst (deactivate id r), snd (deactivate id r)).
Proof.
  unfold deactivate at 2 3 4. destruct (extensions r !! id) as [it|] eqn:Hit; simpl.
  - unfold deactivate.
    assert (extensions (item_deactivate (extension it) r) = extensions r) as ->.
    { unfold item_deactivate. destruct (closures r !! extension it) as [cl|]; [|done].
      destruct (isActive cl); [|done]. simpl. by destruct (ext cl) as [[[]]|]. }
    by rewrite Hit, item_deactivate_idempotent.
  - unfold deactivate. by rewrite Hit.
Qed.

End DeactivateProps.

Module ToggleProps.
Import Extensions ExtensionsDemo Management.

Lemma item_deactivate_membership k r : membership (item_deactivate k r) = membership r.
Proof.
  unfold item_deactivate. destruct (closures r !! k) as [cl|]; [|done].
  destruct (isActive cl); [|done]. simpl. by destruct (ext cl) as [[[]]|].
Qed.

Lemma deactivate_membership id r : membership (snd (deactivate id r)) = membership r.
Proof.
  unfold deactivate. destruct (extensions r !! id); [|done]. apply item_deactivate_membership.
Qed.

Lemma unloadExtension_membership id r :
  membership (unloadExtension id r) = (disabled r, delete id (extensions r), activated r).
Proof.
  unfold unloadExtension. destruct (extensions r !! id) eqn:E.
  - pose proof (deactivate_membership id r) as H. unfold membership in *. simpl.
    by injection H as -> _ ->.
  - unfold membership. by rewrite delete_id.
Qed.

Lemma activate_membership h c id entry r : membership (activate h c id entry r) = membership r.
Proof.
  unfold activate, extension_activate.
  repeat (case_match; simpl in *; simplify_eq; try done).
Qed.

Lemma active_membership h c id entry r : membership (active h c id entry r) = membership r.
Proof. unfold active. case_match; [apply activate_membership|done]. Qed.

Lemma setup_events_membership h w c id entry events : forall registered r,
  membership (setup_events h w c id entry events registered r) = membership r.
Proof.
  induction events as [|ev events IH]; intros registered r; [done|].
  simpl. repeat case_match; rewrite ?active_membership, ?IH; done.
Qed.

Lemma setupActiveEvents_membership h w c id pkg entry r :
  membership (setupActiveEvents h w c id pkg entry r) = membership r.
Proof.
  unfold setupActiveEvents.
  repeat case_match; rewrite ?activate_membership, ?setup_events_membership; done.
Qed.

Lemma createExtension_membership h w c root pkg type entry r :
  fst (fst (membership (createExtension h w c root pkg type entry r))) = disabled r /\
  snd (membership (createExtension h w c root pkg type entry r)) = activated r.
Proof.
  unfold createExtension. cbv zeta.
  match goal with |- context [if ?b then _ else _] => destruct b end;
    [rewrite setupActiveEvents_membership|]; done.
Qed.

Lemma loadExtension_disabled h w c folder pkg isLocal entry r :
  disabled (snd (loadExtension h w c folder pkg isLocal entry r)) = disabled r.
Proof.
  unfold loadExtension. case_match; [done|]. simpl.
  pose proof (createExtension_membership h w c folder pkg (if isLocal then Local else Global)
                entry (unloadExtension (pkg_name pkg) r)) as [Hc _].
  simpl in Hc. rewrite Hc.
  pose proof (unloadExtension_membership (pkg_name pkg) r) as Hu. by injection Hu as ->.
Qed.

Lemma toggleExtension_flips_aux (h : Host) (ih : Installer.Host) (w : Workspace) (c : nat)
  (root : string) (fs : gmap string node) (pkg : option manifest) (entry : option error)
  (id : string) (r : registry) :
  isDisabled (snd (toggleExtension h ih w c root fs pkg entry id r)) id = negb (isDisabled r id).
Proof.
  unfold toggleExtension, getExtensionState.
  destruct (isDisabled r id) eqn:Hd; simpl.
  - unfold isDisabled.
    apply bool_decide_eq_false.
    repeat case_match; rewrite ?loadExtension_disabled; simpl;
      (intros Hin; apply elem_of_difference in Hin as [_ Hin]; apply Hin; by apply elem_of_singleton).
  - assert (forall r0, disabled r0 = disabled r ->
              isDisabled (unloadExtension id (set_disabled (disabled r0 ∪ {[id]}) r0)) id = true)
      as Hun.
    { intros r0 Hr0. unfold isDisabled. apply bool_decide_eq_true.
      pose proof (unloadExtension_membership id (set_disabled (disabled r0 ∪ {[id]}) r0)) as H.
      injection H as -> _ _. simpl. apply elem_of_union. right. by apply elem_of_singleton. }
    destruct (extensions r !! id) eqn:Hit; [destruct (isActivated r id)|]; simpl;
      apply Hun; try done.
    pose proof (deactivate_membership id r) as H. by injection H as -> _ _.
Qed.

(** [toggleExtension] flips the disabled flag of the id, whatever its state,
    and pushes the new flag to the database under the key of the id. *)
Theorem toggleExtension_flips (h : Host) (ih : Installer.Host) (w : Workspace) (c : nat)
  (root : string) (fs : gmap string node) (pkg : option manifest) (entry : option error)
  (id : string) (r : registry) :
  fst (toggleExtension h ih w c root fs pkg entry id r) =
    ("extension." +:+ id +:+ ".disabled", negb (isDisabled r id)) /\
  isDisabled (snd (toggleExtension h ih w c root fs pkg entry id r)) id = negb (isDisabled r id).
Proof.
  split; [|apply toggleExtension_flips_aux].
  unfold toggleExtension, getExtensionState.
  destruct (isDisabled r id); [done|].
  by destruct (extensions r !! id); [destruct (isActivated r id)|].
Qed.

(** Toggling an id that is not disabled unloads it: it is no longer
    registered, its state is "disabled", and [activate] fails with the
    error for a disabled extension. *)
Theorem toggleExtension_unloads (h : Host) (ih : Installer.Host) (w : Workspace) (c : nat)
  (root : string) (fs : gmap string node) (pkg : option manifest) (entry : option error)
  (id : string) (r : registry) :
  isDisabled r id = false ->
  let r' := snd (toggleExtension h ih w c root fs pkg entry id r) in
  has r' id = false /\
  getExtensionState r' id = SDisabled /\
  forall c' entry', activate h c' id entry' r' = finish c' id (Threw (ErrDisabled id)) r'.
Proof.
  intros Hd r'.
  assert (isDisabled r' id = true) as Hd'.
  { pose proof (toggleExtension_flips_aux h ih w c root fs pkg entry id r) as H.
    subst r'. by rewrite H, Hd. }
  assert (has r' id = false) as Hhas.
  { subst r'. unfold toggleExtension, getExtensionState. rewrite Hd. unfold has.
    destruct (extensions r !! id) eqn:Hit; [destruct (isActivated r id)|]; simpl;
      match goal with
      | |- context [extensions (unloadExtension id ?r0)] =>
          pose proof (unloadExtension_membership id r0) as Hm
      end; injection Hm as _ -> _; by rewrite lookup_delete_eq. }
  split; [done|]. split.
  - unfold getExtensionState. by rewrite Hd'.
  - intros c' entry'. unfold activate. by rewrite Hd'.
Qed.

Lemma toggleExtension_unloads_witness :
  let r' := snd (toggleExtension demo_host InstallerDemo.demo_host demo_workspace 7
                   "/data/extensions" ∅ None None "coc-demo" demo_active) in
  has r' "coc-demo" = false /\
  getExtensionState r' "coc-demo" = SDisabled /\
  forall c' entry', activate demo_host c' "coc-demo" entry' r' =
                    finish c' "coc-demo" (Threw (ErrDisabled "coc-demo")) r'.
Proof.
  apply (toggleExtension_unloads demo_host InstallerDemo.demo_host demo_workspace 7
           "/data/extensions" ∅ None None "coc-demo" demo_active).
  vm_compute. reflexivity.
Defined.

Lemma deactivate_active id r it cl e :
  extensions r !! id = Some it ->
  closures r !! extension it = Some cl ->
  isActive cl = true ->
  ext cl = Some e ->
  extensions (snd (deactivate id r)) = extensions r /\
  (exists cl', closures (snd (deactivate id r)) !! extension it = Some cl' /\
               isActive cl' = false) /\
  teardown_log (snd (deactivate id r)) =
    (if has_deactivate e then [extension it] else []) ++ teardown_log r /\
  disposed (snd (deactivate id r)) =
    disposed r ++ rev (default [] (arrays r !! subscriptions cl)).
Proof.
  intros Hit Hcl Hact Hext. unfold deactivate. rewrite Hit. simpl.
  unfold item_deactivate. rewrite Hcl, Hact, Hext. simpl.
  destruct e as [[]]; simpl; (split; [done|]); (split; [|done]);
    eexists; (split; [apply lookup_insert_eq|done]).
Qed.

Lemma unload_inactive id r it cl :
  extensions r !! id = Some it ->
  closures r !! extension it = Some cl ->
  isActive cl = false ->
  teardown_log (unloadExtension id r) = teardown_log r /\
  disposed (unloadExtension id r) = disposed r.
Proof.
  intros Hit Hcl Hact. unfold unloadExtension, deactivate. rewrite Hit. simpl.
  unfold item_deactivate. by rewrite Hcl, Hact.
Qed.

(** Toggling an active extension tears it down once: its subscriptions are
    disposed and the [deactivate] of its module is called a single time,
    although the record is deactivated twice on the way, by the toggle and
    by the unload. *)
Theorem toggleExtension_teardown_once (h : Host) (ih : Installer.Host) (w : Workspace)
  (c : nat) (root : string) (fs : gmap string node) (pkg : option manifest)
  (entry : option error) (id : string) (r : registry) (it : item) (cl : closure)
  (e : ExtensionExport) :
  isDisabled r id = false ->
  extensions r !! id = Some it ->
  closures r !! extension it = Some cl ->
  isActive cl = true ->
  ext cl = Some e ->
  let r' := snd (toggleExtension h ih w c root fs pkg entry id r) in
  teardown_log r' = (if has_deactivate e then [extension it] else []) ++ teardown_log r /\
  disposed r' = disposed r ++ rev (default [] (arrays r !! subscriptions cl)).
Proof.
  intros Hd Hit Hcl Hact Hext r'. subst r'.
  unfold toggleExtension, getExtensionState, isActivated, closure_of.
  rewrite Hd, Hit, Hcl, Hact. simpl.
  destruct (deactivate_active id r it cl e Hit Hcl Hact Hext)
    as (Hx & (cl' & Hcl' & Hact') & Ht & Hdis).
  destruct (unload_inactive id
              (set_disabled (disabled (deactivate id r).2 ∪ {[id]}) (deactivate id r).2)
              it cl') as [-> ->]; simpl; try done.
  by rewrite Hx.
Qed.

Lemma toggleExtension_teardown_once_witness :
  let r' := snd (toggleExtension demo_host InstallerDemo.demo_host demo_workspace 7
                   "/data/extensions" ∅ None None "coc-demo" demo_active) in
  teardown_log r' = [1] ++ teardown_log demo_active /\
  disposed r' = disposed demo_active ++ rev (default [] (arrays demo_active !! 0)).
Proof.
  apply (toggleExtension_teardown_once demo_host InstallerDemo.demo_host demo_workspace 7
           "/data/extensions" ∅ None None "coc-demo" demo_active demo_item
           {| c_id := "coc-demo"; c_root := "/ext/coc-demo";
              c_filename := "/ext/coc-demo/index.js"; c_manifest := demo_manifest None;
              isActive := true; result := Some 2; ext := Some {| has_deactivate := true |};
              subscriptions := 0; exports := VNum 5 |}
           {| has_deactivate := true |}).
  - vm_compute. reflexivity.
  - vm_compute. reflexivity.
  - vm_compute. reflexivity.
  - reflexivity.
  - reflexivity.
Defined.

End ToggleProps.

Module CleanProps.
Import Extensions ExtensionsDemo Management ManagementDemo.

Lemma within_refl (p : string) : within p p = true.
Proof. unfold within. by rewrite String.eqb_refl. Qed.

Lemma remove_lookup_Some (f : gmap string node) p q n :
  remove f p !! q = Some n -> f !! q = Some n.
Proof. unfold remove. intros H. by apply map_lookup_filter_Some in H as [? _]. Qed.

Lemma remove_lookup_self (f : gmap string node) p : remove f p !! p = None.
Proof.
  unfold remove. apply map_lookup_filter_None. right. intros n _. simpl.
  by rewrite within_refl.
Qed.

Lemma remove_lookup_None (f : gmap string node) p q : f !! q = None -> remove f p !! q = None.
Proof. unfold remove. intros H. apply map_lookup_filter_None. by left. Qed.


Lemma unloadExtension_lookup id id' r :
  extensions (unloadExtension id r) !! id' =
  if decide (id = id') then None else extensions r !! id'.
Proof.
  pose proof (ToggleProps.unloadExtension_membership id r) as H. injection H as _ -> _.
  destruct (decide (id = id')) as [->|Hne]; [apply lookup_delete_eq|by apply lookup_delete_ne].
Qed.

Lemma clean_each_removed (fs : gmap string node) (dir : string) (ids : list string) :
  forall (r0 : registry) (f0 : gmap string node) (res0 res : list string) r' fs',
  clean_each dir ids r0 f0 res0 = (Ok res, r', fs') ->
  (forall q n, f0 !! q = Some n -> fs !! q = Some n) ->
  (forall id, id ∈ res0 ->
     (exists n, fs !! path_join dir id = Some n /\ forall t, n <> Symlink t) /\
     f0 !! path_join dir id = None /\ extensions r0 !! id = None) ->
  forall id, id ∈ res ->
    (exists n, fs !! path_join dir id = Some n /\ forall t, n <> Symlink t) /\
    fs' !! path_join dir id = None /\ extensions r' !! id = None.
Proof.
  induction ids as [|id0 ids IH]; intros r0 f0 res0 res r' fs' H Hsub Hres0; simpl in H.
  - by injection H as <- <- <-.
  - unfold lstat in H. destruct (f0 !! path_join dir id0) as [n|] eqn:Hl; [|discriminate].
    assert (forall f1 r1,
              f1 = remove f0 (path_join dir id0) -> r1 = unloadExtension id0 r0 ->
              (forall t, n <> Symlink t) ->
              clean_each dir ids r1 f1 (res0 ++ [id0]) = (Ok res, r', fs') ->
              forall id, id ∈ res ->
                (exists n, fs !! path_join dir id = Some n /\ forall t, n <> Symlink t) /\
                fs' !! path_join dir id = None /\ extensions r' !! id = None) as Hstep.
    { intros f1 r1 -> -> Hn H1. eapply IH; [exact H1| |].
      - intros q m Hq. apply Hsub. by eapply remove_lookup_Some.
      - intros id Hid. apply elem_of_app in Hid as [Hid|Hid].
        + destruct (Hres0 id Hid) as (HP & Hf & Hx). split; [done|]. split.
          * by apply remove_lookup_None.
          * rewrite unloadExtension_lookup. by destruct (decide (id0 = id)).
        + apply list_elem_of_singleton in Hid as ->. split; [|split].
          * exists n. split; [by apply Hsub|done].
          * apply remove_lookup_self.
          * rewrite unloadExtension_lookup. by destruct (decide (id0 = id0)). }
    destruct n as [c| |t].
    + eapply Hstep; try done.
    + eapply Hstep; try done.
    + eapply IH; eauto.
Qed.

(** What [cleanExtensions] returns are global extensions whose folder was
    a real file or directory, never a symbolic link; afterwards the folder of
    each is gone and none of them is registered. *)
Theorem cleanExtensions_removed (ih : Installer.Host) (root : string) (r r' : registry)
  (fs fs' : gmap string node) (res : list string) (id : string) :
  cleanExtensions ih root r fs = (Ok res, r', fs') ->
  id ∈ res ->
  (exists n, lstat fs (path_join (modulesFolder ih root) id) = Some n /\
             forall t, n <> Symlink t) /\
  lstat fs' (path_join (modulesFolder ih root) id) = None /\
  has r' id = false.
Proof.
  unfold cleanExtensions. intros H Hid.
  destruct (existsSync fs (modulesFolder ih root)); simpl in H.
  - destruct (globalExtensions ih root fs) as [ids|e]; [|discriminate].
    destruct (clean_each_removed fs (modulesFolder ih root) ids r fs [] res r' fs' H) with id
      as (HP & Hf & Hx); try done.
    + intros id0 Hin. by apply elem_of_nil in Hin.
    + unfold has, lstat. by rewrite Hx.
  - injection H as <- _ _. by apply elem_of_nil in Hid.
Qed.

Lemma cleanExtensions_removed_witness :
  (exists n, lstat home_with_three
               (path_join (modulesFolder InstallerDemo.demo_host "/data/extensions") "coc-json") =
             Some n /\ forall t, n <> Symlink t) /\
  lstat (snd (cleanExtensions InstallerDemo.demo_host "/data/extensions" empty_registry
                home_with_three))
        (path_join (modulesFolder InstallerDemo.demo_host "/data/extensions") "coc-json") = None /\
  has (snd (fst (cleanExtensions InstallerDemo.demo_host "/data/extensions" empty_registry
                   home_with_three))) "coc-json" = false.
Proof.
  apply (cleanExtensions_removed InstallerDemo.demo_host "/data/extensions" empty_registry
           (snd (fst (cleanExtensions InstallerDemo.demo_host "/data/extensions" empty_registry
                        home_with_three)))
           home_with_three
           (snd (cleanExtensions InstallerDemo.demo_host "/data/extensions" empty_registry
                   home_with_three))
           ["9"; "10"; "coc-json"] "coc-json").
  - vm_compute. reflexivity.
  - do 2 apply list_elem_of_further. apply list_elem_of_here.
Defined.

(** ** The manifest and the folders of the extensions *)

Lemma append_assoc (a b c : string) : (a +:+ b) +:+ c = a +:+ (b +:+ c).
Proof.
  induction a as [|x a IH]; [reflexivity|].
  change (String x ((a +:+ b) +:+ c) = String x (a +:+ (b +:+ c))). by rewrite IH.
Qed.











End CleanProps.

Module UninstallProps.
Import Extensions ExtensionsDemo Management ManagementDemo InstallerProps CleanProps.
Import Installer(sort_dependencies).













End UninstallProps.

Module FilterProps.
Import Extensions ExtensionsDemo Management ManagementDemo.

Lemma map_set_elem (m : list (string * string)) k v k' v' :
  (k', v') ∈ map_set m k v -> (k', v') ∈ m \/ (k' = k /\ v' = v).
Proof.
  induction m as [|[k0 v0] m IH]; simpl.
  - intros H. apply list_elem_of_singleton in H. injection H as -> ->. by right.
  - destruct (String.eqb k k0) eqn:E.
    + apply String.eqb_eq in E as ->. intros H. apply elem_of_cons in H as [H|H].
      * injection H as -> ->. by right.
      * left. by apply list_elem_of_further.
    + intros H. apply elem_of_cons in H as [H|H].
      * injection H as -> ->. left. apply list_elem_of_here.
      * destruct (IH H) as [H1|H1]; [left; by apply list_elem_of_further|by right].
Qed.

Lemma map_set_keys (m : list (string * string)) k v :
  map fst (map_set m k v) = if bool_decide (k ∈ map fst m) then map fst m else map fst m ++ [k].
Proof.
  induction m as [|[k0 v0] m IH]; simpl; [done|].
  destruct (String.eqb k k0) eqn:E.
  - apply String.eqb_eq in E as ->. simpl.
    rewrite bool_decide_eq_true_2; [done|apply list_elem_of_here].
  - apply String.eqb_neq in E. simpl. rewrite IH.
    destruct (bool_decide (k ∈ map fst m)) eqn:D.
    + apply bool_decide_eq_true in D.
      rewrite bool_decide_eq_true_2; [done|by apply list_elem_of_further].
    + apply bool_decide_eq_false in D.
      rewrite bool_decide_eq_false_2; [done|].
      intros H. apply elem_of_cons in H as [H|H]; done.
Qed.

Lemma map_set_has (m : list (string * string)) k v : k ∈ map fst (map_set m k v).
Proof.
  rewrite map_set_keys. case_bool_decide; [done|].
  apply elem_of_app. right. apply list_elem_of_here.
Qed.

Lemma map_set_keeps (m : list (string * string)) k v k' :
  k' ∈ map fst m -> k' ∈ map fst (map_set m k v).
Proof.
  intros H. rewrite map_set_keys. case_bool_decide; [done|]. apply elem_of_app. by left.
Qed.

Lemma map_set_NoDup (m : list (string * string)) k v :
  NoDup (map fst m) -> NoDup (map fst (map_set m k v)).
Proof.
  intros H. rewrite map_set_keys. case_bool_decide as Hk; [done|].
  apply NoDup_app. split; [done|]. split.
  - intros x Hx Hx'. apply list_elem_of_singleton in Hx' as ->. done.
  - apply NoDup_singleton.
Qed.

(** What the first loop keeps: each entry is a definition that was asked
    for, under its name; no name comes twice; every name asked for is there. *)
Lemma names_map_spec (names : list string) :
  (forall k v, (k, v) ∈ names_map names -> v ∈ names /\ getExtensionName v = k) /\
  NoDup (map fst (names_map names)) /\
  (forall def, def ∈ names -> getExtensionName def <> "" ->
               getExtensionName def ∈ map fst (names_map names)).
Proof.
  unfold names_map.
  assert (forall (done_ todo : list string) (m : list (string * string)),
            (forall k v, (k, v) ∈ m -> v ∈ done_ /\ getExtensionName v = k) ->
            NoDup (map fst m) ->
            (forall def, def ∈ done_ -> getExtensionName def <> "" ->
                         getExtensionName def ∈ map fst m) ->
            let m' := fold_left (fun m def =>
                                   let name := getExtensionName def in
                                   if String.eqb name "" then m else map_set m name def)
                                todo m in
            (forall k v, (k, v) ∈ m' -> v ∈ done_ ++ todo /\ getExtensionName v = k) /\
            NoDup (map fst m') /\
            (forall def, def ∈ done_ ++ todo -> getExtensionName def <> "" ->
                         getExtensionName def ∈ map fst m')) as Hgen.
  { intros done_ todo. revert done_. induction todo as [|def todo IH]; intros done_ m H1 H2 H3.
    - simpl. rewrite app_nil_r. done.
    - simpl. replace (done_ ++ def :: todo) with ((done_ ++ [def]) ++ todo)
        by (by rewrite <- app_assoc).
      apply IH.
      + intros k v Hkv. destruct (String.eqb (getExtensionName def) "") eqn:E.
        * destruct (H1 k v Hkv) as [Hv Hk]. split; [|done]. apply elem_of_app. by left.
        * apply map_set_elem in Hkv as [Hkv|[-> ->]].
          -- destruct (H1 k v Hkv) as [Hv Hk]. split; [|done]. apply elem_of_app. by left.
          -- split; [|done]. apply elem_of_app. right. apply list_elem_of_here.
      + destruct (String.eqb (getExtensionName def) ""); [done|by apply map_set_NoDup].
      + intros d Hd Hne. apply elem_of_app in Hd as [Hd|Hd].
        * destruct (String.eqb (getExtensionName def) ""); [by apply H3|].
          apply map_set_keeps. by apply H3.
        * apply list_elem_of_singleton in Hd as ->.
          destruct (String.eqb (getExtensionName def) "") eqn:E.
          -- by apply String.eqb_eq in E.
          -- apply map_set_has. }
  apply (Hgen [] names []).
  - intros k v H. by apply elem_of_nil in H.
  - constructor.
  - intros def H. by apply elem_of_nil in H.
Qed.

Lemma installed_spec ih root (fs : gmap string node) (deps : list (string * value)) :
  (forall key val, (key, VStr val) ∈ deps ->
     existsSync fs (path_join (path_join (modulesFolder ih root) key) "package.json") = true ->
     key ∈ fst (installed ih root fs deps)) /\
  (forall key, key ∈ fst (installed ih root fs deps) -> key ∈ obj_keys deps).
Proof.
  unfold installed.
  set (f := fun (acc : list string * list string) (kv : string * value) =>
              match snd kv with
              | VStr val =>
                  if existsSync fs (path_join (path_join (modulesFolder ih root) (fst kv))
                                              "package.json")
                  then (fst acc ++ [fst kv],
                        if InstallerObject.is_http val then snd acc ++ [val] else snd acc)
                  else acc
              | _ => acc
              end).
  assert (forall deps acc key, key ∈ fst acc -> key ∈ fst (fold_left f deps acc)) as Hmono.
  { clear deps. induction deps as [|kv deps IH]; intros acc key H; [done|]. simpl.
    apply IH. unfold f. destruct (snd kv); try done. case_match; [|done]. simpl.
    apply elem_of_app. by left. }
  assert (forall deps acc key, key ∈ fst (fold_left f deps acc) ->
                               key ∈ fst acc \/ key ∈ obj_keys deps) as Hback.
  { clear deps. induction deps as [|kv deps IH]; intros acc key H; [by left|]. simpl in H.
    apply IH in H as [H|H].
    - unfold f in H. unfold obj_keys. simpl. destruct (snd kv); try (by left).
      case_match; [|by left]. simpl in H. apply elem_of_app in H as [H|H]; [by left|].
      apply list_elem_of_singleton in H as ->. right. apply list_elem_of_here.
    - right. unfold obj_keys in *. simpl. by apply list_elem_of_further. }
  split.
  - induction deps as [|kv deps IH] using rev_ind; intros key val Hin He.
    + by apply elem_of_nil in Hin.
    + rewrite fold_left_app. simpl. apply elem_of_app in Hin as [Hin|Hin].
      * unfold f at 1. destruct (snd kv); try (by eapply IH). case_match; [|by eapply IH].
        simpl. apply elem_of_app. left. by eapply IH.
      * apply list_elem_of_singleton in Hin as <-. unfold f at 1. simpl. rewrite He. simpl.
        apply elem_of_app. right. apply list_elem_of_here.
  - intros key H. apply Hback in H as [H|H]; [by apply elem_of_nil in H|done].
Qed.

Lemma existsb_eqb_elem (x : string) (l : list string) :
  existsb (String.eqb x) l = true <-> x ∈ l.
Proof.
  induction l as [|y l IH]; simpl.
  - split; [discriminate|]. intros H. by apply elem_of_nil in H.
  - rewrite orb_true_iff, IH, elem_of_cons. by rewrite String.eqb_eq.
Qed.

Lemma filtered_elem ih root fs r names res def :
  filterGlobalExtensions ih root fs r names = Ok res -> def ∈ res ->
  exists json exists_ urls,
    loadJson ih root fs = Ok json /\
    (exists_, urls) =
      installed ih root fs
        (if truthy json then
           match get json "dependencies" with
           | Ok d => if truthy d then Installer.own_entries d else []
           | Throw _ => []
           end
         else []) /\
    (getExtensionName def, def) ∈ names_map names /\
    dropped r exists_ urls (getExtensionName def) = false.
Proof.
  unfold filterGlobalExtensions. intros H Hdef.
  destruct (loadJson ih root fs) as [json|e]; [|discriminate].
  destruct (installed ih root fs _) as [exists_ urls] eqn:Hi.
  injection H as <-. apply list_elem_of_fmap in Hdef as [[k v] [-> Hkv]].
  apply list_elem_of_filter in Hkv as [Hdrop Hkv]. simpl in *.
  destruct (names_map_spec names) as (Hm & _ & _). destruct (Hm k v Hkv) as [_ <-].
  exists json, exists_, urls. by rewrite Hi.
Qed.

(** What [filterGlobalExtensions] returns is among the definitions asked
    for, and names no extension that is disabled, registered, or listed in
    the manifest with its [package.json] in place. *)
Theorem filterGlobalExtensions_sound (ih : Installer.Host) (root : string)
  (fs : gmap string node) (r : registry) (names res : list string) (def : string) :
  filterGlobalExtensions ih root fs r names = Ok res ->
  def ∈ res ->
  def ∈ names /\
  isDisabled r (getExtensionName def) = false /\
  has r (getExtensionName def) = false /\
  forall json d val,
    loadJson ih root fs = Ok json -> truthy json = true ->
    get json "dependencies" = Ok d -> truthy d = true ->
    (getExtensionName def, VStr val) ∈ Installer.own_entries d ->
    existsSync fs (path_join (path_join (modulesFolder ih root) (getExtensionName def))
                             "package.json") = false.
Proof.
  intros H Hdef.
  destruct (filtered_elem _ _ _ _ _ _ _ H Hdef) as (json & exists_ & urls & Hj & Hi & Hkv & Hd).
  destruct (names_map_spec names) as (Hm & _ & _). destruct (Hm _ _ Hkv) as [Hin _].
  unfold dropped in Hd. apply orb_false_iff in Hd as [Hd1 Hd2].
  apply orb_false_iff in Hd1 as [Hdis Hhas]. apply orb_false_iff in Hd2 as [_ Hex].
  repeat split; try done.
  intros json' d val Hj' Ht Hg Htd Hval. rewrite Hj in Hj'. injection Hj' as <-.
  rewrite Ht, Hg, Htd in Hi.
  destruct (existsSync fs _) eqn:He; [|done]. exfalso.
  assert (getExtensionName def ∈ exists_) as Hx.
  { replace exists_ with (fst (installed ih root fs (Installer.own_entries d)))
      by (by rewrite <- Hi).
    by eapply (proj1 (installed_spec ih root fs _)). }
  apply existsb_eqb_elem in Hx. congruence.
Qed.

(** No two definitions returned are for the same extension. *)
Theorem filterGlobalExtensions_distinct (ih : Installer.Host) (root : string)
  (fs : gmap string node) (r : registry) (names res : list string) :
  filterGlobalExtensions ih root fs r names = Ok res ->
  NoDup (map getExtensionName res).
Proof.
  unfold filterGlobalExtensions. intros H.
  destruct (loadJson ih root fs) as [json|e]; [|discriminate].
  destruct (installed ih root fs _) as [exists_ urls]. injection H as <-.
  destruct (names_map_spec names) as (Hm & Hnd & _).
  set (m := names_map names) in *. clearbody m.
  induction m as [|[k v] m IH]; [constructor|].
  simpl in Hnd. apply NoDup_cons in Hnd as [Hk Hnd].
  assert (forall k' v', (k', v') ∈ m -> v' ∈ names /\ getExtensionName v' = k') as Hm'.
  { intros k' v' Hin. apply Hm. by apply list_elem_of_further. }
  rewrite filter_cons. case_decide as Hdrop; simpl in *; [|by apply IH].
  apply NoDup_cons. split; [|by apply IH].
  destruct (Hm k v (list_elem_of_here _ _)) as [_ ->].
  intros Hin. apply Hk. apply list_elem_of_fmap in Hin as [v' [Hv' Hin]].
  apply list_elem_of_fmap in Hin as [[k2 v2] [-> Hin]].
  apply list_elem_of_filter in Hin as [_ Hin]. simpl in Hv'.
  destruct (Hm' k2 v2 Hin) as [_ Hk2]. rewrite Hv', Hk2.
  apply list_elem_of_fmap. by exists (k2, v2).
Qed.

(** Every extension asked for by a name that is not a URL is returned,
    unless it is disabled, registered, or a dependency of the manifest. *)
Theorem filterGlobalExtensions_complete (ih : Installer.Host) (root : string)
  (fs : gmap string node) (r : registry) (names res : list string) (def : string) :
  filterGlobalExtensions ih root fs r names = Ok res ->
  def ∈ names ->
  getExtensionName def <> "" ->
  InstallerObject.is_http (getExtensionName def) = false ->
  isDisabled r (getExtensionName def) = false ->
  has r (getExtensionName def) = false ->
  (forall json d, loadJson ih root fs = Ok json -> get json "dependencies" = Ok d ->
                  getExtensionName def ∉ obj_keys (Installer.own_entries d)) ->
  exists def', def' ∈ res /\ getExtensionName def' = getExtensionName def.
Proof.
  unfold filterGlobalExtensions. intros H Hin Hne Hhttp Hdis Hhas Hdeps.
  destruct (loadJson ih root fs) as [json|e] eqn:Hj; [|discriminate].
  destruct (installed ih root fs _) as [exists_ urls] eqn:Hi. injection H as <-.
  destruct (names_map_spec names) as (Hm & _ & Hall).
  specialize (Hall def Hin Hne). apply list_elem_of_fmap in Hall as [[k v] [Hk Hkv]].
  simpl in Hk. subst k. exists v. split; [|by destruct (Hm _ _ Hkv)].
  apply list_elem_of_fmap. exists (getExtensionName def, v). split; [done|].
  apply list_elem_of_filter. split; [|done]. simpl.
  unfold dropped. rewrite Hdis, Hhas, Hhttp. simpl.
  destruct (existsb (String.eqb (getExtensionName def)) exists_) eqn:Hex; [|done]. exfalso.
  apply existsb_eqb_elem in Hex.
  replace exists_ with (fst (installed ih root fs
                               (if truthy json then
                                  match get json "dependencies" with
                                  | Ok d => if truthy d then Installer.own_entries d else []
                                  | Throw _ => []
                                  end
                                else []))) in Hex by (by rewrite Hi).
  apply (proj2 (installed_spec ih root fs _)) in Hex.
  destruct (truthy json); [|by apply elem_of_nil in Hex].
  destruct (get json "dependencies") as [d|] eqn:Hg; [|by apply elem_of_nil in Hex].
  destruct (truthy d); [|by apply elem_of_nil in Hex].
  by eapply Hdeps.
Qed.

Lemma filterGlobalExtensions_sound_witness :
  "coc-css@2.1.0" ∈ asked_for /\
  isDisabled demo_registry (getExtensionName "coc-css@2.1.0") = false /\
  has demo_registry (getExtensionName "coc-css@2.1.0") = false /\
  forall json d val,
    loadJson InstallerDemo.demo_host "/data/extensions" home_with_three = Ok json ->
    truthy json = true ->
    get json "dependencies" = Ok d -> truthy d = true ->
    (getExtensionName "coc-css@2.1.0", VStr val) ∈ Installer.own_entries d ->
    existsSync home_with_three
      (path_join (path_join (modulesFolder InstallerDemo.demo_host "/data/extensions")
                            (getExtensionName "coc-css@2.1.0")) "package.json") = false.
Proof.
  apply (filterGlobalExtensions_sound InstallerDemo.demo_host "/data/extensions" home_with_three
           demo_registry asked_for ["coc-css@2.1.0"; "coc-yaml@latest"] "coc-css@2.1.0").
  - vm_compute. reflexivity.
  - apply list_elem_of_here.
Defined.

Lemma filterGlobalExtensions_distinct_witness :
  NoDup (map getExtensionName ["coc-css@2.1.0"; "coc-yaml@latest"]).
Proof.
  apply (filterGlobalExtensions_distinct InstallerDemo.demo_host "/data/extensions"
           home_with_three demo_registry asked_for ["coc-css@2.1.0"; "coc-yaml@latest"]).
  vm_compute. reflexivity.
Defined.

Lemma filterGlobalExtensions_complete_witness :
  exists def', def' ∈ ["coc-css@2.1.0"; "coc-yaml@latest"] /\
               getExtensionName def' = getExtensionName "coc-css@1.0.0".
Proof.
  apply (filterGlobalExtensions_complete InstallerDemo.demo_host "/data/extensions"
           home_with_three demo_registry asked_for ["coc-css@2.1.0"; "coc-yaml@latest"]
           "coc-css@1.0.0").
  - vm_compute. reflexivity.
  - apply list_elem_of_here.
  - discriminate.
  - reflexivity.
  - vm_compute. reflexivity.
  - vm_compute. reflexivity.
  - intros json d Hj Hd. vm_compute in Hj. injection Hj as <-. vm_compute in Hd.
    injection Hd as <-. vm_compute. intros H.
    repeat (apply elem_of_cons in H as [H|H]; [discriminate|]). by apply elem_of_nil in H.
Defined.

End FilterProps.

Module NameProps.
Import Extensions Management InstallerObject.

Lemma strip_version_no_at (s : string) :
  Js.contains_char "@"%char s = false -> strip_version s = s.
Proof.
  induction s as [|c s IH]; [reflexivity|]. simpl. intros H.
  apply orb_false_iff in H as [Hc Hs].
  destruct (Ascii.eqb c "@"%char) eqn:E.
  - apply Ascii.eqb_eq in E as ->. discriminate.
  - simpl. by rewrite IH.
Qed.

Lemma all_digits_or_dots_at (a b : string) : all_digits_or_dots (a +:+ "@" +:+ b) = false.
Proof.
  induction a as [|c a IH]; [reflexivity|].
  change (String c a +:+ "@" +:+ b) with (String c (a +:+ "@" +:+ b)). simpl.
  rewrite IH. apply andb_false_r.
Qed.

Lemma contains_at_append (a b : string) : Js.contains_char "@"%char (a +:+ "@" +:+ b) = true.
Proof.
  induction a as [|c a IH]; [reflexivity|].
  change (String c a +:+ "@" +:+ b) with (String c (a +:+ "@" +:+ b)). simpl.
  rewrite IH. apply orb_true_r.
Qed.

Lemma strip_version_split (nm ver : string) :
  ver <> "" -> Js.contains_char "@"%char ver = false ->
  strip_version (nm +:+ "@" +:+ ver) =
  if all_digits_or_dots ver then nm else nm +:+ "@" +:+ ver.
Proof.
  intros Hne Hat. induction nm as [|c nm IH].
  - change ("" +:+ "@" +:+ ver) with (String "@"%char ver). simpl.
    destruct (String.eqb ver "") eqn:E; [by apply String.eqb_eq in E|]. simpl.
    destruct (all_digits_or_dots ver); [reflexivity|]. by rewrite strip_version_no_at.
  - change (String c nm +:+ "@" +:+ ver) with (String c (nm +:+ "@" +:+ ver)). simpl.
    rewrite all_digits_or_dots_at, !andb_false_r, IH.
    by destruct (all_digits_or_dots ver).
Qed.

(** The name of a definition "name at version": the version is dropped
    when it is made of digits and dots, and kept as part of the name when it
    is anything else, a tag for one, which the installer's constructor takes
    for a version all the same. *)
Theorem getExtensionName_versioned (nm ver : string) :
  ver <> "" -> Js.contains_char "@"%char ver = false ->
  is_http (nm +:+ "@" +:+ ver) = false ->
  getExtensionName (nm +:+ "@" +:+ ver) =
  if all_digits_or_dots ver then nm else nm +:+ "@" +:+ ver.
Proof.
  intros Hne Hat Hhttp. unfold getExtensionName.
  rewrite Hhttp, contains_at_append. simpl. by apply strip_version_split.
Qed.

Lemma getExtensionName_versioned_witness :
  getExtensionName ("coc-yaml" +:+ "@" +:+ "latest") =
  if all_digits_or_dots "latest" then "coc-yaml" else "coc-yaml" +:+ "@" +:+ "latest".
Proof.
  apply (getExtensionName_versioned "coc-yaml" "latest").
  - discriminate.
  - reflexivity.
  - reflexivity.
Defined.

End NameProps.

Module EventsProps.
Import Extensions ExtensionsDemo Management ManagementDemo.





End EventsProps.

Module LoadProps.
Import Extensions ExtensionsDemo Management ManagementDemo.

(** The record of [id] has nothing cached that is older than reference [n]. *)
Lemma activate_new_record h c id entry r it cl :
  extensions r !! id = Some it ->
  closures r !! extension it = Some cl ->
  isActive cl = false -> result cl = None ->
  exists cl', closures (activate h c id entry r) !! extension it = Some cl' /\
              isActive cl' = false /\ c_manifest cl' = c_manifest cl /\
              (result cl' = None \/ result cl' = Some (next r)).
Proof.
  intros Hit Hcl Hact Hres. unfold activate.
  destruct (isDisabled r id); [by exists cl; eauto|].
  rewrite Hit, Hcl, Hact. unfold extension_activate. rewrite Hcl, Hres.
  destruct (match ext cl with
            | Some e => Some e
            | None => factory h (c_id cl) (c_filename cl) (negb (pkg_engines_coc (c_manifest cl)))
            end) as [e|]; simpl.
  - eexists. split; [apply lookup_insert_eq|]. simpl. eauto.
  - exists cl. eauto.
Qed.

Lemma setup_events_new_record h w c id entry it cl n events : forall registered r,
  extensions r !! id = Some it ->
  closures r !! extension it = Some cl ->
  isActive cl = false -> result cl = None -> next r = n ->
  exists cl', closures (setup_events h w c id entry events registered r) !! extension it =
                Some cl' /\
              isActive cl' = false /\ c_manifest cl' = c_manifest cl /\
              (result cl' = None \/ result cl' = Some n).
Proof.
  induction events as [|ev events IH]; intros registered r Hit Hcl Hact Hres Hn.
  - exists cl. simpl. eauto.
  - simpl. unfold active.
    repeat case_match;
      try (subst n; by apply activate_new_record);
      try (by exists cl; eauto);
      try (by apply IH).
Qed.

(** [loadExtension] leaves the id with a new record, whatever was loaded,
    cached or active under that id before: the record is not active, and the
    promise it holds, if any, was created by this very call. *)
Theorem loadExtension_new_record (h : Host) (w : Workspace) (c : nat) (folder : string)
  (packageJSON : manifest) (isLocal : bool) (entry : option error) (r : registry) :
  isDisabled r (pkg_name packageJSON) = false ->
  let r' := snd (loadExtension h w c folder packageJSON isLocal entry r) in
  exists it cl,
    extensions r' !! pkg_name packageJSON = Some it /\
    closures r' !! extension it = Some cl /\
    next r < extension it /\
    c_manifest cl = packageJSON /\
    isActive cl = false /\
    (result cl = None \/ exists p, result cl = Some p /\ extension it < p).
Proof.
  intros Hd r'. subst r'. unfold loadExtension. rewrite Hd. simpl.
  set (r0 := unloadExtension (pkg_name packageJSON) r).
  assert (next r <= next r0) as Hnext.
  { subst r0. unfold unloadExtension, deactivate.
    destruct (extensions r !! pkg_name packageJSON) as [it0|]; [|done]. simpl.
    unfold item_deactivate. destruct (closures r !! extension it0) as [cl0|]; [|done].
    destruct (isActive cl0); [|done]. simpl. destruct (ext cl0) as [[[]]|]; simpl; lia. }
  unfold createExtension. cbv zeta.
  set (it := {| item_id := pkg_name packageJSON;
                item_type := if isLocal then Local else Global;
                isLocal := match (if isLocal then Local else Global) with
                           | Local => true
                           | _ => false
                           end;
                extension := S (next r0); directory := folder;
                filepath := path_join folder
                              match pkg_main packageJSON with
                              | Some m => if String.eqb m "" then "index.js" else m
                              | None => "index.js"
                              end |}).
  match goal with
  | |- context [set_closure (S (next r0)) ?cl0 r0] => set (cl := cl0)
  end.
  match goal with
  | |- context [if _ then setupActiveEvents _ _ _ _ _ _ ?x else _] => set (r1 := x)
  end.
  assert (extensions r1 !! pkg_name packageJSON = Some it) as Hit.
  { subst r1. simpl. apply lookup_insert_eq. }
  assert (closures r1 !! extension it = Some cl) as Hcl.
  { subst r1. simpl. apply lookup_insert_eq. }
  assert (next r1 = S (S (next r0))) as Hn by done.
  assert (exists cl', closures (if activated r1
                                then setupActiveEvents h w c (pkg_name packageJSON) packageJSON
                                       entry r1
                                else r1) !! extension it = Some cl' /\
                      isActive cl' = false /\ c_manifest cl' = packageJSON /\
                      (result cl' = None \/ result cl' = Some (S (S (next r0))))) as Hrec.
  { destruct (activated r1); [|by exists cl; eauto].
    unfold setupActiveEvents. destruct (canActivate r1 (pkg_name packageJSON));
      [|by exists cl; eauto].
    cbn [negb].
    pose proof (activate_new_record h c (pkg_name packageJSON) entry r1 it cl Hit Hcl
                  eq_refl eq_refl) as Hact.
    rewrite Hn in Hact.
    destruct (activationEvents packageJSON) as [events|]; [|exact Hact].
    destruct (includes_star events); [exact Hact|].
    exact (setup_events_new_record h w c (pkg_name packageJSON) entry it cl
             (S (S (next r0))) events [] r1 Hit Hcl eq_refl eq_refl Hn). }
  destruct Hrec as (cl' & Hcl' & Hact & Hman & Hres).
  exists it, cl'. split.
  - destruct (activated r1); [|done].
    pose proof (ToggleProps.setupActiveEvents_membership h w c (pkg_name packageJSON)
                  packageJSON entry r1) as Hm.
    injection Hm as _ -> _. done.
  - split; [done|]. split; [simpl; lia|]. split; [done|]. split; [done|].
    destruct Hres as [Hres|Hres]; [by left|right]. eexists. split; [done|]. simpl. lia.
Qed.

Lemma loadExtension_new_record_witness :
  let r' := snd (loadExtension demo_host demo_workspace 5 "/ext/coc-demo" (demo_manifest None)
                   false None demo_rejected) in
  exists it cl,
    extensions r' !! pkg_name (demo_manifest None) = Some it /\
    closures r' !! extension it = Some cl /\
    next demo_rejected < extension it /\
    c_manifest cl = demo_manifest None /\
    isActive cl = false /\
    (result cl = None \/ exists p, result cl = Some p /\ extension it < p).
Proof.
  apply (loadExtension_new_record demo_host demo_workspace 5 "/ext/coc-demo"
           (demo_manifest None) false None demo_rejected).
  vm_compute. reflexivity.
Defined.

End LoadProps.

(* ===================================================================== *)
(** * Properties of URL lookups and root patterns                         *)
(* ===================================================================== *)

Module UriProps.
Import Installer InstallerDemo InstallerObject InstallerObjectDemo InstallerProps.

Lemma strip_trailing_slash_id (u : string) :
  Js.endsWith u "/" = false -> strip_trailing_slash u = u.
Proof.
  induction u as [|c u IH]; [reflexivity|]. intros H.
  unfold Js.endsWith in H; fold Js.endsWith in H.
  apply orb_false_iff in H as [H1 H2]. cbn [strip_trailing_slash].
  destruct (Ascii.eqb c "/"%char && String.eqb u "") eqn:E.
  - apply andb_true_iff in E as [Ec Eu]. apply Ascii.eqb_eq in Ec. apply String.eqb_eq in Eu.
    subst. discriminate.
  - by rewrite IH.
Qed.

Lemma split_at_char_none (c : ascii) (a : string) :
  Js.contains_char c a = false -> split_at_char c a = None.
Proof.
  induction a as [|d a IH]; [reflexivity|]. simpl. intros H.
  apply orb_false_iff in H as [Hd Ha]. by rewrite Hd, IH.
Qed.

Lemma split_at_char_app (c : ascii) (a b : string) :
  Js.contains_char c a = false -> split_at_char c (a +:+ String c b) = Some (a, b).
Proof.
  induction a as [|d a IH]; intros H.
  - change ("" +:+ String c b) with (String c b). simpl. by rewrite Ascii.eqb_refl.
  - change (String d a +:+ String c b) with (String d (a +:+ String c b)). simpl in *.
    apply orb_false_iff in H as [Hd Ha]. by rewrite Hd, IH.
Qed.

Lemma substring_all (s : string) (m : nat) :
  String.length s <= m -> String.substring 0 m s = s.
Proof.
  revert m. induction s as [|c s IH]; intros m H; [by destruct m|].
  simpl in H. destruct m; [lia|]. simpl. rewrite IH; [done|lia].
Qed.

Lemma prefix_cons_ne (a b : ascii) (s1 s2 : string) :
  a <> b -> String.prefix (String a s1) (String b s2) = false.
Proof. intros H. simpl. by destruct (ascii_dec a b). Qed.

Lemma prefix_cons_eq (a : ascii) (s1 s2 : string) :
  String.prefix (String a s1) (String a s2) = String.prefix s1 s2.
Proof. simpl. by destruct (ascii_dec a a). Qed.

Lemma raw_url (repo : string) :
  replace_first "github.com" "raw.githubusercontent.com" ("https://github.com" +:+ repo) =
  "https://raw.githubusercontent.com" +:+ repo.
Proof.
  cbv [String.append].
  do 8 (unfold replace_first at 1; fold replace_first;
        rewrite prefix_cons_ne by discriminate; f_equal).
  unfold replace_first at 1; fold replace_first.
  rewrite !prefix_cons_eq.
  assert (String.prefix "" repo = true) as -> by (by destruct repo).
  cbn [String.length String.substring]. by rewrite substring_all by lia.
Qed.

Lemma prefix_nil (x : string) : String.prefix "" x = true.
Proof. by destruct x. Qed.

Lemma starts_with_github (x : string) :
  Js.startsWith ("https://github.com" +:+ x) "https://github.com" = true.
Proof.
  unfold Js.startsWith. cbv [String.append]. rewrite !prefix_cons_eq. apply prefix_nil.
Qed.

Lemma github_url_parts (repo : string) (spec : option string) :
  Js.contains_char "@"%char repo = false ->
  let u := "https://github.com" +:+ repo +:+
           match spec with Some b => "@" +:+ b | None => "" end in
  match split_at_char "@"%char u with
  | Some (before, after) => (before, after)
  | None => (u, "master")
  end = ("https://github.com" +:+ repo, default "master" spec).
Proof.
  intros Hat u. subst u.
  assert (Js.contains_char "@"%char ("https://github.com" +:+ repo) = false) as Hbase.
  { cbv [String.append]. cbn [Js.contains_char]. fold String.append.
    change ((fix append (s1 s2 : string) {struct s1} : string :=
               match s1 with
               | "" => s2
               | String c s1' => String c (append s1' s2)
               end) "" repo) with repo.
    rewrite Hat. reflexivity. }
  destruct spec as [b|]; simpl.
  - change ("@" +:+ b) with (String "@"%char b).
    rewrite <- CleanProps.append_assoc. by rewrite split_at_char_app.
  - assert (repo +:+ "" = repo) as ->.
    { clear. induction repo as [|c r IH]; [done|].
      change (String c r +:+ "") with (String c (r +:+ "")). by rewrite IH. }
    by rewrite split_at_char_none.
Qed.

Lemma getInfoFromUri_run (h : Host) (s : state) (u base branch : string) (obj : value) :
  url (self s) = VStr u ->
  Js.startsWith u "https://github.com" = true ->
  strip_trailing_slash u = u ->
  match split_at_char "@"%char u with
  | Some (before, after) => (before, after)
  | None => (u, "master")
  end = (base, branch) ->
  fetch h (replace_first "github.com" "raw.githubusercontent.com" base
           +:+ "/" +:+ branch +:+ "/package.json") = Some (inr obj) ->
  truthy obj = true ->
  exists info s',
    getInfoFromUri h s = (Ok info, s') /\
    dist_tarball info = VStr (base +:+ "/archive/" +:+ branch +:+ ".tar.gz") /\
    get obj "name" = Ok (info_name info) /\
    get obj "version" = Ok (info_version info) /\
    name (self s') = info_name info.
Proof.
  intros Hu Hgh Hstrip Hparts Hfetch Hobj.
  destruct (get_truthy obj "name" Hobj) as [nm Hnm].
  destruct (get_truthy obj "version" Hobj) as [ver Hver].
  destruct (get_truthy obj "engines" Hobj) as [eng Heng].
  assert (exists coc, (if truthy eng then lift (get eng "coc") else ret VNull) =
                      (ret coc : M value)) as [coc Hcoc].
  { destruct (truthy eng) eqn:Ht; [|by eexists].
    destruct (get_truthy eng "coc" Ht) as [coc ->]. by exists coc. }
  unfold getInfoFromUri, bind at 1, gets.
  unfold bind at 1. rewrite Hu. unfold as_string, ret at 1.
  rewrite Hgh, Hstrip, Hparts. cbn [negb].
  unfold bind at 1. unfold log at 1, modify at 1.
  unfold bind at 1. unfold lift at 1. rewrite Hfetch.
  unfold bind at 1. unfold ret at 1.
  unfold bind at 1. unfold lift at 1. rewrite Hnm.
  unfold bind at 1. unfold modify at 1.
  unfold bind at 1. unfold lift at 1. rewrite Heng.
  rewrite Hcoc. unfold bind, ret, lift. rewrite Hver.
  eexists _, _. split; [reflexivity|]. done.
Qed.

(** For a URL on github.com, with or without a branch after an at sign,
    [getInfoFromUri] reads the manifest of that branch (of master when none
    is given) from raw.githubusercontent.com, and names the archive of the
    branch as the tarball. *)
Theorem getInfoFromUri_github (h : Host) (s : state) (repo : string) (spec : option string)
  (obj : value) :
  let u := "https://github.com" +:+ repo +:+
           match spec with Some b => "@" +:+ b | None => "" end in
  let branch := default "master" spec in
  url (self s) = VStr u ->
  Js.contains_char "@"%char repo = false ->
  Js.endsWith u "/" = false ->
  fetch h ("https://raw.githubusercontent.com" +:+ repo +:+ "/" +:+ branch +:+ "/package.json") =
    Some (inr obj) ->
  truthy obj = true ->
  exists info s',
    getInfoFromUri h s = (Ok info, s') /\
    dist_tarball info =
      VStr ("https://github.com" +:+ repo +:+ "/archive/" +:+ branch +:+ ".tar.gz") /\
    get obj "name" = Ok (info_name info) /\
    get obj "version" = Ok (info_version info) /\
    name (self s') = info_name info.
Proof.
  intros u branch Hu Hat Hslash Hfetch Hobj.
  destruct (getInfoFromUri_run h s u ("https://github.com" +:+ repo) branch obj)
    as (info & s' & Hrun & Htar & Hrest); try done.
  - apply starts_with_github.
  - by apply strip_trailing_slash_id.
  - by apply github_url_parts.
  - by rewrite raw_url, CleanProps.append_assoc.
  - exists info, s'. split; [done|]. split; [|done].
    by rewrite Htar, CleanProps.append_assoc.
Qed.

Lemma getInfoFromUri_github_witness :
  let s := demo_state ∅ (demo_installer "vue-vscode-snippets"
                           (VStr "https://github.com/sdras/vue-vscode-snippets@main")) in
  let obj := VObj [("name", VStr "vue-vscode-snippets"); ("version", VStr "3.1.0");
                   ("engines", VObj [("vscode", VStr "^1.0.0")])] in
  exists info s',
    getInfoFromUri demo_host s = (Ok info, s') /\
    dist_tarball info =
      VStr ("https://github.com" +:+ "/sdras/vue-vscode-snippets" +:+ "/archive/" +:+
            default "master" (Some "main") +:+ ".tar.gz") /\
    get obj "name" = Ok (info_name info) /\
    get obj "version" = Ok (info_version info) /\
    name (self s') = info_name info.
Proof.
  apply (getInfoFromUri_github demo_host
           (demo_state ∅ (demo_installer "vue-vscode-snippets"
                            (VStr "https://github.com/sdras/vue-vscode-snippets@main")))
           "/sdras/vue-vscode-snippets" (Some "main")
           (VObj [("name", VStr "vue-vscode-snippets"); ("version", VStr "3.1.0");
                  ("engines", VObj [("vscode", VStr "^1.0.0")])])).
  - reflexivity.
  - reflexivity.
  - reflexivity.
  - reflexivity.
  - reflexivity.
Defined.

End UriProps.

Module WorkspaceFoldersProps.
Import WorkspaceFolders.

Lemma add_missing_spec (rps : list string) : forall ps : list string,
  ps `prefix_of` add_missing ps rps /\
  (forall p, p ∈ add_missing ps rps <-> p ∈ ps \/ p ∈ rps) /\
  (NoDup ps -> NoDup (add_missing ps rps)).
Proof.
  unfold add_missing. induction rps as [|r rps IH]; intros ps; simpl.
  - split; [done|]. split; [|done]. intros p. split; [by left|].
    intros [H|H]; [done|by apply elem_of_nil in H].
  - destruct (IH (if bool_decide (r ∈ ps) then ps else ps ++ [r])) as (Hpre & Hin & Hnd).
    case_bool_decide as Hr.
    + split; [done|]. split; [|done]. intros p. rewrite Hin, elem_of_cons.
      split; [tauto|]. intros [H|[->|H]]; tauto.
    + split; [|split].
      * etrans; [|exact Hpre]. by apply prefix_app_r.
      * intros p. rewrite Hin, elem_of_app, list_elem_of_singleton, elem_of_cons. tauto.
      * intros Hps. apply Hnd. apply NoDup_app. split; [done|]. split.
        -- intros x Hx Hx'. apply list_elem_of_singleton in Hx' as ->. done.
        -- apply NoDup_singleton.
Qed.

Lemma add_missing_present (rps ps : list string) :
  (forall p, p ∈ rps -> p ∈ ps) -> add_missing ps rps = ps.
Proof.
  unfold add_missing. induction rps as [|r rps IH]; intros H; simpl; [done|].
  rewrite bool_decide_eq_true_2 by (apply H; apply list_elem_of_here).
  apply IH. intros p Hp. apply H. by apply list_elem_of_further.
Qed.

(** [addRootPattern] keeps the patterns of the filetype in their order and
    appends those that are missing: no pattern is lost, none is added
    twice, other filetypes are left alone, and adding the same patterns
    again changes nothing. *)
Theorem addRootPattern_spec (filetype : string) (rootPatterns : list string)
  (m : gmap string (list string)) :
  let old := default [] (m !! filetype) in
  let new := default [] (addRootPattern filetype rootPatterns m !! filetype) in
  old `prefix_of` new /\
  (forall p, p ∈ new <-> p ∈ old \/ p ∈ rootPatterns) /\
  (NoDup old -> NoDup new) /\
  (forall other, other <> filetype ->
                 addRootPattern filetype rootPatterns m !! other = m !! other) /\
  addRootPattern filetype rootPatterns (addRootPattern filetype rootPatterns m) =
  addRootPattern filetype rootPatterns m.
Proof.
  intros old new. subst new. unfold addRootPattern. rewrite lookup_insert_eq. simpl.
  destruct (add_missing_spec rootPatterns old) as (Hpre & Hin & Hnd).
  split; [done|]. split; [done|]. split; [done|]. split.
  - intros other Hne. by rewrite lookup_insert_ne.
  - rewrite insert_insert_eq. f_equal. apply add_missing_present.
    intros p Hp. apply Hin. by right.
Qed.

End WorkspaceFoldersProps.
